(** * Forecasting pipeline of the finance tracker: a shallow embedding

    The development follows the projection module of the repository
    (CSV parsing, monthly aggregation, feature construction, the
    autoregressive projector, the localStorage result store and the yearly
    history view) function by function.

    Modelling conventions.
    - JavaScript numbers that hold amounts are kept behind the [Arith]
      interface; its instance is the IEEE-754 doubles (Rocq's primitive
      floats), the arithmetic the program computes with.
    - Years, months and counters are integers ([Z]); they are exact in
      JavaScript as long as they stay below 2^53.
    - Strings are byte strings, the UTF-8 encoding of the text; [None] in
      an [option string] field stands for JavaScript's [undefined].
    - A computation that may throw returns an [outcome]. *)

From Stdlib Require Import ZArith Lia List Sorted Permutation String Ascii.
From Stdlib Require Import Decimal DecimalString DecimalZ DecimalPos.
From Stdlib Require Import PrimFloat SpecFloat FloatOps.
From Stdlib Require FloatAxioms.
From stdpp Require Import gmap strings list.

#[global] Set Warnings "-register-all,-inexact-float".
Set Warnings "-register-all,-inexact-float".

Open Scope string_scope.
Open Scope Z_scope.
Open Scope list_scope.

(** ** Completions *)

(** A thrown JavaScript value: the constructor name and the message. *)
Inductive exn : Type :=
| JsError (name : string) (message : string).

(** How a call ends: it returns, it throws, or it leaves the fragment of
    JavaScript that this development models (a date component that is
    [NaN] or not an integer). *)
Inductive outcome (A : Type) : Type :=
| Returns (a : A)
| Throws (e : exn)
| Beyond.
Arguments Returns {A} a.
Arguments Throws {A} e.
Arguments Beyond {A}.

#[global] Instance outcome_ret : MRet outcome := fun _ a => Returns a.
#[global] Instance outcome_bind : MBind outcome := fun _ _ f c =>
  match c with
  | Returns a => f a
  | Throws e => Throws e
  | Beyond => Beyond
  end.

#[global] Instance outcome_fmap : FMap outcome := fun _ _ f c =>
  match c with
  | Returns a => Returns (f a)
  | Throws e => Throws e
  | Beyond => Beyond
  end.

(** [for (const x of xs) { acc = body(acc, x) }] with a body that may throw. *)
Fixpoint forOf {A S : Type} (body : S -> A -> outcome S) (xs : list A) (acc : S)
  : outcome S :=
  match xs with
  | [] => Returns acc
  | x :: xs' => acc' ← body acc x; forOf body xs' acc'
  end.

(** ** Strings *)

(** [s.split(sep)] for a one-character separator: never empty. *)
Fixpoint split (sep : ascii) (s : string) : list string :=
  match s with
  | EmptyString => [EmptyString]
  | String c s' =>
      if Ascii.eqb c sep then EmptyString :: split sep s'
      else match split sep s' with
           | [] => [String c EmptyString]
           | w :: ws => String c w :: ws
           end
  end.

Fixpoint replicate_char (n : nat) (c : ascii) : string :=
  match n with
  | O => EmptyString
  | S n' => String c (replicate_char n' c)
  end.

(** [s.padStart(n, c)] for a one-character filler. *)
Definition padStart (n : nat) (c : ascii) (s : string) : string :=
  replicate_char (n - String.length s) c +:+ s.

(** [Number.prototype.toString] on an integer below 10^21. *)
Definition showZ (z : Z) : string := NilZero.string_of_int (Z.to_int z).

Definition MAX_SAFE_INTEGER : Z := 9007199254740991.

(** The value of a string of decimal digits (the empty string counts 0, as
    [Number("")] does). *)
Definition digitsValue (s : string) : option Z :=
  Z.of_uint <$> NilEmpty.uint_of_string s.

(** [Number(s)] restricted to the strings on which it is an exact integer
    written in plain digits; [None] covers [NaN] and the other numeric
    spellings (signs, fractions, exponents, hexadecimal, blanks). *)
Definition NumberInt (s : string) : option Z :=
  match digitsValue s with
  | Some z => if z <=? MAX_SAFE_INTEGER then Some z else None
  | None => None
  end.

(** [s.includes(c)] for one character. *)
Fixpoint occurs (c : ascii) (s : string) : bool :=
  match s with
  | EmptyString => false
  | String a s' => if Ascii.eqb a c then true else occurs c s'
  end.

(** Reading a month key back: the inverse of [monthKeyOf] on the
    non-negative years and months. *)
Definition parseMonthKey (k : string) : option (Z * Z) :=
  match split "-" k with
  | [ys; ms] =>
      match digitsValue ys, digitsValue ms with
      | Some y, Some m => Some (y, m)
      | _, _ => None
      end
  | _ => None
  end.

(** ** The number interface *)

Class Arith (num : Type) : Type := {
  ofZ : Z -> num;                 (* an integer literal or integer variable *)
  add : num -> num -> num;        (* a + b *)
  mul : num -> num -> num;        (* a * b *)
  div : num -> num -> num;        (* a / b *)
  gtb : num -> num -> bool;       (* a > b *)
  max2 : num -> num -> num        (* Math.max(a, b) *)
}.

(** [xs.reduce((a, b) => a + b, 0)], also the shape of every [+=] loop. *)
Definition sum {num} `{Arith num} (xs : list num) : num :=
  fold_left add xs (ofZ 0).

(** [Math.max(x, ...xs)]. *)
Definition Math_max {num} `{Arith num} (x : num) (xs : list num) : num :=
  fold_left max2 xs x.

(** *** IEEE-754 doubles: the arithmetic of the running program *)

Module F64.
(** The double nearest to the integer [z] (exact below 2^53). *)
Definition fromZ (z : Z) : float :=
  FloatOps.SF2Prim (binary_normalize FloatOps.prec FloatOps.emax z 0 false).

(** The double nearest to [n / d], ties to even. *)
Definition fromRatio (neg : bool) (n : Z) (d : positive) : float :=
  match n with
  | Zpos p =>
      FloatOps.SF2Prim
        (SFdiv FloatOps.prec FloatOps.emax (S754_finite neg p 0) (S754_finite false d 0))
  | _ => if neg then neg_zero else zero
  end.

Definition maximum (a b : float) : float :=
  if is_nan a || is_nan b then nan
  else if PrimFloat.ltb a b then b
  else if PrimFloat.ltb b a then a
  else if get_sign a then b else a.

#[global] Instance arith : Arith float := {|
  ofZ := fromZ;
  add := PrimFloat.add;
  mul := PrimFloat.mul;
  div := PrimFloat.div;
  gtb a b := PrimFloat.ltb b a;
  max2 := maximum
|}.
End F64.

(** ** Data model *)

Section DataModel.
Context {num : Type}.

Record CSVTransaction : Type := {
  id_ : option string;
  date : option string;
  type : option string;
  category : option string;
  description : option string;
  amount : num;
  currency : option string;
  merchantId : option string;
  merchantName : option string;
  mcc : option string;
  isRecurring : option string;
  essentiality : option string;
  labelRecurring : option string;
  labelEssential : option string
}.

Record MonthlyData : Type := {
  year : Z;
  month : Z;
  monthKey : string;
  totalIncome : num;
  totalExpenses : num;
  transactionCount : Z
}.

Record ProjectedMonthlyData : Type := {
  p_monthKey : string;
  projectedIncome : num;
  projectedExpenses : num
}.

Record ProjectionResult : Type := {
  projections : list ProjectedMonthlyData;
  modelAccuracy : option num;
  trainingDate : string;
  historicalMonths : Z
}.
End DataModel.
Arguments CSVTransaction num : clear implicits.
Arguments MonthlyData num : clear implicits.
Arguments ProjectedMonthlyData num : clear implicits.
Arguments ProjectionResult num : clear implicits.

(** ** Insertion-ordered maps

    A JavaScript [Map] with string keys: the entries in insertion order. *)

(** [m.has(k)] *)
Fixpoint mapHas {V : Type} (k : string) (m : list (string * V)) : bool :=
  match m with
  | [] => false
  | (k', _) :: m' => if String.eqb k k' then true else mapHas k m'
  end.

(** [m.get(k)] *)
Fixpoint mapGet {V : Type} (k : string) (m : list (string * V)) : option V :=
  match m with
  | [] => None
  | (k', d) :: m' => if String.eqb k k' then Some d else mapGet k m'
  end.

(** The entry under [k] is an object mutated in place. *)
Fixpoint mapModify {V : Type} (k : string) (f : V -> V) (m : list (string * V))
  : list (string * V) :=
  match m with
  | [] => []
  | (k', d) :: m' =>
      if String.eqb k k' then (k', f d) :: m' else (k', d) :: mapModify k f m'
  end.

(** [Array.prototype.sort] is stable; insertion sort is the reference
    stable sort. *)
Fixpoint insertSorted {A} (cmp : A -> A -> Z) (x : A) (l : list A) : list A :=
  match l with
  | [] => [x]
  | y :: l' => if cmp x y <=? 0 then x :: l else y :: insertSorted cmp x l'
  end.

Definition sortBy {A} (cmp : A -> A -> Z) (l : list A) : list A :=
  foldr (insertSorted cmp) [] l.

(** ** Monthly Aggregator *)

Section Aggregator.
Context {num : Type} `{Arith num}.

(** [`${year}-${month.toString().padStart(2, "0")}`] *)
Definition monthKeyOf (year month : Z) : string :=
  showZ year +:+ "-" +:+ padStart 2 "0" (showZ month).

(** [const [year, month] = txn.date.split("-").map(Number)], up to the
    point where [month.toString()] is called. *)
Definition yearMonth (d : option string) : outcome (Z * Z) :=
  match d with
  | None => Throws (JsError "TypeError" "Cannot read properties of undefined (reading 'split')")
  | Some s =>
      match split "-" s with
      | ys :: ms :: _ =>
          match NumberInt ys, NumberInt ms with
          | Some y, Some m => Returns (y, m)
          | _, _ => Beyond
          end
      | _ => Throws (JsError "TypeError" "Cannot read properties of undefined (reading 'toString')")
      end
  end.

(** The [Map<string, MonthlyData>]: entries in insertion order. *)
Definition MonthMap : Type := list (string * MonthlyData num).

Definition isIncome (txn : CSVTransaction num) : bool :=
  bool_decide (type txn = Some "income").

(** The two [+=] and the [++] of one loop iteration. *)
Definition account (txn : CSVTransaction num) (d : MonthlyData num) : MonthlyData num :=
  {| year := year d;
     month := month d;
     monthKey := monthKey d;
     totalIncome :=
       if isIncome txn then add (totalIncome d) (amount txn) else totalIncome d;
     totalExpenses :=
       if isIncome txn then totalExpenses d else add (totalExpenses d) (amount txn);
     transactionCount := transactionCount d + 1 |}.

Definition emptyMonth (y m : Z) (key : string) : MonthlyData num :=
  {| year := y; month := m; monthKey := key;
     totalIncome := ofZ 0; totalExpenses := ofZ 0; transactionCount := 0 |}.

Definition enter (monthMap : MonthMap) (y m : Z) (txn : CSVTransaction num) : MonthMap :=
  let key := monthKeyOf y m in
  let monthMap :=
    if mapHas key monthMap then monthMap
    else (monthMap ++ [(key, emptyMonth y m key)])%list in
  mapModify key (account txn) monthMap.

(** One iteration of [for (const txn of transactions)]. *)
Definition aggregateStep (monthMap : MonthMap) (txn : CSVTransaction num)
  : outcome MonthMap :=
  '(y, m) ← yearMonth (date txn);
  mret (enter monthMap y m txn).

(** The comparator given to [sort]. *)
Definition compareMonths (a b : MonthlyData num) : Z :=
  if bool_decide (year a <> year b) then year a - year b
  else month a - month b.

Definition aggregateByMonth (transactions : list (CSVTransaction num))
  : outcome (list (MonthlyData num)) :=
  monthMap ← forOf aggregateStep transactions [];
  mret (sortBy compareMonths (map snd monthMap)).

Definition filterByCurrency (transactions : list (CSVTransaction num))
  (cur : string) : list (CSVTransaction num) :=
  filter (fun txn => currency txn = Some cur) transactions.

End Aggregator.

(** *** Reading the aggregator's input and output *)

Section AggregatorReading.
Context {num : Type} `{Arith num}.

(** The calendar month of a record, when its date yields one. *)
Definition monthOf (t : CSVTransaction num) : option (Z * Z) :=
  match yearMonth (date t) with
  | Returns p => Some p
  | _ => None
  end.

(** The date has the documented shape: at least two components
    separated by a dash, each a plain non-negative integer. *)
Definition wellDated (t : CSVTransaction num) : Prop := is_Some (monthOf t).

Definition inMonth (y m : Z) (t : CSVTransaction num) : bool :=
  bool_decide (monthOf t = Some (y, m)).

Definition hasKey (k : string) (t : CSVTransaction num) : bool :=
  match monthOf t with
  | Some (y, m) => String.eqb (monthKeyOf y m) k
  | None => false
  end.

Definition isExpense (t : CSVTransaction num) : bool := negb (isIncome t).

(** Chronological order on monthly aggregates. *)
Definition before (a b : MonthlyData num) : Prop :=
  year a < year b \/ (year a = year b /\ month a < month b).

Definition notAfter (a b : MonthlyData num) : Prop :=
  year a < year b \/ (year a = year b /\ month a <= month b).

Definition calendarMonth (d : MonthlyData num) : Z * Z := (year d, month d).

(** The loop body on a record whose date yields a month; records without
    one make the loop stop, so they never reach it. *)
Definition enterTxn (monthMap : MonthMap) (t : CSVTransaction num) : MonthMap :=
  match monthOf t with
  | Some (y, m) => enter monthMap y m t
  | None => monthMap
  end.

(** What the map holds under key [k] once the records [ts] are in. *)
Definition summary (k : string) (ts : list (CSVTransaction num))
  : option (MonthlyData num) :=
  match List.filter (hasKey k) ts with
  | [] => None
  | t0 :: rest =>
      match monthOf t0 with
      | Some (y, m) =>
          Some {| year := y; month := m; monthKey := k;
                  totalIncome :=
                    sum (map amount (List.filter isIncome (t0 :: rest)));
                  totalExpenses :=
                    sum (map amount (List.filter isExpense (t0 :: rest)));
                  transactionCount := Z.of_nat (length (t0 :: rest)) |}
      | None => None
      end
  end.
End AggregatorReading.

(** *** Sample data used by the worked examples *)

(** A record with the given date, type, amount and currency, the other
    columns empty. *)
Definition sampleTxn {num : Type} (d ty : string) (a : num) (cur : string)
  : CSVTransaction num :=
  {| id_ := Some ""; date := Some d; type := Some ty; category := Some "";
     description := Some ""; amount := a; currency := Some cur;
     merchantId := Some ""; merchantName := Some ""; mcc := Some "";
     isRecurring := Some ""; essentiality := Some "";
     labelRecurring := Some ""; labelEssential := Some "" |}.

Definition sampleLedger : list (CSVTransaction float) :=
  [ sampleTxn "2024-03-01" "income" 1200.5%float "GBP";
    sampleTxn "2024-01-05" "expense" 0.1%float "GBP";
    sampleTxn "2024-03-02" "refund" 0.2%float "GBP";
    sampleTxn "2023-12-02" "income" 5%float "GBP";
    sampleTxn "2024-1-09" "expense" 0.2%float "GBP" ].

(** ** Feature Builder *)

Section FeatureBuilder.
Context {num : Type} `{Arith num}.

Record FeatureSet : Type := {
  features : list (list num);
  incomeLabels : list num;
  expenseLabels : list num;
  maxIncome : num;
  maxExpense : num;
  minYear : Z;
  maxYear : Z
}.

(** [maxYear - minYear > 0 ? maxYear - minYear : 1] *)
Definition yearRangeOf (minYear maxYear : Z) : Z :=
  if maxYear - minYear >? 0 then maxYear - minYear else 1.

(** [monthlyData[j]] for [j] from [Math.max(0, i - lookback)] up to [i - 1]. *)
Definition lookbackWindow {A} (monthlyData : list A) (i lookback : nat) : list A :=
  firstn (i - (i - lookback)) (skipn (i - lookback) monthlyData).

(** The moving average of one target over the window, then its
    normalisation by the target's maximum. *)
Definition normalizedMovingAvg (window : list num) (lookback : nat) (maxValue : num)
  : num :=
  let movingAvg := sum window in
  let movingAvg :=
    if (0 <? Z.of_nat lookback) then div movingAvg (ofZ (Z.of_nat lookback))
    else ofZ 0 in
  if gtb maxValue (ofZ 0) then div movingAvg maxValue else ofZ 0.

(** [maxValue > 0 ? value / maxValue : 0] *)
Definition normalizedLabel (value maxValue : num) : num :=
  if gtb maxValue (ofZ 0) then div value maxValue else ofZ 0.

(** The feature vector pushed by iteration [i] of the loop. *)
Definition featureRow (monthlyData : list (MonthlyData num))
  (maxIncome maxExpense : num) (minYear maxYear : Z)
  (i : nat) (data : MonthlyData num) : list num :=
  let normalizedMonth := div (ofZ (month data)) (ofZ 12) in
  let yearRange := yearRangeOf minYear maxYear in
  let normalizedYear := div (ofZ (year data - minYear)) (ofZ yearRange) in
  let lookbackIncome := Nat.min i 3 in
  let normalizedMovingAvgIncome :=
    normalizedMovingAvg
      (map totalIncome (lookbackWindow monthlyData i lookbackIncome))
      lookbackIncome maxIncome in
  let lookbackExpense := Nat.min i 3 in
  let normalizedMovingAvgExpense :=
    normalizedMovingAvg
      (map totalExpenses (lookbackWindow monthlyData i lookbackExpense))
      lookbackExpense maxExpense in
  [normalizedMonth; normalizedYear;
   normalizedMovingAvgIncome; normalizedMovingAvgExpense].

Definition createFeatures (monthlyData : list (MonthlyData num))
  : outcome FeatureSet :=
  match monthlyData with
  | [] => Throws (JsError "Error" "No monthly data available for feature creation")
  | first :: others =>
      let minYear := fold_left Z.min (map year others) (year first) in
      let maxYear := fold_left Z.max (map year others) (year first) in
      let maxIncome := Math_max (totalIncome first) (map totalIncome others) in
      let maxExpense := Math_max (totalExpenses first) (map totalExpenses others) in
      Returns
        {| features :=
             imap (featureRow monthlyData maxIncome maxExpense minYear maxYear)
               monthlyData;
           incomeLabels :=
             map (fun data => normalizedLabel (totalIncome data) maxIncome) monthlyData;
           expenseLabels :=
             map (fun data => normalizedLabel (totalExpenses data) maxExpense) monthlyData;
           maxIncome := maxIncome;
           maxExpense := maxExpense;
           minYear := minYear;
           maxYear := maxYear |}
  end.
End FeatureBuilder.
Arguments FeatureSet num : clear implicits.

(** A monthly aggregate given by its month and totals. *)
Definition sampleMonth {num : Type} (y m : Z) (income expenses : num) (n : Z)
  : MonthlyData num :=
  {| year := y; month := m; monthKey := monthKeyOf y m;
     totalIncome := income; totalExpenses := expenses; transactionCount := n |}.

(** Four months at a constant salary of 1000.20, in doubles. *)
Definition steadySalary : list (MonthlyData float) :=
  [ sampleMonth 2024 1 1000.2%float 800%float 3;
    sampleMonth 2024 2 1000.2%float 900%float 3;
    sampleMonth 2024 3 1000.2%float 800%float 3;
    sampleMonth 2024 4 1000.2%float 900%float 3 ].

(** *** Reading doubles *)

Module Binary64.
(** An integer that orders the doubles as their comparison does: 0 for
    the two zeros, beyond every finite double for the infinities; on the
    finite doubles, increasing in the exponent and then in the mantissa. *)
Definition rank (x : spec_float) : Z :=
  match x with
  | S754_zero _ => 0
  | S754_finite s m e =>
      let r := (e + 1075) * 9007199254740992 + Zpos m in
      if s then - r else r
  | S754_infinity s => if s then - 73786976294838206464 else 73786976294838206464
  | S754_nan => 0
  end.

Definition notNaN (x : spec_float) : Prop :=
  match x with
  | S754_nan => False
  | _ => True
  end.

(** Zero, a positive finite double or plus infinity. *)
Definition nonNegative (x : spec_float) : Prop :=
  match x with
  | S754_zero _ | S754_finite false _ _ | S754_infinity false => True
  | _ => False
  end.

(** A mantissa being shifted right with its round and sticky bits, worth
    at most [2^k]; worth exactly [2^k] only when the two bits are clear. *)
Definition under (k : Z) (mrs : shr_record) : Prop :=
  0 <= shr_m mrs <= 2 ^ k /\
  (shr_m mrs = 2 ^ k -> shr_r mrs = false /\ shr_s mrs = false).
End Binary64.

Module F64Reading.
(** A finite double that is not negative: what a total of amounts is. *)
Definition amountOk (x : float) : bool :=
  is_finite x && PrimFloat.leb 0 x.

(** A double between 0 and 1, both included. *)
Definition inUnit (x : float) : bool :=
  PrimFloat.leb 0 x && PrimFloat.leb x 1.

(** Aggregates as the aggregator makes them from non-negative amounts:
    finite non-negative totals, a month from 1 to 12, a year that is a
    non-negative safe integer. *)
Definition plausible (d : MonthlyData float) : Prop :=
  amountOk (totalIncome d) = true /\ amountOk (totalExpenses d) = true /\
  1 <= month d <= 12 /\ 0 <= year d <= MAX_SAFE_INTEGER.
End F64Reading.

(** Four months at 1e308: the sum of three of them is beyond the largest
    double. *)
Definition hugeSalary : list (MonthlyData float) :=
  [ sampleMonth 2024 1 1e308%float 800%float 3;
    sampleMonth 2024 2 1e308%float 900%float 3;
    sampleMonth 2024 3 1e308%float 800%float 3;
    sampleMonth 2024 4 1e308%float 900%float 3 ].

(** ** Autoregressive Projector *)

(** Months counted from January of year 0. *)
Definition monthIndex (y m : Z) : Z := 12 * y + (m - 1).

Definition monthOfIndex (n : Z) : Z * Z := (n / 12, n mod 12 + 1).

(** The month key of the month with the given index. *)
Definition keyOfIndex (n : Z) : string :=
  monthKeyOf (fst (monthOfIndex n)) (snd (monthOfIndex n)).

(** The month index a key denotes. *)
Definition keyIndex (k : string) : option Z :=
  match parseMonthKey k with
  | Some (y, m) => Some (monthIndex y m)
  | None => None
  end.

Section Projector.
Context {num : Type} `{Arith num}.

(** A trained model, seen through [predict] on one feature vector
    followed by [data()[0]]. *)
Definition Model : Type := list num -> num.

(** The variables the loop updates. *)
Record ProjectorState : Type := {
  currentYear : Z;
  currentMonth : Z;
  recentIncomes : list num;
  recentExpenses : list num;
  projected : list (ProjectedMonthlyData num)
}.

(** [currentMonth++; if (currentMonth > 12) { currentMonth = 1; currentYear++ }] *)
Definition advance (currentYear currentMonth : Z) : Z * Z :=
  let currentMonth := currentMonth + 1 in
  if currentMonth >? 12 then (currentYear + 1, 1) else (currentYear, currentMonth).

(** The month index the loop stands at. *)
Definition stateIndex (st : ProjectorState) : Z :=
  monthIndex (currentYear st) (currentMonth st).

(** [recent.length > 0 ? recent.reduce((a, b) => a + b, 0) / recent.length : 0],
    then the normalisation by the maximum. *)
Definition normalizedRecentAvg (recent : list num) (maxValue : num) : num :=
  let movingAvg :=
    if (0 <? Z.of_nat (length recent))
    then div (sum recent) (ofZ (Z.of_nat (length recent)))
    else ofZ 0 in
  if gtb maxValue (ofZ 0) then div movingAvg maxValue else ofZ 0.

(** [recent.push(x); if (recent.length > 3) recent.shift()] *)
Definition pushRecent (recent : list num) (x : num) : list num :=
  let recent := recent ++ [x] in
  if (3 <? Z.of_nat (length recent)) then tail recent else recent.

(** [xs.slice(-3)] *)
Definition lastThree {A} (xs : list A) : list A :=
  skipn (length xs - 3) xs.

Section Loop.
Variables (incomeModel expenseModel : Model).
Variables (maxIncome maxExpense : num) (minYear maxYear : Z).

(** One iteration of the projection loop. *)
Definition projectStep (st : ProjectorState) : ProjectorState :=
  let '(currentYear, currentMonth) := advance (currentYear st) (currentMonth st) in
  let monthKey := monthKeyOf currentYear currentMonth in
  let normalizedMonth := div (ofZ currentMonth) (ofZ 12) in
  let yearRange := yearRangeOf minYear maxYear in
  let normalizedYear := div (ofZ (currentYear - minYear)) (ofZ yearRange) in
  let normalizedMovingAvgIncome :=
    normalizedRecentAvg (recentIncomes st) maxIncome in
  let normalizedMovingAvgExpense :=
    normalizedRecentAvg (recentExpenses st) maxExpense in
  let featureVector :=
    [normalizedMonth; normalizedYear;
     normalizedMovingAvgIncome; normalizedMovingAvgExpense] in
  let projectedIncome := mul (incomeModel featureVector) maxIncome in
  let projectedExpenses := mul (expenseModel featureVector) maxExpense in
  {| currentYear := currentYear;
     currentMonth := currentMonth;
     recentIncomes := pushRecent (recentIncomes st) projectedIncome;
     recentExpenses := pushRecent (recentExpenses st) projectedExpenses;
     projected :=
       projected st ++
       [{| p_monthKey := monthKey;
           projectedIncome := projectedIncome;
           projectedExpenses := projectedExpenses |}] |}.

(** [for (let i = 0; i < numMonths; i++)] *)
Fixpoint projectLoop (numMonths : nat) (st : ProjectorState) : ProjectorState :=
  match numMonths with
  | O => st
  | S n => projectLoop n (projectStep st)
  end.

Definition generateProjections (monthlyData : list (MonthlyData num))
  (numMonths : nat) : outcome (list (ProjectedMonthlyData num)) :=
  match last monthlyData with
  | None =>
      Throws (JsError "TypeError"
                "Cannot read properties of undefined (reading 'year')")
  | Some lastMonth =>
      let st :=
        {| currentYear := year lastMonth;
           currentMonth := month lastMonth;
           recentIncomes := map totalIncome (lastThree monthlyData);
           recentExpenses := map totalExpenses (lastThree monthlyData);
           projected := [] |} in
      Returns (projected (projectLoop numMonths st))
  end.
End Loop.
End Projector.

(** Three months of history ending in November 2024, in doubles. *)
Definition autumnHistory : list (MonthlyData float) :=
  [ sampleMonth 2024 9 1000%float 800%float 3;
    sampleMonth 2024 10 1000%float 900%float 3;
    sampleMonth 2024 11 1200%float 800%float 3 ].

(** A stand-in for a trained model: half the third feature plus a quarter. *)
Definition sampleModel : Model (num := float) := fun v =>
  match v with
  | [_; _; c; _] => (c * 0.5 + 0.25)%float
  | _ => nan
  end.

(** ** Record Parser *)

(** White space in the sense of [trim] and [parseFloat] (the WhiteSpace
    and LineTerminator characters of the language), as it stands in the
    UTF-8 bytes of a text. On one byte: tab, line feed, vertical tab, form
    feed, carriage return and space. *)
Definition isWhiteSpace (c : ascii) : bool :=
  let n := nat_of_ascii c in
  ((9 <=? n) && (n <=? 13))%nat || (n =? 32)%nat.

(** On two bytes: U+00A0, the no-break space. *)
Definition isWhiteSpace2 (c1 c2 : ascii) : bool :=
  ((nat_of_ascii c1 =? 194) && (nat_of_ascii c2 =? 160))%nat.

(** On three bytes: U+1680, U+2000 to U+200A, the line and paragraph
    separators U+2028 and U+2029, U+202F, U+205F, U+3000 and the byte
    order mark U+FEFF. *)
Definition isWhiteSpace3 (c1 c2 c3 : ascii) : bool :=
  let n1 := nat_of_ascii c1 in
  let n2 := nat_of_ascii c2 in
  let n3 := nat_of_ascii c3 in
  (((n1 =? 225) && (n2 =? 154) && (n3 =? 128))
   || ((n1 =? 226) && (n2 =? 128)
       && (((128 <=? n3) && (n3 <=? 138)) || (n3 =? 168) || (n3 =? 169)
           || (n3 =? 175)))
   || ((n1 =? 226) && (n2 =? 129) && (n3 =? 159))
   || ((n1 =? 227) && (n2 =? 128) && (n3 =? 128))
   || ((n1 =? 239) && (n2 =? 187) && (n3 =? 191)))%nat.

(** [s.trimStart()] *)
Fixpoint trimStart (s : string) : string :=
  match s with
  | EmptyString => EmptyString
  | String c1 s1 =>
      if isWhiteSpace c1 then trimStart s1
      else
        match s1 with
        | String c2 s2 =>
            if isWhiteSpace2 c1 c2 then trimStart s2
            else
              match s2 with
              | String c3 s3 => if isWhiteSpace3 c1 c2 c3 then trimStart s3 else s
              | EmptyString => s
              end
        | EmptyString => s
        end
  end.

(** The same from the end, on the bytes in reverse order ([c1] is the
    last byte). *)
Fixpoint trimStartReversed (s : string) : string :=
  match s with
  | EmptyString => EmptyString
  | String c1 s1 =>
      if isWhiteSpace c1 then trimStartReversed s1
      else
        match s1 with
        | String c2 s2 =>
            if isWhiteSpace2 c2 c1 then trimStartReversed s2
            else
              match s2 with
              | String c3 s3 =>
                  if isWhiteSpace3 c3 c2 c1 then trimStartReversed s3 else s
              | EmptyString => s
              end
        | EmptyString => s
        end
  end.

(** [s.trimEnd()] *)
Definition trimEnd (s : string) : string :=
  String.rev (trimStartReversed (String.rev s)).

(** [s.trim()] *)
Definition trim (s : string) : string := trimEnd (trimStart s).

Definition isDigit (c : ascii) : bool :=
  let n := nat_of_ascii c in ((48 <=? n) && (n <=? 57))%nat.

(** The longest prefix of decimal digits, and what follows it. *)
Fixpoint spanDigits (s : string) : string * string :=
  match s with
  | EmptyString => (EmptyString, EmptyString)
  | String c s' =>
      if isDigit c then let '(ds, rest) := spanDigits s' in (String c ds, rest)
      else (EmptyString, s)
  end.

Definition dropPrefix (p s : string) : option string :=
  if String.prefix p s
  then Some (String.substring (String.length p) (String.length s - String.length p) s)
  else None.

(** A decimal literal as [parseFloat] reads it. *)
Inductive decimalLiteral : Type :=
| LitInfinity (negative : bool)
| LitDecimal (negative : bool) (intDigits fracDigits : string) (exponent : Z).

(** [[+-]] in front of a literal. *)
Definition scanSign (s : string) : bool * string :=
  match s with
  | String "-" s' => (true, s')
  | String "+" s' => (false, s')
  | _ => (false, s)
  end.

(** The exponent part [[eE][+-]?digits], when there is a complete one. *)
Definition scanExponent (s : string) : Z :=
  match s with
  | String c s' =>
      if (Ascii.eqb c "e" || Ascii.eqb c "E")%bool then
        let '(neg, s'') := scanSign s' in
        match spanDigits s'' with
        | (EmptyString, _) => 0
        | (ds, _) =>
            match digitsValue ds with
            | Some e => if neg then - e else e
            | None => 0
            end
        end
      else 0
  | EmptyString => 0
  end.

(** The longest prefix of [s], leading white space skipped, that is a
    [StrDecimalLiteral]; [None] when there is none. *)
Definition scanDecimalLiteral (s : string) : option decimalLiteral :=
  let '(neg, s1) := scanSign (trimStart s) in
  match dropPrefix "Infinity" s1 with
  | Some _ => Some (LitInfinity neg)
  | None =>
      let '(intDigits, s2) := spanDigits s1 in
      match s2 with
      | String "." s3 =>
          let '(fracDigits, s4) := spanDigits s3 in
          match intDigits, fracDigits with
          | EmptyString, EmptyString => None
          | _, _ => Some (LitDecimal neg intDigits fracDigits (scanExponent s4))
          end
      | _ =>
          match intDigits with
          | EmptyString => None
          | _ => Some (LitDecimal neg intDigits EmptyString (scanExponent s2))
          end
      end
  end.

(** The built-in [parseFloat], per arithmetic. *)
Class ParseFloat (num : Type) : Type := parseFloat : string -> num.

(** The double a decimal literal denotes: the nearest one, ties to even. *)
Definition f64OfLiteral (l : decimalLiteral) : float :=
  match l with
  | LitInfinity neg => if neg then neg_infinity else infinity
  | LitDecimal neg intDigits fracDigits exponent =>
      match digitsValue (intDigits +:+ fracDigits) with
      | Some mantissa =>
          let e := exponent - Z.of_nat (String.length fracDigits) in
          if 0 <=? e then F64.fromRatio neg (mantissa * 10 ^ e) 1
          else F64.fromRatio neg mantissa (Z.to_pos (10 ^ (- e)))
      | None => nan
      end
  end.

#[global] Instance f64_parseFloat : ParseFloat float := fun s =>
  match scanDecimalLiteral s with
  | Some l => f64OfLiteral l
  | None => nan
  end.

Section RecordParser.
Context {num : Type} `{ParseFloat num}.

(** The object built by [headers.forEach]: a later column of the same name
    overwrites an earlier one. The map holds the own properties the
    assignments create; it agrees with the object on the fourteen names
    that [typedTxn] reads ([columnNames]), none of which is inherited from
    [Object.prototype] or is [__proto__], the one header whose assignment
    creates no property. *)
Definition rowObject (headers values : list string) : gmap string string :=
  foldl (fun transaction '(header, val) => <[header := val]> transaction)
    ∅ (zip headers values).

(** [transaction.f !== "" ? transaction.f : fallback]; a missing property is
    [undefined], which is not the empty string. *)
Definition fieldOr (fallback : string) (transaction : gmap string string)
  (f : string) : option string :=
  match transaction !! f with
  | Some EmptyString => Some fallback
  | other => other
  end.

(** [parseFloat(x)] on a value that may be [undefined]. *)
Definition parseFloatValue (x : option string) : num :=
  match x with
  | Some s => parseFloat s
  | None => parseFloat "undefined"
  end.

Definition typedTxn (transaction : gmap string string) : CSVTransaction num :=
  {| id_ := fieldOr "" transaction "id";
     date := fieldOr "" transaction "date";
     type := fieldOr "expense" transaction "type";
     category := fieldOr "" transaction "category";
     description := fieldOr "" transaction "description";
     amount := parseFloatValue (fieldOr "0" transaction "amount");
     currency := fieldOr "" transaction "currency";
     merchantId := fieldOr "" transaction "merchantId";
     merchantName := fieldOr "" transaction "merchantName";
     mcc := fieldOr "" transaction "mcc";
     isRecurring := fieldOr "" transaction "isRecurring";
     essentiality := fieldOr "" transaction "essentiality";
     labelRecurring := fieldOr "" transaction "labelRecurring";
     labelEssential := fieldOr "" transaction "labelEssential" |}.

(** The body of the loop over the data lines. *)
Fixpoint parseLines (headers : list string) (lines : list string)
  : list (CSVTransaction num) :=
  match lines with
  | [] => []
  | line :: rest =>
      let values := split "," line in
      if negb (length values =? length headers)%nat then parseLines headers rest
      else typedTxn (rowObject headers values) :: parseLines headers rest
  end.

Definition parseCSV (csvText : string) : list (CSVTransaction num) :=
  match split "010" (trim csvText) with
  | [] => []
  | first :: dataLines => parseLines (split "," first) dataLines
  end.

(** *** The parser statement by statement

    The same function with its array reads as the source has them:
    [lines[0]] and [lines[i]] are element reads, [undefined] outside the
    array, and [.split(",")] on [undefined] throws a [TypeError]. *)

(** [line.split(",")] on an element that may be [undefined]. *)
Definition splitFields (line : option string) : outcome (list string) :=
  match line with
  | Some l => Returns (split "," l)
  | None =>
      Throws (JsError "TypeError"
                "Cannot read properties of undefined (reading 'split')")
  end.

(** [for (let i = ...; i < lines.length; i++)]: the [n] iterations that
    are left at index [i], with the records pushed so far. *)
Fixpoint parseFrom (lines headers : list string) (i n : nat)
  (transactions : list (CSVTransaction num)) : outcome (list (CSVTransaction num)) :=
  match n with
  | O => Returns transactions
  | S n' =>
      values ← splitFields (lines !! i);
      if negb (length values =? length headers)%nat
      then parseFrom lines headers (S i) n' transactions
      else parseFrom lines headers (S i) n'
             (transactions ++ [typedTxn (rowObject headers values)])
  end.

Definition parseCSVStatements (csvText : string)
  : outcome (list (CSVTransaction num)) :=
  let lines := split "010" (trim csvText) in
  headers ← splitFields (lines !! 0%nat);
  parseFrom lines headers 1 (length lines - 1) [].
End RecordParser.

(** An amount written after a no-break space (U+00A0), and a file that
    starts with a byte order mark (U+FEFF) and ends in a line separator
    (U+2028). *)
Definition noBreakSpace : string :=
  String (ascii_of_nat 194) (String (ascii_of_nat 160) EmptyString).

Definition byteOrderMark : string :=
  String (ascii_of_nat 239) (String (ascii_of_nat 187)
    (String (ascii_of_nat 191) EmptyString)).

Definition lineSeparator : string :=
  String (ascii_of_nat 226) (String (ascii_of_nat 128)
    (String (ascii_of_nat 168) EmptyString)).

(** The header line of the data file. *)
Definition csvHeader : string :=
  "id,date,type,category,description,amount,currency,merchantId,merchantName,mcc,isRecurring,essentiality,labelRecurring,labelEssential".

Definition newline : string := String "010" EmptyString.

(** A file with four data lines: a well-formed one, one with an amount that
    is no number, one with empty type and amount, and one short line. *)
Definition sampleCsv : string :=
  csvHeader +:+ newline
  +:+ "t1,2024-01-05,income,salary,pay,1200.50,GBP,m1,Acme,6011,true,high,1,1" +:+ newline
  +:+ "t2,2024-01-09,expense,food,lunch,n/a,GBP,m2,Cafe,5812,false,low,0,0" +:+ newline
  +:+ "t3,2024-01-11,,misc,,,GBP,,,,,,," +:+ newline
  +:+ "t4,2024-01-12,expense" +:+ newline.

(** ** The world outside the pipeline *)

(** A line written by [console.error]: the text and the thrown value. *)
Inductive logEntry : Type :=
| ErrorLine (message : string) (thrown : exn).

(** The browser state the module touches. [console.debug] traces are not
    recorded. *)
Record World : Type := {
  storage : option (gmap string string);  (* localStorage; [None]: access is denied *)
  quota : Z;                              (* characters localStorage may hold *)
  console : list logEntry
}.

(** A computation in the world: it ends as an [outcome] and leaves a world. *)
Definition M (A : Type) : Type := World -> outcome A * World.

#[global] Instance M_ret : MRet M := fun _ a w => (Returns a, w).
#[global] Instance M_bind : MBind M := fun _ _ f c w =>
  match c w with
  | (Returns a, w') => f a w'
  | (Throws e, w') => (Throws e, w')
  | (Beyond, w') => (Beyond, w')
  end.

(** [throw e] *)
Definition throw {A : Type} (e : exn) : M A := fun w => (Throws e, w).

(** A pure step that may throw. *)
Definition lift {A : Type} (c : outcome A) : M A := fun w => (c, w).

(** [try { body } catch (error) { handler }] *)
Definition tryCatch {A : Type} (body : M A) (handler : exn -> M A) : M A :=
  fun w =>
    match body w with
    | (Throws e, w') => handler e w'
    | done => done
    end.

(** [console.error(message, error)] *)
Definition consoleError (message : string) (error : exn) : M unit :=
  fun w =>
    (Returns tt,
     {| storage := storage w; quota := quota w;
        console := console w ++ [ErrorLine message error] |}).

(** A promise once settled. *)
Inductive promise (A : Type) : Type :=
| Resolved (a : A)
| Rejected (e : exn).
Arguments Resolved {A} a.
Arguments Rejected {A} e.

(** [await p] *)
Definition await {A : Type} (p : promise A) : M A :=
  fun w =>
    match p with
    | Resolved a => (Returns a, w)
    | Rejected e => (Throws e, w)
    end.

(** What [fetch] resolves to. *)
Record Response : Type := {
  ok : bool;
  statusText : string;
  text : promise string
}.

Section Loading.
Context {num : Type} `{Arith num} `{ParseFloat num}.

(** What the module asks of its environment: the network, the collation
    of the locale, the clock, and the two networks as they come out of
    training (the [n]-th model built, fitted to features and labels). *)
Record Env : Type := {
  fetch : string -> promise Response;
  localeCompare : string -> string -> Z;
  now : string;
  fitted : nat -> list (list num) -> list num -> Model (num := num)
}.

Definition loadCSVFile (env : Env) (fileName : string) : M (list (CSVTransaction num)) :=
  tryCatch
    (response ← await (fetch env ("/data/" +:+ fileName));
     _ ← (if negb (ok response)
          then throw (JsError "Error"
                        ("Failed to load " +:+ fileName +:+ ": " +:+ statusText response))
          else mret tt);
     csvText ← await (text response);
     mret (parseCSV csvText))
    (fun error =>
       _ ← consoleError ("Error loading CSV file " +:+ fileName +:+ ":") error;
       throw error).

Definition seedFile : string := "seedTransactions_1year_13000_labeled.csv".

Record HistoricalYearlyData : Type := {
  y_year : string;
  income : num;
  expenses : num
}.

(** [txn.date.split("-")[0]] *)
Definition yearOf (txn : CSVTransaction num) : outcome string :=
  match date txn with
  | None =>
      Throws (JsError "TypeError"
                "Cannot read properties of undefined (reading 'split')")
  | Some d => Returns (hd EmptyString (split "-" d))
  end.

Definition yearlyAccount (txn : CSVTransaction num) (data : num * num) : num * num :=
  if isIncome txn then (add (fst data) (amount txn), snd data)
  else (fst data, add (snd data) (amount txn)).

(** One iteration of the loop over the filtered records. *)
Definition yearlyStep (yearMap : list (string * (num * num)))
  (txn : CSVTransaction num) : outcome (list (string * (num * num))) :=
  y ← yearOf txn;
  let yearMap :=
    if mapHas y yearMap then yearMap else yearMap ++ [(y, (ofZ 0, ofZ 0))] in
  mret (mapModify y (yearlyAccount txn) yearMap).

Definition loadHistoricalYearlyData (env : Env) (cur : string)
  : M (list HistoricalYearlyData) :=
  tryCatch
    (transactions ← loadCSVFile env seedFile;
     let filtered := filterByCurrency transactions cur in
     yearMap ← lift (forOf yearlyStep filtered []);
     mret (sortBy (fun a b => localeCompare env (y_year a) (y_year b))
             (map (fun '(y, data) =>
                     {| y_year := y; income := fst data; expenses := snd data |})
                yearMap)))
    (fun error =>
       _ ← consoleError "[Projections] Failed to load historical data:" error;
       mret []).
End Loading.
Arguments Env num : clear implicits.
Arguments HistoricalYearlyData num : clear implicits.

(** A world with an empty, roomy localStorage. *)
Definition freshWorld : World :=
  {| storage := Some ∅; quota := 5000000; console := [] |}.

(** Byte-wise comparison, standing in for the locale's collation. *)
Definition byteCompare (a b : string) : Z :=
  match String.compare a b with
  | Lt => -1
  | Eq => 0
  | Gt => 1
  end.

(** An environment serving [body] for every file, with the sample model for
    both targets. *)
Definition servingEnv (body : string) : Env float :=
  {| fetch := fun _ =>
       Resolved {| ok := true; statusText := "OK"; text := Resolved body |};
     localeCompare := byteCompare;
     now := "2025-01-15T09:30:00.000Z";
     fitted := fun _ _ _ => sampleModel |}.

(** An environment whose server answers 404. *)
Definition missingFileEnv : Env float :=
  {| fetch := fun _ =>
       Resolved {| ok := false; statusText := "Not Found";
                   text := Resolved "<html>not found</html>" |};
     localeCompare := byteCompare;
     now := "2025-01-15T09:30:00.000Z";
     fitted := fun _ _ _ => sampleModel |}.

(** An environment without network. *)
Definition offlineEnv : Env float :=
  {| fetch := fun _ => Rejected (JsError "TypeError" "Failed to fetch");
     localeCompare := byteCompare;
     now := "2025-01-15T09:30:00.000Z";
     fitted := fun _ _ _ => sampleModel |}.

(** A file without a date column: its records have an undefined date. *)
Definition undatedCsv : string :=
  "id,currency,amount" +:+ newline +:+ "t1,GBP,12.50".

(** The fields of the header line and of the sample file's second and third
    data lines. *)
Definition sampleHeaders : list string := split "," csvHeader.

Definition unparsableRow : list string :=
  split "," "t2,2024-01-09,expense,food,lunch,n/a,GBP,m2,Cafe,5812,false,low,0,0".

Definition blankRow : list string :=
  split "," "t3,2024-01-11,,misc,,,GBP,,,,,,,".

(** The lines of a file that have as many fields as its header. *)
Definition matchingLines (headers : list string) (lines : list string) : list string :=
  List.filter (fun line => (length (split "," line) =? length headers)%nat) lines.

(** ** JSON

    The values [JSON.parse] produces and [JSON.stringify] consumes, over
    the strings of this development (bytes). *)

(** The number-to-text and text-to-number conversions of the language. *)
Class NumberText (num : Type) : Type := {
  isFinite : num -> bool;            (* Number.isFinite(x) *)
  numberToString : num -> string;    (* String(x) *)
  stringToNumber : string -> num     (* Number(token), on a JSON number *)
}.

Section Json.
Context {num : Type} `{NumberText num}.

Inductive json : Type :=
| JNull
| JBool (b : bool)
| JNumber (n : num)
| JString (s : string)
| JArray (items : list json)
| JObject (members : list (string * json)).

(** The double quote. *)
Definition dquote : ascii := "034"%char.

Definition hexDigit (n : nat) : ascii :=
  ascii_of_nat (if (n <? 10)%nat then 48 + n else 87 + n).

(** The text of one character inside a JSON string. *)
Definition escapeChar (c : ascii) : string :=
  let n := nat_of_ascii c in
  if Ascii.eqb c dquote then String "\" (String dquote EmptyString)
  else if Ascii.eqb c "\" then "\\"
  else if (n =? 8)%nat then "\b"
  else if (n =? 9)%nat then "\t"
  else if (n =? 10)%nat then "\n"
  else if (n =? 12)%nat then "\f"
  else if (n =? 13)%nat then "\r"
  else if (n <? 32)%nat
       then "\u00" +:+ String (hexDigit (n / 16)) (String (hexDigit (n mod 16)) EmptyString)
  else String c EmptyString.

Fixpoint escapeString (s : string) : string :=
  match s with
  | EmptyString => EmptyString
  | String c s' => escapeChar c +:+ escapeString s'
  end.

Definition quoteString (s : string) : string :=
  String dquote (escapeString s +:+ String dquote EmptyString).

Fixpoint commaSep (parts : list string) : string :=
  match parts with
  | [] => EmptyString
  | [p] => p
  | p :: rest => p +:+ "," +:+ commaSep rest
  end.

(** [JSON.stringify(value)] without indentation. *)
Fixpoint JSON_stringify (value : json) : string :=
  match value with
  | JNull => "null"
  | JBool true => "true"
  | JBool false => "false"
  | JNumber n => if isFinite n then numberToString n else "null"
  | JString s => quoteString s
  | JArray items => "[" +:+ commaSep (map JSON_stringify items) +:+ "]"
  | JObject members =>
      "{" +:+ commaSep (map (fun kv => quoteString (fst kv) +:+ ":" +:+ JSON_stringify (snd kv))
                          members) +:+ "}"
  end.

(** JSON white space: space, tab, line feed, carriage return. *)
Definition isJsonSpace (c : ascii) : bool :=
  let n := nat_of_ascii c in
  (n =? 32)%nat || (n =? 9)%nat || (n =? 10)%nat || (n =? 13)%nat.

Fixpoint skipSpace (s : string) : string :=
  match s with
  | EmptyString => EmptyString
  | String c s' => if isJsonSpace c then skipSpace s' else s
  end.

Definition hexValue (c : ascii) : option nat :=
  let n := nat_of_ascii c in
  if ((48 <=? n) && (n <=? 57))%nat then Some (n - 48)%nat
  else if ((97 <=? n) && (n <=? 102))%nat then Some (n - 87)%nat
  else if ((65 <=? n) && (n <=? 70))%nat then Some (n - 55)%nat
  else None.

(** The bytes (UTF-8) of a sixteen-bit code unit. *)
Definition codeUnitBytes (code : nat) : string :=
  if (code <? 128)%nat then String (ascii_of_nat code) EmptyString
  else if (code <? 2048)%nat then
    String (ascii_of_nat (192 + code / 64))
      (String (ascii_of_nat (128 + code mod 64)) EmptyString)
  else
    String (ascii_of_nat (224 + code / 4096))
      (String (ascii_of_nat (128 + (code / 64) mod 64))
         (String (ascii_of_nat (128 + code mod 64)) EmptyString)).

(** The character a one-letter escape stands for. *)
Definition simpleEscape (e : ascii) : option ascii :=
  if Ascii.eqb e dquote then Some dquote
  else if Ascii.eqb e "\" then Some "\"%char
  else if Ascii.eqb e "/" then Some "/"%char
  else if Ascii.eqb e "b" then Some (ascii_of_nat 8)
  else if Ascii.eqb e "t" then Some (ascii_of_nat 9)
  else if Ascii.eqb e "n" then Some (ascii_of_nat 10)
  else if Ascii.eqb e "f" then Some (ascii_of_nat 12)
  else if Ascii.eqb e "r" then Some (ascii_of_nat 13)
  else None.

(** A string literal after its opening quote: its value and what follows
    the closing quote. *)
Fixpoint parseStringBody (s : string) : option (string * string) :=
  match s with
  | EmptyString => None
  | String c r =>
      if Ascii.eqb c dquote then Some (EmptyString, r)
      else if Ascii.eqb c "\" then
        match r with
        | String e r1 =>
            if Ascii.eqb e "u" then
              match r1 with
              | String h1 (String h2 (String h3 (String h4 r2))) =>
                  match hexValue h1, hexValue h2, hexValue h3, hexValue h4 with
                  | Some a, Some b, Some c', Some d =>
                      match parseStringBody r2 with
                      | Some (body, rest) =>
                          Some (codeUnitBytes (((a * 16 + b) * 16 + c') * 16 + d) +:+ body,
                                rest)
                      | None => None
                      end
                  | _, _, _, _ => None
                  end
              | _ => None
              end
            else
              match simpleEscape e with
              | Some c' =>
                  match parseStringBody r1 with
                  | Some (body, rest) => Some (String c' body, rest)
                  | None => None
                  end
              | None => None
              end
        | EmptyString => None
        end
      else if (nat_of_ascii c <? 32)%nat then None
      else
        match parseStringBody r with
        | Some (body, rest) => Some (String c body, rest)
        | None => None
        end
  end.

Definition isNumberChar (c : ascii) : bool :=
  isDigit c || Ascii.eqb c "-" || Ascii.eqb c "+" || Ascii.eqb c "."
  || Ascii.eqb c "e" || Ascii.eqb c "E".

(** The longest prefix made of the characters of numbers. *)
Fixpoint spanNumber (s : string) : string * string :=
  match s with
  | EmptyString => (EmptyString, EmptyString)
  | String c s' =>
      if isNumberChar c then let '(tok, rest) := spanNumber s' in (String c tok, rest)
      else (EmptyString, s)
  end.

(** The grammar of a JSON number,
    [-? (0 | [1-9] digits) (. digits+)? ([eE] [+-]? digits+)?], as an
    automaton. *)
Inductive numberState : Type :=
| NStart | NMinus | NZero | NInt | NDot | NFrac | NExp | NExpSign | NExpDigits.

Definition numberStep (st : numberState) (c : ascii) : option numberState :=
  let digit := isDigit c in
  let zero := Ascii.eqb c "0" in
  let dot := Ascii.eqb c "." in
  let exp := (Ascii.eqb c "e" || Ascii.eqb c "E")%bool in
  let sign := (Ascii.eqb c "-" || Ascii.eqb c "+")%bool in
  match st with
  | NStart =>
      if Ascii.eqb c "-" then Some NMinus
      else if zero then Some NZero else if digit then Some NInt else None
  | NMinus => if zero then Some NZero else if digit then Some NInt else None
  | NZero => if dot then Some NDot else if exp then Some NExp else None
  | NInt =>
      if digit then Some NInt
      else if dot then Some NDot else if exp then Some NExp else None
  | NDot => if digit then Some NFrac else None
  | NFrac => if digit then Some NFrac else if exp then Some NExp else None
  | NExp => if digit then Some NExpDigits else if sign then Some NExpSign else None
  | NExpSign => if digit then Some NExpDigits else None
  | NExpDigits => if digit then Some NExpDigits else None
  end.

Definition numberAccepts (st : numberState) : bool :=
  match st with
  | NZero | NInt | NFrac | NExpDigits => true
  | _ => false
  end.

Fixpoint numberRun (st : numberState) (tok : string) : bool :=
  match tok with
  | EmptyString => numberAccepts st
  | String c r =>
      match numberStep st c with
      | Some st' => numberRun st' r
      | None => false
      end
  end.

Definition validJsonNumber (tok : string) : bool := numberRun NStart tok.

(** [s] without the prefix [p], when it starts with it. *)
Fixpoint stripPrefix (p s : string) : option string :=
  match p with
  | EmptyString => Some s
  | String a p' =>
      match s with
      | String b s' => if Ascii.eqb a b then stripPrefix p' s' else None
      | EmptyString => None
      end
  end.

(** [obj[k] = v] on the members in insertion order. *)
Definition setMember (members : list (string * json)) (kv : string * json)
  : list (string * json) :=
  if mapHas (fst kv) members then mapModify (fst kv) (fun _ => snd kv) members
  else members ++ [kv].

(** A value, the items of a non-empty array after its bracket, and the
    members of a non-empty object after its brace; [fuel] bounds the nesting
    and the number of items. *)
Fixpoint parseValue (fuel : nat) (s : string) : option (json * string) :=
  match fuel with
  | O => None
  | S fuel' =>
      match skipSpace s with
      | EmptyString => None
      | String c r =>
          if Ascii.eqb c "{" then
            match stripPrefix "}" (skipSpace r) with
            | Some r' => Some (JObject [], r')
            | None =>
                match parseMembers fuel' r with
                | Some (members, rest) => Some (JObject (foldl setMember [] members), rest)
                | None => None
                end
            end
          else if Ascii.eqb c "[" then
            match stripPrefix "]" (skipSpace r) with
            | Some r' => Some (JArray [], r')
            | None =>
                match parseItems fuel' r with
                | Some (items, rest) => Some (JArray items, rest)
                | None => None
                end
            end
          else if Ascii.eqb c dquote then
            match parseStringBody r with
            | Some (body, rest) => Some (JString body, rest)
            | None => None
            end
          else if (isDigit c || Ascii.eqb c "-")%bool then
            let '(tok, rest) := spanNumber (String c r) in
            if validJsonNumber tok then Some (JNumber (stringToNumber tok), rest)
            else None
          else
            match stripPrefix "true" (String c r) with
            | Some rest => Some (JBool true, rest)
            | None =>
                match stripPrefix "false" (String c r) with
                | Some rest => Some (JBool false, rest)
                | None =>
                    match stripPrefix "null" (String c r) with
                    | Some rest => Some (JNull, rest)
                    | None => None
                    end
                end
            end
      end
  end
with parseItems (fuel : nat) (s : string) : option (list json * string) :=
  match fuel with
  | O => None
  | S fuel' =>
      match parseValue fuel' s with
      | Some (v, r1) =>
          match skipSpace r1 with
          | String c r2 =>
              if Ascii.eqb c "," then
                match parseItems fuel' r2 with
                | Some (vs, r3) => Some (v :: vs, r3)
                | None => None
                end
              else if Ascii.eqb c "]" then Some ([v], r2)
              else None
          | EmptyString => None
          end
      | None => None
      end
  end
with parseMembers (fuel : nat) (s : string) : option (list (string * json) * string) :=
  match fuel with
  | O => None
  | S fuel' =>
      match stripPrefix (String dquote EmptyString) (skipSpace s) with
      | Some r =>
          match parseStringBody r with
          | Some (k, r1) =>
              match stripPrefix ":" (skipSpace r1) with
              | Some r2 =>
                  match parseValue fuel' r2 with
                  | Some (v, r3) =>
                      match skipSpace r3 with
                      | String c r4 =>
                          if Ascii.eqb c "," then
                            match parseMembers fuel' r4 with
                            | Some (ms, r5) => Some ((k, v) :: ms, r5)
                            | None => None
                            end
                          else if Ascii.eqb c "}" then Some ([(k, v)], r4)
                          else None
                      | EmptyString => None
                      end
                  | None => None
                  end
              | None => None
              end
          | None => None
          end
      | None => None
      end
  end.

(** [JSON.parse(text)] *)
Definition JSON_parse (text : string) : outcome json :=
  match parseValue (S (String.length text)) text with
  | Some (v, rest) =>
      match skipSpace rest with
      | EmptyString => Returns v
      | _ => Throws (JsError "SyntaxError" "Unexpected non-whitespace character after JSON")
      end
  | None => Throws (JsError "SyntaxError" "Unexpected token in JSON")
  end.
End Json.
Arguments json num : clear implicits.

(** *** Doubles as text: [Number.prototype.toString] and back *)

Module F64Text.
(** [m * 2^e / 10^q] as a fraction of two positive integers. *)
Definition scaled (m e q : Z) : Z * Z :=
  (m * 2 ^ Z.max e 0 * 10 ^ Z.max (- q) 0, 2 ^ Z.max (- e) 0 * 10 ^ Z.max q 0).

(** The double nearest to [s * 10^q]. *)
Definition ofDecimal (s q : Z) : float :=
  if 0 <=? q then F64.fromRatio false (s * 10 ^ q) 1
  else F64.fromRatio false s (Z.to_pos (10 ^ (- q))).

(** The least [n], from [start] on, with [m * 2^e < 10^n]. *)
Fixpoint decimalExponent (fuel : nat) (m e start : Z) : Z :=
  match fuel with
  | O => start
  | S fuel' =>
      let '(numerator, denominator) := scaled m e start in
      if numerator <? denominator then start
      else decimalExponent fuel' m e (start + 1)
  end.

(** The [k]-digit integer [s] nearest to [x / 10^(n-k)] for which
    [s * 10^(n-k)] reads back as [x], when there is one. *)
Definition candidate (x : float) (m e n k : Z) : option Z :=
  let '(numerator, denominator) := scaled m e (n - k) in
  let lo := numerator / denominator in
  let r := numerator mod denominator in
  let hi := lo + 1 in
  let okLo := PrimFloat.eqb (ofDecimal lo (n - k)) x in
  let okHi := PrimFloat.eqb (ofDecimal hi (n - k)) x in
  let preferLo :=
    match 2 * r ?= denominator with
    | Lt => true
    | Gt => false
    | Eq => Z.even lo
    end in
  if preferLo then (if okLo then Some lo else if okHi then Some hi else None)
  else (if okHi then Some hi else if okLo then Some lo else None).

(** The shortest such integer, trying [k], [k + 1], ... *)
Fixpoint shortest (fuel : nat) (x : float) (m e n k : Z) : option (Z * Z) :=
  match fuel with
  | O => None
  | S fuel' =>
      match candidate x m e n k with
      | Some s => Some (s, k)
      | None => shortest fuel' x m e n (k + 1)
      end
  end.

Fixpoint stripZeros (reversed : string) : string :=
  match reversed with
  | String "0" r => stripZeros r
  | _ => reversed
  end.

Fixpoint rev (s : string) (acc : string) : string :=
  match s with
  | EmptyString => acc
  | String c r => rev r (String c acc)
  end.

Definition zeros (n : Z) : string := replicate_char (Z.to_nat n) "0".

(** The digits [d] (without trailing zeros) and the exponent [n] with
    [x = 0.d * 10^n], for a positive finite [x = m * 2^e]. *)
Definition digitsAndExponent (x : float) (m e : Z) : string * Z :=
  let estimate := ((Z.log2 m + 1 + e) * 1233) / 4096 in
  let n := decimalExponent 6 m e (estimate - 2) in
  match shortest 17 x m e n 1 with
  | Some (s, k) =>
      let ds := showZ s in
      (rev (stripZeros (rev ds EmptyString)) EmptyString,
       n + (Z.of_nat (String.length ds) - k))
  | None => ("0", 1)
  end.

(** The layout rules of [Number::toString]. *)
Definition layout (d : string) (n : Z) : string :=
  let k := Z.of_nat (String.length d) in
  if (k <=? n) && (n <=? 21) then d +:+ zeros (n - k)
  else if (0 <? n) && (n <=? 21) then
    String.substring 0 (Z.to_nat n) d +:+ "."
    +:+ String.substring (Z.to_nat n) (Z.to_nat (k - n)) d
  else if (-6 <? n) && (n <=? 0) then "0." +:+ zeros (- n) +:+ d
  else
    let e := n - 1 in
    let exponent := (if 0 <=? e then "+" else "-") +:+ showZ (Z.abs e) in
    if k =? 1 then d +:+ "e" +:+ exponent
    else String.substring 0 1 d +:+ "." +:+ String.substring 1 (Z.to_nat (k - 1)) d
         +:+ "e" +:+ exponent.

Definition toString (x : float) : string :=
  match Prim2SF x with
  | S754_nan => "NaN"
  | S754_zero _ => "0"
  | S754_infinity negative => if negative then "-Infinity" else "Infinity"
  | S754_finite negative m e =>
      let '(d, n) := digitsAndExponent (abs x) (Zpos m) e in
      (if negative then "-" else "") +:+ layout d n
  end.

#[global] Instance text : NumberText float := {|
  isFinite := PrimFloat.is_finite;
  numberToString := toString;
  stringToNumber := parseFloat
|}.
End F64Text.

(** ** Result Store *)

Definition storageSize (items : gmap string string) : Z :=
  map_fold (fun k v acc => acc + Z.of_nat (String.length k + String.length v)) 0 items.

(** [localStorage.setItem(key, value)] *)
Definition setItem (key value : string) : M unit := fun w =>
  match storage w with
  | None => (Throws (JsError "SecurityError" "The operation is insecure."), w)
  | Some items =>
      let items' := <[key := value]> items in
      if storageSize items' <=? quota w
      then (Returns tt, {| storage := Some items'; quota := quota w; console := console w |})
      else (Throws (JsError "QuotaExceededError" "The quota has been exceeded."), w)
  end.

(** [localStorage.getItem(key)]; [None] is [null]. *)
Definition getItem (key : string) : M (option string) := fun w =>
  match storage w with
  | None => (Throws (JsError "SecurityError" "The operation is insecure."), w)
  | Some items => (Returns (items !! key), w)
  end.

Definition storageKey : string := "finance-projections".

Section ResultStore.
Context {num : Type} `{Arith num} `{NumberText num}.

(** A projected month and a projection result as JavaScript values. *)
Definition valueOfProjection (p : ProjectedMonthlyData num) : json num :=
  JObject [("monthKey", JString (p_monthKey p));
           ("projectedIncome", JNumber (projectedIncome p));
           ("projectedExpenses", JNumber (projectedExpenses p))].

Definition valueOfResult (result : ProjectionResult num) : json num :=
  JObject
    ([("projections", JArray (map valueOfProjection (projections result)))]
     ++ match modelAccuracy result with
        | Some accuracy => [("modelAccuracy", JNumber accuracy)]
        | None => []
        end
     ++ [("trainingDate", JString (trainingDate result));
         ("historicalMonths", JNumber (ofZ (historicalMonths result)))]).

Definition saveProjectionsToStorage (result : ProjectionResult num) : M unit :=
  tryCatch
    (let dataString := JSON_stringify (valueOfResult result) in
     setItem storageKey dataString)
    (fun error => consoleError "[Projections] Failed to save:" error).

(** The loaded value; [JNull] is [null]. *)
Definition loadProjectionsFromStorage : M (json num) :=
  tryCatch
    (dataString ← getItem storageKey;
     match dataString with
     | None => mret JNull
     | Some text => lift (JSON_parse text)
     end)
    (fun error =>
       _ ← consoleError "[Projections] Failed to load:" error;
       mret JNull).
End ResultStore.

(** ** The pipeline *)

Section Pipeline.
Context {num : Type} `{Arith num} `{ParseFloat num} `{NumberText num}.

Definition generateAndSaveProjections (env : Env num) (cur : string)
  : M (ProjectionResult num) :=
  transactions ← loadCSVFile env seedFile;
  let filteredTransactions := filterByCurrency transactions cur in
  _ ← (if (length filteredTransactions =? 0)%nat
       then throw (JsError "Error" ("No transactions found for currency: " +:+ cur))
       else mret tt);
  monthlyData ← lift (aggregateByMonth filteredTransactions);
  _ ← (if (length monthlyData <? 3)%nat
       then throw (JsError "Error"
                     "Need at least 3 months of data for meaningful predictions")
       else mret tt);
  fs ← lift (createFeatures monthlyData);
  let incomeModel := fitted env 0 (features fs) (incomeLabels fs) in
  let expenseModel := fitted env 1 (features fs) (expenseLabels fs) in
  projections ← lift (generateProjections incomeModel expenseModel
                        (maxIncome fs) (maxExpense fs) (minYear fs) (maxYear fs)
                        monthlyData 12);
  let result :=
    {| projections := projections;
       modelAccuracy := None;
       trainingDate := now env;
       historicalMonths := Z.of_nat (length monthlyData) |} in
  _ ← saveProjectionsToStorage result;
  mret result.
End Pipeline.

(** A world whose localStorage is full. *)
Definition fullWorld : World :=
  {| storage := Some ∅; quota := 0; console := [] |}.

(** A world whose localStorage holds a damaged payload. *)
Definition damagedWorld : World :=
  {| storage := Some {[ storageKey := "{projections:" ]};
     quota := 5000000; console := [] |}.

(** A projection result in doubles. *)
Definition sampleResult : ProjectionResult float :=
  {| projections :=
       [ {| p_monthKey := "2024-12"; projectedIncome := 833.33333333333326%float;
            projectedExpenses := 625%float |};
         {| p_monthKey := "2025-01"; projectedIncome := 805.55555555555554%float;
            projectedExpenses := 0.1%float |} ];
     modelAccuracy := Some 0.875%float;
     trainingDate := "2025-01-15T09:30:00.000Z";
     historicalMonths := 3 |}.

(** A file with a single month of records, and one with four months. *)
Definition oneMonthCsv : string :=
  csvHeader +:+ newline
  +:+ "t1,2024-01-05,income,salary,pay,1200.50,GBP,m1,Acme,6011,true,high,1,1" +:+ newline
  +:+ "t2,2024-01-09,expense,food,lunch,12.50,GBP,m2,Cafe,5812,false,low,0,0".

Definition fourMonthsCsv : string :=
  csvHeader +:+ newline
  +:+ "t1,2024-01-05,income,salary,pay,1000,GBP,m1,Acme,6011,true,high,1,1" +:+ newline
  +:+ "t2,2024-01-09,expense,food,lunch,800,GBP,m2,Cafe,5812,false,low,0,0" +:+ newline
  +:+ "t3,2024-02-05,income,salary,pay,1000,GBP,m1,Acme,6011,true,high,1,1" +:+ newline
  +:+ "t4,2024-02-09,expense,food,lunch,900,GBP,m2,Cafe,5812,false,low,0,0" +:+ newline
  +:+ "t5,2024-03-05,income,salary,pay,1200,GBP,m1,Acme,6011,true,high,1,1" +:+ newline
  +:+ "t6,2024-03-09,expense,food,lunch,800,GBP,m2,Cafe,5812,false,low,0,0" +:+ newline
  +:+ "t7,2024-04-05,income,salary,pay,1200,GBP,m1,Acme,6011,true,high,1,1" +:+ newline
  +:+ "t8,2024-04-09,expense,food,lunch,900,GBP,m2,Cafe,5812,false,low,0,0".

(** *** Reading JSON values *)

Section JsonReading.
Context {num : Type} `{NumberText num}.

(** A number that [JSON.stringify] writes as a number and [JSON.parse]
    reads back as itself: finite, and not the negative zero. *)
Definition numberRoundTrips (n : num) : Prop :=
  isFinite n = true /\
  validJsonNumber (numberToString n) = true /\
  stringToNumber (numberToString n) = n.

(** A value whose numbers all round-trip and whose objects have no
    repeated key. *)
Fixpoint serializable (value : json num) : Prop :=
  match value with
  | JNumber n => numberRoundTrips n
  | JArray items =>
      (fix all (l : list (json num)) : Prop :=
         match l with
         | [] => True
         | x :: l' => serializable x /\ all l'
         end) items
  | JObject members =>
      NoDup (map fst members) /\
      (fix all (l : list (string * json num)) : Prop :=
         match l with
         | [] => True
         | kv :: l' => serializable (snd kv) /\ all l'
         end) members
  | _ => True
  end.

(** Fuel that parsing the text of a value needs at most. *)
Fixpoint cost (value : json num) : nat :=
  match value with
  | JArray items => S (list_sum (map (fun x => S (cost x)) items))
  | JObject members => S (list_sum (map (fun kv => S (cost (snd kv))) members))
  | _ => 1
  end.

(** What may follow the text of a value: nothing, or a character that
    cannot continue a number. *)
Definition boundary (rest : string) : Prop :=
  match rest with
  | EmptyString => True
  | String c _ => isNumberChar c = false
  end.

(** The text of one member of an object. *)
Definition memberText (kv : string * json num) : string :=
  quoteString (fst kv) +:+ ":" +:+ JSON_stringify (snd kv).

(** The parser reads the value back from its text, whatever follows. *)
Definition readsBack (value : json num) : Prop :=
  serializable value ->
  forall fuel rest,
    (cost value <= fuel)%nat -> boundary rest ->
    parseValue fuel (JSON_stringify value +:+ rest) = Some (value, rest).

Section Induction.
Variable P : json num -> Prop.
Hypothesis Pnull : P JNull.
Hypothesis Pbool : forall b, P (JBool b).
Hypothesis Pnumber : forall n, P (JNumber n).
Hypothesis Pstring : forall s, P (JString s).
Hypothesis Parray : forall items, Forall P items -> P (JArray items).
Hypothesis Pobject :
  forall members, Forall (fun kv => P (snd kv)) members -> P (JObject members).

(** Induction on a value with its items and members. *)
Fixpoint json_nested_ind (value : json num) : P value :=
  match value with
  | JNull => Pnull
  | JBool b => Pbool b
  | JNumber n => Pnumber n
  | JString s => Pstring s
  | JArray items =>
      Parray items
        ((fix go (l : list (json num)) : Forall P l :=
            match l with
            | [] => List.Forall_nil P
            | x :: l' => @List.Forall_cons _ P x l' (json_nested_ind x) (go l')
            end) items)
  | JObject members =>
      Pobject members
        ((fix go (l : list (string * json num)) : Forall (fun kv => P (snd kv)) l :=
            match l with
            | [] => List.Forall_nil _
            | kv :: l' =>
                @List.Forall_cons _ (fun kv => P (snd kv)) kv l'
                  (json_nested_ind (snd kv)) (go l')
            end) members)
  end.
End Induction.
End JsonReading.

(** A projection result whose numbers all round-trip through JSON. *)
Definition serializableResult {num : Type} `{Arith num} `{NumberText num}
  (result : ProjectionResult num) : Prop :=
  Forall (fun p => numberRoundTrips (projectedIncome p) /\
                   numberRoundTrips (projectedExpenses p)) (projections result) /\
  (forall accuracy, modelAccuracy result = Some accuracy -> numberRoundTrips accuracy) /\
  numberRoundTrips (ofZ (historicalMonths result)).

(** The world after [console.error(message, error)]. *)
Definition logged (w : World) (message : string) (error : exn) : World :=
  {| storage := storage w; quota := quota w;
     console := console w ++ [ErrorLine message error] |}.

(** The world after a successful [setItem(key, value)] on the items. *)
Definition stored (w : World) (items : gmap string string) (key value : string) : World :=
  {| storage := Some (<[key := value]> items); quota := quota w; console := console w |}.

(** ** Dashboard: the yearly view of the projections *)

Section Dashboard.
Context {num : Type} `{Arith num}.

(** A point of the yearly trends chart. *)
Record YearPoint : Type := {
  yp_year : string;
  yp_income : num;
  yp_expenses : num
}.

(** [proj.monthKey.split("-")[0]] *)
Definition projectedYearOf (proj : ProjectedMonthlyData num) : string :=
  hd EmptyString (split "-" (p_monthKey proj)).

(** The two [+=] on the entry of the year. *)
Definition projectedAccount (proj : ProjectedMonthlyData num) (data : num * num)
  : num * num :=
  (add (fst data) (projectedIncome proj), add (snd data) (projectedExpenses proj)).

(** One iteration of [for (const proj of projections.projections)]. *)
Definition projectedYearlyStep (yearMap : list (string * (num * num)))
  (proj : ProjectedMonthlyData num) : list (string * (num * num)) :=
  let y := projectedYearOf proj in
  let yearMap :=
    if mapHas y yearMap then yearMap else yearMap ++ [(y, (ofZ 0, ofZ 0))] in
  mapModify y (projectedAccount proj) yearMap.

(** [getProjectedYearlyData], on the component's [projections] state
    ([None] is [null]) and the collation of the locale. *)
Definition getProjectedYearlyData (localeCompare : string -> string -> Z)
  (projectionsState : option (ProjectionResult num)) : list YearPoint :=
  match projectionsState with
  | None => []
  | Some result =>
      sortBy (fun a b => localeCompare (yp_year a) (yp_year b))
        (map (fun '(y, data) =>
                {| yp_year := y; yp_income := fst data; yp_expenses := snd data |})
           (fold_left projectedYearlyStep (projections result) []))
  end.
End Dashboard.
Arguments YearPoint num : clear implicits.

(** *** Reading the grouped views *)

(** The records counted by a sequence of monthly aggregates. *)
Definition totalCount {num : Type} (monthlyData : list (MonthlyData num)) : Z :=
  fold_right Z.add 0 (map transactionCount monthlyData).

(** The year a dated record is filed under. *)
Definition yearLabel {num : Type} (txn : CSVTransaction num) : string :=
  match date txn with
  | Some d => hd EmptyString (split "-" d)
  | None => EmptyString
  end.

(** The step both yearly views perform on their [Map]: create the entry
    of the key when it is missing, then update it in place. *)
Definition groupInto {A V : Type} (key : A -> string) (init : V) (upd : A -> V -> V)
  (m : list (string * V)) (a : A) : list (string * V) :=
  mapModify (key a) (upd a)
    (if mapHas (key a) m then m else m ++ [(key a, init)]).

(** The members of [xs] filed under [k]. *)
Definition groupOf {A : Type} (key : A -> string) (k : string) (xs : list A) : list A :=
  List.filter (fun a => String.eqb (key a) k) xs.

(** ** Dashboard: generating the projections *)

Section DashboardHandler.
Context {num : Type} `{Arith num} `{ParseFloat num} `{NumberText num}.

(** The pieces of component state the handler sets. *)
Record DashboardState : Type := {
  projections' : option (ProjectionResult num);
  isGeneratingProjections : bool;
  projectionError : option string;
  historicalYearlyData : list (HistoricalYearlyData num)
}.

(** A computation of the component: it may set state on the way, also
    when it ends by throwing. *)
Definition UI (A : Type) : Type :=
  DashboardState -> World -> outcome A * DashboardState * World.

#[global] Instance UI_ret : MRet UI := fun _ a ui w => (Returns a, ui, w).
#[global] Instance UI_bind : MBind UI := fun _ _ f c ui w =>
  match c ui w with
  | (Returns a, ui', w') => f a ui' w'
  | (Throws e, ui', w') => (Throws e, ui', w')
  | (Beyond, ui', w') => (Beyond, ui', w')
  end.

(** [await] of a function of the projection module. *)
Definition run {A : Type} (c : M A) : UI A := fun ui w =>
  match c w with
  | (r, w') => (r, ui, w')
  end.

Definition setProjections (v : option (ProjectionResult num)) : UI unit := fun ui w =>
  (Returns tt,
   {| projections' := v;
      isGeneratingProjections := isGeneratingProjections ui;
      projectionError := projectionError ui;
      historicalYearlyData := historicalYearlyData ui |}, w).

Definition setIsGeneratingProjections (v : bool) : UI unit := fun ui w =>
  (Returns tt,
   {| projections' := projections' ui;
      isGeneratingProjections := v;
      projectionError := projectionError ui;
      historicalYearlyData := historicalYearlyData ui |}, w).

Definition setProjectionError (v : option string) : UI unit := fun ui w =>
  (Returns tt,
   {| projections' := projections' ui;
      isGeneratingProjections := isGeneratingProjections ui;
      projectionError := v;
      historicalYearlyData := historicalYearlyData ui |}, w).

Definition setHistoricalYearlyData (v : list (HistoricalYearlyData num)) : UI unit :=
  fun ui w =>
    (Returns tt,
     {| projections' := projections' ui;
        isGeneratingProjections := isGeneratingProjections ui;
        projectionError := projectionError ui;
        historicalYearlyData := v |}, w).

(** [try { body } catch (error) { handler } finally { finalizer }] *)
Definition tryCatchFinally {A : Type} (body : UI A) (handler : exn -> UI A)
  (finalizer : UI unit) : UI A := fun ui w =>
  let '(r, ui1, w1) :=
    match body ui w with
    | (Throws e, ui', w') => handler e ui' w'
    | done => done
    end in
  match finalizer ui1 w1 with
  | (Returns _, ui2, w2) => (r, ui2, w2)
  | (Throws e, ui2, w2) => (Throws e, ui2, w2)
  | (Beyond, ui2, w2) => (Beyond, ui2, w2)
  end.

(** [error instanceof Error ? error.message : "Failed to generate
    projections"]: every value thrown in this development is an [Error]. *)
Definition errorMessage (error : exn) : string :=
  match error with
  | JsError _ message => message
  end.

(** [handleGenerateProjections]; [cur] is [activeCurrencyId.toUpperCase()]. *)
Definition handleGenerateProjections (env : Env num) (cur : string) : UI unit :=
  _ ← setIsGeneratingProjections true;
  _ ← setProjectionError None;
  tryCatchFinally
    (historical ← run (loadHistoricalYearlyData env cur);
     _ ← setHistoricalYearlyData historical;
     result ← run (generateAndSaveProjections env cur);
     setProjections (Some result))
    (fun error =>
       _ ← run (consoleError "Failed to generate projections:" error);
       setProjectionError (Some (errorMessage error)))
    (setIsGeneratingProjections false).
End DashboardHandler.
Arguments DashboardState num : clear implicits.

(** A dashboard showing the sample result from an earlier run. *)
Definition staleDashboard : DashboardState float :=
  {| projections' := Some sampleResult;
     isGeneratingProjections := false;
     projectionError := None;
     historicalYearlyData := [] |}.

(** The properties of the row object that the typed record reads. None of
    them is a property of [Object.prototype], so reading one that the row
    did not set gives [undefined], and none is [__proto__], the one name
    under which an assignment of a string stores nothing. *)
Definition columnNames : list string :=
  ["id"; "date"; "type"; "category"; "description"; "amount"; "currency";
   "merchantId"; "merchantName"; "mcc"; "isRecurring"; "essentiality";
   "labelRecurring"; "labelEssential"].

(** *** The documented date format

    [date: string; // Format: YYYY-MM-DD], read position by position,
    independently of the way the aggregator takes a date apart. *)

(** The value of a decimal digit. *)
Definition digitOf (c : ascii) : option Z :=
  let n := Z.of_nat (nat_of_ascii c) in
  if (48 <=? n) && (n <=? 57) then Some (n - 48) else None.

(** The year and the month a date text states: four digits, a dash, two
    digits that make a month from 01 to 12, a dash; what follows is the
    day. *)
Definition isoMonth (s : string) : option (Z * Z) :=
  match s with
  | String y1 (String y2 (String y3 (String y4 (String d1
      (String m1 (String m2 (String d2 _))))))) =>
      if Ascii.eqb d1 "-" && Ascii.eqb d2 "-" then
        match digitOf y1, digitOf y2, digitOf y3, digitOf y4,
              digitOf m1, digitOf m2 with
        | Some a, Some b, Some c, Some d, Some e, Some f =>
            if (1 <=? 10 * e + f) && (10 * e + f <=? 12)
            then Some (1000 * a + 100 * b + 10 * c + d, 10 * e + f)
            else None
        | _, _, _, _, _, _ => None
        end
      else None
  | _ => None
  end.

(** The month a record states. *)
Definition statedMonth {num : Type} (t : CSVTransaction num) : option (Z * Z) :=
  match date t with
  | Some s => isoMonth s
  | None => None
  end.

(** The record's date has the documented format. *)
Definition isoDated {num : Type} (t : CSVTransaction num) : Prop :=
  is_Some (statedMonth t).

Definition inStatedMonth {num : Type} (y m : Z) (t : CSVTransaction num) : bool :=
  bool_decide (statedMonth t = Some (y, m)).

(** Records in the documented format, out of chronological order and over
    two years. *)
Definition isoLedger : list (CSVTransaction float) :=
  [ sampleTxn "2024-03-01" "income" 1200.5%float "GBP";
    sampleTxn "2024-01-05" "expense" 0.1%float "GBP";
    sampleTxn "2024-03-02" "refund" 0.2%float "GBP";
    sampleTxn "2023-12-02" "income" 5%float "GBP";
    sampleTxn "2024-01-09" "expense" 0.2%float "GBP" ].

(** * Facts *)

(** ** Strings and month keys *)

Lemma split_absent sep s : occurs sep s = false -> split sep s = [s].
Proof.
  induction s as [|a s IH]; simpl; [reflexivity|].
  destruct (Ascii.eqb a sep); [discriminate|].
  intros Hs. rewrite (IH Hs). reflexivity.
Qed.

Lemma split_at_sep sep a b :
  occurs sep a = false -> split sep (a +:+ String sep b) = a :: split sep b.
Proof.
  induction a as [|c a IH]; simpl.
  - intros _. rewrite Ascii.eqb_refl. reflexivity.
  - destruct (Ascii.eqb c sep); [discriminate|].
    intros Ha. rewrite (IH Ha). reflexivity.
Qed.

Lemma digits_no_dash s d :
  NilEmpty.uint_of_string s = Some d -> occurs "-" s = false.
Proof.
  revert d. induction s as [|a s IH]; simpl; [reflexivity|].
  intros d. destruct (NilEmpty.uint_of_string s) as [d0|] eqn:E; [|discriminate].
  intros Hc. apply uint_of_char_spec in Hc.
  rewrite (IH d0 eq_refl).
  destruct Hc as [[-> _]|[[-> _]|[[-> _]|[[-> _]|[[-> _]|[[-> _]|[[-> _]|[[-> _]|[[-> _]|[-> _]]]]]]]]]];
    reflexivity.
Qed.

Lemma showZ_digits z :
  0 <= z -> exists d, NilEmpty.uint_of_string (showZ z) = Some d /\ Z.of_uint d = z.
Proof.
  intros Hz. destruct z as [|p|p]; [| |lia].
  - exists (D0 Nil). split; reflexivity.
  - exists (Pos.to_uint p). unfold showZ. simpl.
    assert (Hn : NilZero.string_of_uint (Pos.to_uint p)
                 = NilEmpty.string_of_uint (Pos.to_uint p)).
    { pose proof (DecimalPos.Unsigned.to_uint_nonnil p) as Hnil.
      destruct (Pos.to_uint p); [congruence|reflexivity..]. }
    rewrite Hn, NilEmpty.usu. split; [reflexivity|].
    unfold Z.of_uint. rewrite DecimalPos.Unsigned.of_to. reflexivity.
Qed.

Lemma digitsValue_showZ z : 0 <= z -> digitsValue (showZ z) = Some z.
Proof.
  intros Hz. destruct (showZ_digits z Hz) as (d & Hd & Hv).
  unfold digitsValue. rewrite Hd. simpl. congruence.
Qed.

Lemma digitsValue_zero_prefix s : digitsValue (String "0" s) = digitsValue s.
Proof.
  unfold digitsValue. simpl.
  destruct (NilEmpty.uint_of_string s) as [d|]; reflexivity.
Qed.

Lemma padStart_zero_digits n s d :
  NilEmpty.uint_of_string s = Some d ->
  exists d', NilEmpty.uint_of_string (padStart n "0" s) = Some d'
             /\ digitsValue (padStart n "0" s) = digitsValue s.
Proof.
  intros Hs. unfold padStart.
  induction (n - String.length s)%nat as [|k IH]; simpl.
  - exists d. split; [exact Hs|reflexivity].
  - destruct IH as (d' & Hd' & Hv).
    exists (D0 d'). split.
    + simpl. rewrite Hd'. reflexivity.
    + rewrite <- Hv. apply digitsValue_zero_prefix.
Qed.

Lemma parseMonthKey_monthKeyOf y m :
  0 <= y -> 0 <= m -> parseMonthKey (monthKeyOf y m) = Some (y, m).
Proof.
  intros Hy Hm. unfold parseMonthKey, monthKeyOf.
  destruct (showZ_digits y Hy) as (dy & Hdy & _).
  destruct (showZ_digits m Hm) as (dm & Hdm & _).
  destruct (padStart_zero_digits 2 _ _ Hdm) as (dp & Hdp & Hvp).
  change ("-" +:+ padStart 2 "0" (showZ m))
    with (String "-" (padStart 2 "0" (showZ m))).
  rewrite split_at_sep by (eapply digits_no_dash; eassumption).
  rewrite split_absent by (eapply digits_no_dash; eassumption).
  rewrite Hvp, (digitsValue_showZ y Hy), (digitsValue_showZ m Hm).
  reflexivity.
Qed.

Lemma monthKeyOf_inj y m y' m' :
  0 <= y -> 0 <= m -> 0 <= y' -> 0 <= m' ->
  monthKeyOf y m = monthKeyOf y' m' -> y = y' /\ m = m'.
Proof.
  intros Hy Hm Hy' Hm' Hk.
  pose proof (parseMonthKey_monthKeyOf y m Hy Hm) as H1.
  pose proof (parseMonthKey_monthKeyOf y' m' Hy' Hm') as H2.
  rewrite Hk in H1. rewrite H1 in H2. injection H2. auto.
Qed.

Lemma NumberInt_bounds s z : NumberInt s = Some z -> 0 <= z <= MAX_SAFE_INTEGER.
Proof.
  unfold NumberInt, digitsValue.
  destruct (NilEmpty.uint_of_string s) as [d|]; simpl; [|discriminate].
  destruct (Z.leb_spec (Z.of_uint d) MAX_SAFE_INTEGER); [|discriminate].
  intros [= <-]. split; [|assumption].
  unfold Z.of_uint. lia.
Qed.

(** ** Monthly Aggregator *)

Section AggregatorFacts.
Context {num : Type} `{Arith num}.
Implicit Types (M : @MonthMap num) (t : CSVTransaction num) (d : MonthlyData num).
Implicit Types (k : string) (ts : list (CSVTransaction num)).

Lemma sum_snoc (xs : list num) (x : num) : sum (xs ++ [x]) = add (sum xs) x.
Proof. unfold sum. rewrite fold_left_app. reflexivity. Qed.

Lemma mapHas_mapGet k M :
  mapHas k M = match mapGet k M with Some _ => true | None => false end.
Proof.
  induction M as [|[k' d] M IH]; simpl; [reflexivity|].
  destruct (String.eqb k k'); [reflexivity|exact IH].
Qed.

Lemma mapGet_keys k M : mapGet k M = None <-> ~ In k (map fst M).
Proof.
  induction M as [|[k' d] M IH]; simpl; [tauto|].
  destruct (String.eqb_spec k k') as [->|Hne].
  - split; [discriminate|]. intros Hn. exfalso. apply Hn. left. reflexivity.
  - rewrite IH. split.
    + intros Hn [He|Hi]; [congruence|tauto].
    + intros Hn Hi. apply Hn. right. exact Hi.
Qed.

Lemma mapGet_In k d M : mapGet k M = Some d -> In (k, d) M.
Proof.
  induction M as [|[k' d'] M IH]; simpl; [discriminate|].
  destruct (String.eqb_spec k k') as [->|Hne].
  - intros [= ->]. left. reflexivity.
  - intros Hg. right. apply IH, Hg.
Qed.

Lemma In_mapGet k d M : NoDup (map fst M) -> In (k, d) M -> mapGet k M = Some d.
Proof.
  induction M as [|[k' d'] M IH]; simpl; [tauto|].
  intros Hnd. apply NoDup_cons in Hnd as [Hni Hnd].
  intros [[= -> ->]|Hi].
  - rewrite String.eqb_refl. reflexivity.
  - destruct (String.eqb_spec k k') as [->|Hne]; [|apply IH; assumption].
    exfalso. apply Hni. apply list_elem_of_In.
    change k' with (fst (k', d)). apply in_map. exact Hi.
Qed.

Lemma keys_mapModify k f M : map fst (mapModify k f M) = map fst M.
Proof.
  induction M as [|[k' d] M IH]; simpl; [reflexivity|].
  destruct (String.eqb k k'); simpl; [reflexivity|]. rewrite IH. reflexivity.
Qed.

Lemma mapGet_mapModify k k' f M :
  mapGet k' (mapModify k f M)
  = if String.eqb k' k then f <$> mapGet k M else mapGet k' M.
Proof.
  induction M as [|[k0 d] M IH]; simpl.
  - destruct (String.eqb k' k); reflexivity.
  - destruct (String.eqb_spec k k0) as [->|Hne]; simpl.
    + destruct (String.eqb_spec k' k0) as [->|Hne']; reflexivity.
    + destruct (String.eqb_spec k' k0) as [->|Hne']; simpl.
      * destruct (String.eqb_spec k0 k); [congruence|reflexivity].
      * exact IH.
Qed.

Lemma mapGet_snoc k k0 d0 M :
  mapGet k (M ++ [(k0, d0)])
  = match mapGet k M with
    | Some d => Some d
    | None => if String.eqb k k0 then Some d0 else None
    end.
Proof.
  induction M as [|[k' d'] M IH]; simpl; [reflexivity|].
  destruct (String.eqb k k'); [reflexivity|exact IH].
Qed.

Lemma keys_enter M y m t :
  NoDup (map fst M) -> NoDup (map fst (enter M y m t)).
Proof.
  intros Hnd. unfold enter. rewrite keys_mapModify, mapHas_mapGet.
  destruct (mapGet (monthKeyOf y m) M) eqn:Hg; [exact Hnd|].
  rewrite map_app. simpl. apply NoDup_app. split; [exact Hnd|]. split.
  - intros x Hx Hx'. apply list_elem_of_In in Hx, Hx'.
    destruct Hx' as [<-|[]]. apply mapGet_keys in Hg. tauto.
  - apply NoDup_singleton.
Qed.

Lemma mapGet_enter k M y m t :
  mapGet k (enter M y m t)
  = if String.eqb k (monthKeyOf y m)
    then Some (account t
                 (default (emptyMonth y m (monthKeyOf y m))
                    (mapGet (monthKeyOf y m) M)))
    else mapGet k M.
Proof.
  unfold enter. rewrite mapGet_mapModify, mapHas_mapGet.
  destruct (String.eqb_spec k (monthKeyOf y m)) as [->|Hne].
  - destruct (mapGet (monthKeyOf y m) M) as [d|] eqn:Hg.
    + rewrite Hg. reflexivity.
    + rewrite mapGet_snoc, Hg, String.eqb_refl. reflexivity.
  - destruct (mapGet (monthKeyOf y m) M) as [d|] eqn:Hg; [reflexivity|].
    rewrite mapGet_snoc.
    destruct (mapGet k M); [reflexivity|].
    destruct (String.eqb_spec k (monthKeyOf y m)); [congruence|reflexivity].
Qed.

Lemma aggregateStep_wellDated M t :
  wellDated t -> aggregateStep M t = Returns (enterTxn M t).
Proof.
  intros [p Hp]. unfold aggregateStep, enterTxn. unfold monthOf in Hp |- *.
  destruct (yearMonth (date t)) as [[y m]| |]; try discriminate.
  reflexivity.
Qed.

(** The loop, once every date is known to yield a month. *)
Lemma forOf_aggregateStep ts M :
  Forall wellDated ts ->
  forOf aggregateStep ts M = Returns (fold_left enterTxn ts M).
Proof.
  intros Hw. revert M. induction Hw as [|t ts Ht _ IH]; intros M.
  - reflexivity.
  - change (forOf aggregateStep (t :: ts) M)
      with (aggregateStep M t ≫= forOf aggregateStep ts).
    rewrite (aggregateStep_wellDated M t Ht). simpl. apply IH.
Qed.

Lemma keys_fold ts M :
  NoDup (map fst M) -> NoDup (map fst (fold_left enterTxn ts M)).
Proof.
  revert M. induction ts as [|t ts IH]; intros M Hnd; simpl; [exact Hnd|].
  apply IH. unfold enterTxn. destruct (monthOf t) as [[y m]|]; [|exact Hnd].
  apply keys_enter, Hnd.
Qed.

Lemma filter_snoc {A} (p : A -> bool) (l : list A) (x : A) :
  List.filter p (l ++ [x]) = List.filter p l ++ (if p x then [x] else []).
Proof. rewrite List.filter_app. simpl. destruct (p x); reflexivity. Qed.

(** The map after the loop, entry by entry. *)
Lemma mapGet_fold k ts :
  mapGet k (fold_left enterTxn ts []) = summary k ts.
Proof.
  induction ts as [|t ts IH] using rev_ind; [reflexivity|].
  rewrite fold_left_app. simpl. unfold enterTxn at 1.
  unfold summary at 1. rewrite filter_snoc. unfold hasKey at 2.
  destruct (monthOf t) as [[y m]|] eqn:Ht.
  2:{ rewrite app_nil_r. exact IH. }
  rewrite mapGet_enter, (String.eqb_sym k).
  destruct (String.eqb_spec (monthKeyOf y m) k) as [<-|Hne].
  2:{ rewrite app_nil_r. exact IH. }
  rewrite IH. unfold summary.
  destruct (List.filter (hasKey (monthKeyOf y m)) ts) as [|t0 rest] eqn:Hf.
  - cbn [app default]. rewrite Ht.
    unfold account, emptyMonth, isExpense; simpl.
    destruct (isIncome t); reflexivity.
  - assert (Hk0 : hasKey (monthKeyOf y m) t0 = true).
    { assert (Hin : In t0 (List.filter (hasKey (monthKeyOf y m)) ts))
        by (rewrite Hf; left; reflexivity).
      apply List.filter_In in Hin. tauto. }
    unfold hasKey in Hk0. cbn [app].
    destruct (monthOf t0) as [[y0 m0]|]; [|discriminate].
    cbn [default from_option id].
    change (t0 :: rest ++ [t]) with ((t0 :: rest) ++ [t]).
    rewrite !filter_snoc, length_app.
    unfold account, isExpense.
    cbn [year month monthKey totalIncome totalExpenses transactionCount].
    destruct (isIncome t); cbn [negb];
      rewrite ?app_nil_r, ?map_app; cbn [map length]; rewrite ?sum_snoc;
      do 2 f_equal; lia.
Qed.

(** *** The sort *)

Lemma insertSorted_perm {A} (cmp : A -> A -> Z) x l :
  Permutation (insertSorted cmp x l) (x :: l).
Proof.
  induction l as [|y l IH]; simpl; [reflexivity|].
  destruct (cmp x y <=? 0); [reflexivity|].
  rewrite IH. apply perm_swap.
Qed.

Lemma sortBy_perm {A} (cmp : A -> A -> Z) l : Permutation (sortBy cmp l) l.
Proof.
  induction l as [|x l IH]; simpl; [reflexivity|].
  rewrite insertSorted_perm, IH. reflexivity.
Qed.

Lemma compareMonths_notAfter (a b : MonthlyData num) :
  compareMonths a b <= 0 <-> notAfter a b.
Proof.
  unfold compareMonths, notAfter. case_bool_decide; lia.
Qed.

Lemma insertSorted_sorted (x : MonthlyData num) l :
  StronglySorted notAfter l ->
  StronglySorted notAfter (insertSorted compareMonths x l).
Proof.
  induction 1 as [|y l Hs IH Hall]; simpl.
  - repeat constructor.
  - destruct (Z.leb_spec (compareMonths x y) 0) as [Hle|Hgt].
    + apply compareMonths_notAfter in Hle.
      constructor; [constructor; assumption|].
      constructor; [exact Hle|].
      eapply Forall_impl; [exact Hall|].
      intros z Hz. unfold notAfter in *. lia.
    + assert (Hyx : notAfter y x).
      { assert (Hn : ~ notAfter x y)
          by (rewrite <- compareMonths_notAfter; lia).
        unfold notAfter in *. lia. }
      constructor; [exact IH|].
      rewrite (insertSorted_perm compareMonths x l).
      constructor; assumption.
Qed.

Lemma sortBy_sorted (l : list (MonthlyData num)) :
  StronglySorted notAfter (sortBy compareMonths l).
Proof.
  induction l as [|x l IH]; simpl; [constructor|].
  apply insertSorted_sorted, IH.
Qed.

Lemma sorted_strict (l : list (MonthlyData num)) :
  StronglySorted notAfter l -> NoDup (map calendarMonth l) ->
  StronglySorted before l.
Proof.
  induction 1 as [|x l Hs IH Hall]; simpl; intros Hnd; [constructor|].
  apply NoDup_cons in Hnd as [Hni Hnd].
  constructor; [apply IH, Hnd|].
  apply List.Forall_forall. intros z Hz.
  pose proof (proj1 (List.Forall_forall _ _) Hall z Hz) as Hle.
  assert (Hne : calendarMonth x <> calendarMonth z).
  { intros He. apply Hni. rewrite He. apply list_elem_of_In, in_map, Hz. }
  unfold calendarMonth in Hne. unfold notAfter in Hle. unfold before.
  destruct (Z.eq_dec (month x) (month z)) as [Hm|Hm]; [|lia].
  destruct (Z.eq_dec (year x) (year z)) as [Hy|Hy]; [|lia].
  exfalso. apply Hne. congruence.
Qed.

(** *** What each aggregate holds *)

Lemma monthOf_nonneg t y m : monthOf t = Some (y, m) -> 0 <= y /\ 0 <= m.
Proof.
  unfold monthOf, yearMonth.
  destruct (date t) as [s|]; [|discriminate].
  destruct (split "-" s) as [|ys [|ms rest]]; try discriminate.
  destruct (NumberInt ys) as [y'|] eqn:Hy; [|discriminate].
  destruct (NumberInt ms) as [m'|] eqn:Hm; [|discriminate].
  intros [= <- <-].
  apply NumberInt_bounds in Hy, Hm. lia.
Qed.

Lemma hasKey_inMonth t0 y0 m0 t :
  monthOf t0 = Some (y0, m0) ->
  hasKey (monthKeyOf y0 m0) t = inMonth y0 m0 t.
Proof.
  intros H0. apply monthOf_nonneg in H0 as [Hy0 Hm0].
  unfold hasKey, inMonth.
  destruct (monthOf t) as [[y m]|] eqn:Ht.
  - apply monthOf_nonneg in Ht as [Hy Hm].
    destruct (String.eqb_spec (monthKeyOf y m) (monthKeyOf y0 m0)) as [He|Hne].
    + apply monthKeyOf_inj in He as [-> ->]; try assumption.
      symmetry. apply bool_decide_eq_true. reflexivity.
    + symmetry. apply bool_decide_eq_false. intros [= -> ->]. congruence.
  - symmetry. apply bool_decide_eq_false. discriminate.
Qed.

Lemma filter_hasKey_inMonth t0 y0 m0 ts :
  monthOf t0 = Some (y0, m0) ->
  List.filter (hasKey (monthKeyOf y0 m0)) ts = List.filter (inMonth y0 m0) ts.
Proof.
  intros H0. apply List.filter_ext. intros t. apply (hasKey_inMonth t0), H0.
Qed.

Lemma filter_head {A} (p : A -> bool) l x rest :
  List.filter p l = x :: rest -> In x l /\ p x = true.
Proof.
  intros Hf. apply List.filter_In. rewrite Hf. left. reflexivity.
Qed.

Lemma summary_Some k ts d :
  summary k ts = Some d ->
  k = monthKeyOf (year d) (month d) /\
  monthKey d = k /\
  (exists t0, In t0 ts /\ monthOf t0 = Some (year d, month d)) /\
  totalIncome d
  = sum (map amount (List.filter isIncome (List.filter (inMonth (year d) (month d)) ts))) /\
  totalExpenses d
  = sum (map amount (List.filter isExpense (List.filter (inMonth (year d) (month d)) ts))) /\
  transactionCount d
  = Z.of_nat (length (List.filter (inMonth (year d) (month d)) ts)).
Proof.
  unfold summary.
  destruct (List.filter (hasKey k) ts) as [|t0 rest] eqn:Hf; [discriminate|].
  destruct (filter_head _ _ _ _ Hf) as [Hin Hk].
  destruct (monthOf t0) as [[y m]|] eqn:H0; [|discriminate].
  unfold hasKey in Hk. rewrite H0 in Hk. apply String.eqb_eq in Hk. subst k.
  rewrite (filter_hasKey_inMonth t0 y m ts H0) in Hf.
  intros [= <-]. cbn [year month monthKey totalIncome totalExpenses transactionCount].
  rewrite Hf. repeat split; try reflexivity.
  exists t0. split; assumption.
Qed.

Lemma summary_present ts t y m :
  In t ts -> monthOf t = Some (y, m) ->
  exists d, summary (monthKeyOf y m) ts = Some d /\ year d = y /\ month d = m.
Proof.
  intros Hin Ht. unfold summary.
  destruct (List.filter (hasKey (monthKeyOf y m)) ts) as [|t0 rest] eqn:Hf.
  - exfalso.
    assert (Hi : In t (List.filter (hasKey (monthKeyOf y m)) ts)).
    { apply List.filter_In. split; [exact Hin|].
      unfold hasKey. rewrite Ht. apply String.eqb_refl. }
    rewrite Hf in Hi. destruct Hi.
  - destruct (filter_head _ _ _ _ Hf) as [Hin0 Hk].
    unfold hasKey in Hk.
    destruct (monthOf t0) as [[y0 m0]|] eqn:H0; [|discriminate].
    apply String.eqb_eq in Hk.
    destruct (monthOf_nonneg _ _ _ H0), (monthOf_nonneg _ _ _ Ht).
    apply monthKeyOf_inj in Hk as [-> ->]; try assumption.
    eexists. split; [reflexivity|]. split; reflexivity.
Qed.

Lemma aggregateByMonth_wellDated ts :
  Forall wellDated ts ->
  aggregateByMonth ts
  = Returns (sortBy compareMonths (map snd (fold_left enterTxn ts []))).
Proof.
  intros Hw. unfold aggregateByMonth.
  rewrite (forOf_aggregateStep ts [] Hw). reflexivity.
Qed.

Lemma In_aggregates ts d :
  In d (sortBy compareMonths (map snd (fold_left enterTxn ts [])))
  <-> exists k, summary k ts = Some d.
Proof.
  rewrite <- !list_elem_of_In, sortBy_perm, list_elem_of_In, in_map_iff.
  split.
  - intros ([k d'] & Hd & Hin). simpl in Hd. subst d'.
    exists k. rewrite <- mapGet_fold. apply In_mapGet; [|exact Hin].
    apply keys_fold. constructor.
  - intros (k & Hk). exists (k, d). split; [reflexivity|].
    apply mapGet_In. rewrite mapGet_fold. exact Hk.
Qed.

Lemma aggregates_keys ts :
  map fst (fold_left enterTxn ts [])
  = map (fun d => monthKeyOf (year d) (month d)) (map snd (fold_left enterTxn ts []))
  /\ map fst (fold_left enterTxn ts []) = map monthKey (map snd (fold_left enterTxn ts [])).
Proof.
  pose proof (keys_fold ts [] (NoDup_nil_2)) as Hnd.
  assert (Hall : forall k d, In (k, d) (fold_left enterTxn ts []) ->
                             k = monthKeyOf (year d) (month d) /\ k = monthKey d).
  { intros k d Hin. apply In_mapGet in Hin; [|exact Hnd].
    rewrite mapGet_fold in Hin. apply summary_Some in Hin.
    destruct Hin as (Hk & Hmk & _). split; congruence. }
  clear Hnd. induction (fold_left enterTxn ts []) as [|[k d] M IH]; simpl.
  - split; reflexivity.
  - destruct (Hall k d (or_introl eq_refl)) as [H1 H2].
    destruct IH as [IH1 IH2].
    { intros k' d' Hin. apply Hall. right. exact Hin. }
    split; f_equal; assumption.
Qed.
End AggregatorFacts.

(** ** The documented date format and the aggregator's reading *)

Lemma digitOf_range (c : ascii) (a : Z) :
  digitOf c = Some a -> 0 <= a <= 9 /\ c = ascii_of_nat (Z.to_nat (48 + a)).
Proof.
  unfold digitOf. cbv zeta.
  destruct (Z.leb_spec 48 (Z.of_nat (nat_of_ascii c))) as [Hlo|]; [|discriminate].
  destruct (Z.leb_spec (Z.of_nat (nat_of_ascii c)) 57) as [Hhi|]; [|discriminate].
  cbn [andb]. intros [= <-]. split; [lia|].
  replace (48 + (Z.of_nat (nat_of_ascii c) - 48)) with (Z.of_nat (nat_of_ascii c)) by lia.
  rewrite Nat2Z.id, ascii_nat_embedding. reflexivity.
Qed.

Lemma digit_cases (a : Z) :
  0 <= a <= 9 -> In a [0; 1; 2; 3; 4; 5; 6; 7; 8; 9].
Proof.
  intros Ha.
  assert (a = 0 \/ a = 1 \/ a = 2 \/ a = 3 \/ a = 4 \/ a = 5 \/ a = 6 \/ a = 7
          \/ a = 8 \/ a = 9) as Hc by lia.
  simpl. intuition.
Qed.

Local Abbreviation digitChar := (fun a : Z => ascii_of_nat (Z.to_nat (48 + a))).
Local Abbreviation decimalDigits := [0; 1; 2; 3; 4; 5; 6; 7; 8; 9].

(** [Number] on four digits, on two digits, and the key template on their
    values: checked on every combination of digits. *)
Lemma four_digits_table :
  forallb (fun a => forallb (fun b => forallb (fun c => forallb (fun d =>
    let s := String (digitChar a) (String (digitChar b)
               (String (digitChar c) (String (digitChar d) EmptyString))) in
    bool_decide (NumberInt s = Some (1000 * a + 100 * b + 10 * c + d))
    && negb (occurs "-" s)
    && (if 1 <=? a
        then String.eqb (showZ (1000 * a + 100 * b + 10 * c + d)) s
        else true))
    decimalDigits) decimalDigits) decimalDigits) decimalDigits = true.
Proof. vm_compute. reflexivity. Qed.

Lemma two_digits_table :
  forallb (fun e => forallb (fun f =>
    let s := String (digitChar e) (String (digitChar f) EmptyString) in
    bool_decide (NumberInt s = Some (10 * e + f))
    && negb (occurs "-" s)
    && (if (1 <=? 10 * e + f) && (10 * e + f <=? 12)
        then String.eqb (padStart 2 "0" (showZ (10 * e + f))) s
        else true))
    decimalDigits) decimalDigits = true.
Proof. vm_compute. reflexivity. Qed.

Lemma four_digits (a b c d : Z) :
  0 <= a <= 9 -> 0 <= b <= 9 -> 0 <= c <= 9 -> 0 <= d <= 9 ->
  let s := String (digitChar a) (String (digitChar b)
             (String (digitChar c) (String (digitChar d) EmptyString))) in
  NumberInt s = Some (1000 * a + 100 * b + 10 * c + d) /\
  occurs "-" s = false /\
  (1 <= a -> showZ (1000 * a + 100 * b + 10 * c + d) = s).
Proof.
  intros Ha Hb Hc Hd.
  pose proof four_digits_table as Ht.
  rewrite forallb_forall in Ht. specialize (Ht a (digit_cases a Ha)).
  rewrite forallb_forall in Ht. specialize (Ht b (digit_cases b Hb)).
  rewrite forallb_forall in Ht. specialize (Ht c (digit_cases c Hc)).
  rewrite forallb_forall in Ht. specialize (Ht d (digit_cases d Hd)).
  cbv zeta in Ht |- *.
  apply andb_prop in Ht as [Ht Hshow]. apply andb_prop in Ht as [Hnum Hdash].
  apply bool_decide_eq_true in Hnum. apply negb_true_iff in Hdash.
  split; [exact Hnum|]. split; [exact Hdash|].
  intros H1. destruct (Z.leb_spec 1 a); [|lia]. apply String.eqb_eq, Hshow.
Qed.

Lemma two_digits (e f : Z) :
  0 <= e <= 9 -> 0 <= f <= 9 ->
  let s := String (digitChar e) (String (digitChar f) EmptyString) in
  NumberInt s = Some (10 * e + f) /\
  occurs "-" s = false /\
  (1 <= 10 * e + f <= 12 -> padStart 2 "0" (showZ (10 * e + f)) = s).
Proof.
  intros He Hf.
  pose proof two_digits_table as Ht.
  rewrite forallb_forall in Ht. specialize (Ht e (digit_cases e He)).
  rewrite forallb_forall in Ht. specialize (Ht f (digit_cases f Hf)).
  cbv zeta in Ht |- *.
  apply andb_prop in Ht as [Ht Hshow]. apply andb_prop in Ht as [Hnum Hdash].
  apply bool_decide_eq_true in Hnum. apply negb_true_iff in Hdash.
  split; [exact Hnum|]. split; [exact Hdash|].
  intros Hm.
  destruct (Z.leb_spec 1 (10 * e + f)); [|lia].
  destruct (Z.leb_spec (10 * e + f) 12); [|lia].
  apply String.eqb_eq, Hshow.
Qed.

(** A date in the documented format is taken apart by the aggregator into
    the year and month it states; from year 1000 on, the month key is the
    text of the date up to the day. *)
Lemma yearMonth_isoMonth (s : string) (y m : Z) :
  isoMonth s = Some (y, m) ->
  yearMonth (Some s) = Returns (y, m) /\
  1 <= m <= 12 /\ 0 <= y <= 9999 /\
  (1000 <= y -> monthKeyOf y m = substring 0 7 s).
Proof.
  unfold isoMonth.
  destruct s as [|y1 [|y2 [|y3 [|y4 [|d1 [|m1 [|m2 [|d2 rest]]]]]]]];
    try discriminate.
  destruct (Ascii.eqb_spec d1 "-") as [->|]; [|discriminate].
  destruct (Ascii.eqb_spec d2 "-") as [->|]; [|discriminate].
  cbn [andb].
  destruct (digitOf y1) as [a|] eqn:Ha; [|discriminate].
  destruct (digitOf y2) as [b|] eqn:Hb; [|discriminate].
  destruct (digitOf y3) as [c|] eqn:Hc; [|discriminate].
  destruct (digitOf y4) as [d|] eqn:Hd; [|discriminate].
  destruct (digitOf m1) as [e|] eqn:He; [|discriminate].
  destruct (digitOf m2) as [f|] eqn:Hf; [|discriminate].
  apply digitOf_range in Ha as [Ha ->], Hb as [Hb ->], Hc as [Hc ->],
    Hd as [Hd ->], He as [He ->], Hf as [Hf ->].
  destruct (Z.leb_spec 1 (10 * e + f)) as [Hlo|]; [|discriminate].
  destruct (Z.leb_spec (10 * e + f) 12) as [Hhi|]; [|discriminate].
  cbn [andb]. intros [= <- <-].
  destruct (four_digits a b c d Ha Hb Hc Hd) as (Hy & Hyd & Hys).
  destruct (two_digits e f He Hf) as (Hm & Hmd & Hms).
  cbv zeta in Hy, Hyd, Hys, Hm, Hmd, Hms.
  split; [|split; [lia|split; [lia|]]].
  - unfold yearMonth.
    assert (Hfour : forall c1 c2 c3 c4 rest',
               String c1 (String c2 (String c3 (String c4 (String "-" rest'))))
               = String c1 (String c2 (String c3 (String c4 EmptyString)))
                 +:+ String "-" rest') by reflexivity.
    assert (Htwo : forall c1 c2 rest',
               String c1 (String c2 (String "-" rest'))
               = String c1 (String c2 EmptyString) +:+ String "-" rest')
      by reflexivity.
    rewrite Hfour, Htwo.
    rewrite (split_at_sep _ _ _ Hyd), (split_at_sep _ _ _ Hmd).
    destruct (split "-" rest); rewrite Hy, Hm; reflexivity.
  - intros Hbig. unfold monthKeyOf.
    rewrite Hys by lia. rewrite Hms by lia. reflexivity.
Qed.

Section StatedMonthFacts.
Context {num : Type} `{Arith num}.
Implicit Types (t : CSVTransaction num) (ts : list (CSVTransaction num)).

Lemma monthOf_statedMonth t y m :
  statedMonth t = Some (y, m) -> monthOf t = Some (y, m).
Proof.
  unfold statedMonth, monthOf. destruct (date t) as [s|]; [|discriminate].
  intros Hs. destruct (yearMonth_isoMonth s y m Hs) as [-> _]. reflexivity.
Qed.

Lemma isoDated_wellDated ts : Forall isoDated ts -> Forall wellDated ts.
Proof.
  apply List.Forall_impl. intros t [[y m] Ht].
  exists (y, m). apply monthOf_statedMonth, Ht.
Qed.

Lemma monthOf_isoDated t y m :
  isoDated t -> (monthOf t = Some (y, m) <-> statedMonth t = Some (y, m)).
Proof.
  intros [[y' m'] Ht]. split; [|apply monthOf_statedMonth].
  intros Hm. rewrite (monthOf_statedMonth _ _ _ Ht) in Hm. congruence.
Qed.

Lemma filter_inStatedMonth ts y m :
  Forall isoDated ts ->
  List.filter (inMonth y m) ts = List.filter (inStatedMonth y m) ts.
Proof.
  intros Hiso. apply List.filter_ext_in. intros t Hin.
  pose proof (proj1 (List.Forall_forall _ _) Hiso t Hin) as Ht.
  unfold inMonth, inStatedMonth. apply bool_decide_ext, monthOf_isoDated, Ht.
Qed.

(** What the aggregator returns on dated records, in the aggregator's own
    reading of the dates. *)
Lemma aggregateByMonth_structure ts :
  Forall wellDated ts ->
  exists out,
    aggregateByMonth ts = Returns out /\
    StronglySorted before out /\
    NoDup (map monthKey out) /\
    (forall d, In d out -> monthKey d = monthKeyOf (year d) (month d)) /\
    NoDup (map calendarMonth out) /\
    (forall y m,
        (exists t, In t ts /\ monthOf t = Some (y, m))
        <-> In (y, m) (map calendarMonth out)) /\
    (forall d, In d out ->
       totalIncome d
       = sum (map amount (List.filter isIncome
                            (List.filter (inMonth (year d) (month d)) ts))) /\
       totalExpenses d
       = sum (map amount (List.filter isExpense
                            (List.filter (inMonth (year d) (month d)) ts))) /\
       transactionCount d
       = Z.of_nat (length (List.filter (inMonth (year d) (month d)) ts))).
Proof.
  intros Hw. eexists. split; [apply aggregateByMonth_wellDated, Hw|].
  set (M := fold_left enterTxn ts []).
  destruct (aggregates_keys ts) as [Hk1 Hk2]. fold M in Hk1, Hk2.
  pose proof (keys_fold ts [] NoDup_nil_2) as Hnd. fold M in Hnd.
  pose proof (sortBy_perm compareMonths (map snd M)) as Hperm.
  apply NoDup_ListNoDup in Hnd.
  assert (Hcal : List.NoDup (map calendarMonth (sortBy compareMonths (map snd M)))).
  { eapply Permutation_NoDup;
      [apply Permutation_map; symmetry; exact Hperm|].
    apply (NoDup_map_inv (fun p => monthKeyOf (fst p) (snd p))).
    rewrite map_map. cbn [calendarMonth fst snd].
    rewrite <- Hk1. exact Hnd. }
  apply NoDup_ListNoDup in Hcal.
  split; [apply sorted_strict; [apply sortBy_sorted|exact Hcal]|].
  split.
  { apply NoDup_ListNoDup. eapply Permutation_NoDup;
      [apply Permutation_map; symmetry; exact Hperm|].
    rewrite <- Hk2. exact Hnd. }
  split.
  { intros d Hd. apply In_aggregates in Hd as [k Hk].
    apply summary_Some in Hk. destruct Hk as (-> & ? & _). assumption. }
  split; [exact Hcal|].
  split.
  { intros y m. rewrite in_map_iff. split.
    - intros (t & Hin & Ht).
      destruct (summary_present ts t y m Hin Ht) as (d & Hd & <- & <-).
      exists d. split; [reflexivity|]. apply In_aggregates. eauto.
    - intros (d & Hc & Hd). apply In_aggregates in Hd as [k Hk].
      apply summary_Some in Hk. destruct Hk as (_ & _ & Ht & _).
      unfold calendarMonth in Hc. injection Hc as <- <-. exact Ht. }
  intros d Hd. apply In_aggregates in Hd as [k Hk].
  apply summary_Some in Hk. destruct Hk as (_ & _ & _ & Hi & He & Hc). auto.
Qed.
End StatedMonthFacts.

Lemma NoDup_map_eq {A B : Type} (f : A -> B) (l : list A) (a b : A) :
  List.NoDup (map f l) -> In a l -> In b l -> f a = f b -> a = b.
Proof.
  induction l as [|x l IH]; simpl; intros Hnd Ha Hb Hf; [destruct Ha|].
  inversion Hnd as [|? ? Hx Hnd']; subst.
  destruct Ha as [->|Ha], Hb as [->|Hb].
  - reflexivity.
  - exfalso. apply Hx. rewrite Hf. apply in_map, Hb.
  - exfalso. apply Hx. rewrite <- Hf. apply in_map, Ha.
  - apply IH; assumption.
Qed.

(** C6. For every transaction list whose dates have the documented format
    YYYY-MM-DD, the Monthly Aggregator returns a sequence that is strictly
    increasing in (year, month); its month keys are pairwise distinct; the
    (year, month) pairs of the output are exactly those that the date
    texts of the input state, each once; each key is the key of its own
    (year, month) and, from year 1000 on, the text of its records' dates
    up to the day. *)
Theorem aggregateByMonth_strictly_increasing {num : Type} `{Arith num}
  (transactions : list (CSVTransaction num)) :
  Forall isoDated transactions ->
  exists out,
    aggregateByMonth transactions = Returns out /\
    StronglySorted before out /\
    NoDup (map monthKey out) /\
    NoDup (map calendarMonth out) /\
    (forall y m,
        (exists t, In t transactions /\ statedMonth t = Some (y, m))
        <-> In (y, m) (map calendarMonth out)) /\
    (forall d, In d out -> monthKey d = monthKeyOf (year d) (month d)) /\
    (forall t s y m,
        In t transactions -> date t = Some s -> isoMonth s = Some (y, m) ->
        1000 <= y ->
        exists d, In d out /\ calendarMonth d = (y, m) /\
                  monthKey d = substring 0 7 s).
Proof.
  intros Hiso.
  destruct (aggregateByMonth_structure transactions (isoDated_wellDated _ Hiso))
    as (out & Hrun & Hsorted & Hkeys & Hkey & Hcal & Hmonths & _).
  assert (Hstated : forall y m,
             (exists t, In t transactions /\ statedMonth t = Some (y, m))
             <-> In (y, m) (map calendarMonth out)).
  { intros y m. rewrite <- Hmonths. split; intros (t & Hin & Ht); exists t;
      (split; [exact Hin|]);
      apply (monthOf_isoDated t y m
               (proj1 (List.Forall_forall _ _) Hiso t Hin)); exact Ht. }
  exists out. repeat (split; [assumption|]).
  intros t s y m Hin Hdate Hs Hbig.
  assert (Ht : statedMonth t = Some (y, m)).
  { unfold statedMonth. rewrite Hdate. exact Hs. }
  assert (Hin' : In (y, m) (map calendarMonth out))
    by (apply Hstated; eauto).
  apply in_map_iff in Hin' as (d & Hc & Hd').
  exists d. split; [exact Hd'|]. split; [exact Hc|].
  rewrite (Hkey d Hd'). unfold calendarMonth in Hc. injection Hc as -> ->.
  apply (yearMonth_isoMonth s y m Hs). exact Hbig.
Qed.

Lemma aggregateByMonth_strictly_increasing_witness :
  exists out,
    aggregateByMonth isoLedger = Returns out /\
    StronglySorted before out /\
    NoDup (map monthKey out) /\
    NoDup (map calendarMonth out) /\
    (forall y m,
        (exists t, In t isoLedger /\ statedMonth t = Some (y, m))
        <-> In (y, m) (map calendarMonth out)) /\
    (forall d, In d out -> monthKey d = monthKeyOf (year d) (month d)) /\
    (forall t s y m,
        In t isoLedger -> date t = Some s -> isoMonth s = Some (y, m) ->
        1000 <= y ->
        exists d, In d out /\ calendarMonth d = (y, m) /\
                  monthKey d = substring 0 7 s).
Proof.
  apply (aggregateByMonth_strictly_increasing isoLedger).
  repeat constructor; eexists; vm_compute; reflexivity.
Defined.



(** ** Feature Builder *)

Section FeatureFacts.

Lemma fold_min_le (xs : list Z) (a : Z) :
  fold_left Z.min xs a <= a /\ Forall (fun x => fold_left Z.min xs a <= x) xs.
Proof.
  revert a. induction xs as [|x xs IH]; intros a; simpl.
  - split; [lia|constructor].
  - destruct (IH (Z.min a x)) as [H1 H2]. split; [lia|].
    constructor; [lia|exact H2].
Qed.

Lemma fold_max_ge (xs : list Z) (a : Z) :
  a <= fold_left Z.max xs a /\ Forall (fun x => x <= fold_left Z.max xs a) xs.
Proof.
  revert a. induction xs as [|x xs IH]; intros a; simpl.
  - split; [lia|constructor].
  - destruct (IH (Z.max a x)) as [H1 H2]. split; [lia|].
    constructor; [lia|exact H2].
Qed.

Lemma lookbackWindow_length {A} (l : list A) (i : nat) :
  (i < length l)%nat ->
  length (lookbackWindow l i (Nat.min i 3)) = Nat.min i 3.
Proof.
  intros Hi. unfold lookbackWindow.
  rewrite length_firstn, length_skipn. lia.
Qed.

Lemma lookbackWindow_Forall {A} (P : A -> Prop) (l : list A) (i lookback : nat) :
  Forall P l -> Forall P (lookbackWindow l i lookback).
Proof.
  intros Hl. unfold lookbackWindow. apply Forall_take, Forall_drop, Hl.
Qed.

Lemma Forall_map_iff {A B} (f : A -> B) (P : B -> Prop) (l : list A) :
  Forall P (map f l) <-> Forall (fun x => P (f x)) l.
Proof.
  induction l as [|x l IH]; simpl.
  - split; constructor.
  - rewrite !Forall_cons, IH. reflexivity.
Qed.

End FeatureFacts.

Lemma createFeatures_nonempty {num : Type} `{Arith num}
  (monthlyData : list (MonthlyData num)) :
  monthlyData <> [] -> exists fs, createFeatures monthlyData = Returns fs.
Proof.
  destruct monthlyData as [|first others]; [congruence|].
  intros _. eexists. reflexivity.
Qed.

(** ** Doubles

    What the bounds on the features need of IEEE-754 arithmetic, from the
    specification of the primitive floats: comparison is the order of an
    integer rank; rounding a value between 0 and 1 gives a double between
    0 and 1; sums and quotients of non-negative doubles are non-negative;
    integers below 2^53 are doubles. *)

Module DoubleFacts.
Import FloatAxioms Binary64 F64Reading.

Local Abbreviation fexp64 := (SpecFloat.fexp prec emax).

Lemma digits2_pos_size p : digits2_pos p = Pos.size p.
Proof. induction p; simpl; congruence. Qed.

Lemma Zdigits2_bounds p :
  2 ^ (Zpos (digits2_pos p) - 1) <= Zpos p < 2 ^ Zpos (digits2_pos p).
Proof.
  rewrite digits2_pos_size. split.
  - pose proof (Pos.size_le p) as Hle.
    assert (H2 : 2 ^ Zpos (Pos.size p) <= 2 * Zpos p).
    { change (2 * Zpos p) with (Zpos p~0). rewrite <- Pos2Z.inj_pow. apply Pos2Z.pos_le_pos. exact Hle. }
    replace (Zpos (Pos.size p)) with (Z.succ (Zpos (Pos.size p) - 1)) in H2 by lia.
    rewrite Z.pow_succ_r in H2 by lia. lia.
  - pose proof (Pos.size_gt p) as Hgt.
    rewrite <- Pos2Z.inj_pow. apply Pos2Z.pos_lt_pos. exact Hgt.
Qed.

(** If [p <= 2^k] then it has at most [k + 1] digits. *)
Lemma digits_le_pow p k : 0 <= k -> Zpos p <= 2 ^ k -> Zpos (digits2_pos p) <= k + 1.
Proof.
  intros Hk Hp. pose proof (Zdigits2_bounds p) as [Hlo _].
  destruct (Z.le_gt_cases (Zpos (digits2_pos p)) (k + 1)) as [|Hgt]; [assumption|].
  exfalso. assert (2 ^ (k + 1) <= 2 ^ (Zpos (digits2_pos p) - 1)) by (apply Z.pow_le_mono_r; lia).
  rewrite Z.pow_add_r in H by lia. lia.
Qed.

Lemma digits_lt_pow p k : 0 <= k -> Zpos p < 2 ^ k -> Zpos (digits2_pos p) <= k.
Proof.
  intros Hk Hp. pose proof (Zdigits2_bounds p) as [Hlo _].
  destruct (Z.le_gt_cases (Zpos (digits2_pos p)) k) as [|Hgt]; [assumption|].
  exfalso. assert (2 ^ k <= 2 ^ (Zpos (digits2_pos p) - 1)) by (apply Z.pow_le_mono_r; lia).
  lia.
Qed.

Lemma shr_1_under k mrs : 1 <= k -> under k mrs -> under (k - 1) (shr_1 mrs).
Proof.
  intros Hk [[Hlo Hhi] Hex]. destruct mrs as [m r s]. cbn [shr_m shr_r shr_s] in *.
  assert (Hpow : 2 ^ k = 2 * 2 ^ (k - 1)).
  { replace k with (Z.succ (k - 1)) at 1 by lia. apply Z.pow_succ_r. lia. }
  assert (Hpos : 0 < 2 ^ (k - 1)) by (apply Z.pow_pos_nonneg; lia).
  unfold under, shr_1. destruct m as [|[p|p|]|p]; cbn [shr_m shr_r shr_s]; try lia.
  split; [lia|]. intros Heq. destruct Hex as [-> ->]; [lia|]. split; reflexivity.
Qed.

Lemma iter_shr_1_under p : forall k mrs,
  Zpos p <= k -> under k mrs -> under (k - Zpos p) (SpecFloat.iter_pos shr_1 p mrs).
Proof.
  induction p as [p IH|p IH|]; intros k mrs Hk Hu; cbn [SpecFloat.iter_pos].
  - replace (k - Zpos p~1) with (k - 1 - Zpos p - Zpos p) by lia.
    apply IH; [lia|]. apply IH; [lia|]. apply shr_1_under; [lia|exact Hu].
  - replace (k - Zpos p~0) with (k - Zpos p - Zpos p) by lia.
    apply IH; [lia|]. apply IH; [lia|exact Hu].
  - apply shr_1_under; [lia|exact Hu].
Qed.

Lemma fexp_le k : k <= 1 -> fexp64 k <= -52.
Proof. unfold SpecFloat.fexp, SpecFloat.emin, prec, emax. lia. Qed.

(** [shr_fexp] keeps a value under 1 under 1. *)
Lemma shr_fexp_under m e l :
  e <= 0 -> 0 <= m <= 2 ^ (- e) -> (m = 2 ^ (- e) -> l = loc_Exact) ->
  let '(mrs, e') := shr_fexp prec emax m e l in
  e' <= 0 /\ under (- e') mrs.
Proof.
  intros He Hm Hex. unfold shr_fexp, shr.
  assert (Hu : under (- e) (shr_record_of_loc m l)).
  { split.
    - destruct l as [|[]]; exact Hm.
    - intros Heq. destruct l as [|[]]; cbn [shr_m] in Heq;
        try (specialize (Hex Heq); discriminate). split; reflexivity. }
  destruct (fexp64 (Zdigits2 m + e) - e) as [|n|n] eqn:Hn; try (split; [lia|exact Hu]).
  assert (Hf : fexp64 (Zdigits2 m + e) <= 0).
  { destruct m as [|p|p]; cbn [Zdigits2].
    - pose proof (fexp_le (0 + e)). lia.
    - pose proof (digits_le_pow p (- e)). pose proof (fexp_le (Zpos (digits2_pos p) + e)). lia.
    - lia. }
  split; [lia|].
  replace (- (e + Zpos n)) with (- e - Zpos n) by lia.
  apply iter_shr_1_under; [lia|exact Hu].
Qed.

Lemma round_nearest_even_under k mrs :
  under k mrs ->
  0 <= round_nearest_even (shr_m mrs) (loc_of_shr_record mrs) <= 2 ^ k.
Proof.
  intros [[Hlo Hhi] Hex]. destruct mrs as [m r s]. cbn [shr_m shr_r shr_s] in *.
  destruct (Z.eq_dec m (2 ^ k)) as [Heq|Hne].
  - destruct (Hex Heq) as [-> ->]. cbn. lia.
  - destruct r, s; cbn; try lia. destruct (Z.even m); lia.
Qed.

(** Rounding a value between 0 and 1 gives a double between 0 and 1. *)
Lemma binary_round_aux_under m e l :
  e <= 0 -> 0 <= m <= 2 ^ (- e) -> (m = 2 ^ (- e) -> l = loc_Exact) ->
  match binary_round_aux prec emax false m e l with
  | S754_zero false => True
  | S754_finite false m' e' => e' <= 0 /\ Zpos m' <= 2 ^ (- e')
  | _ => False
  end.
Proof.
  intros He Hm Hex. unfold binary_round_aux.
  pose proof (shr_fexp_under m e l He Hm Hex) as H1.
  destruct (shr_fexp prec emax m e l) as [mrs1 e1]. destruct H1 as [He1 Hu1].
  pose proof (round_nearest_even_under _ _ Hu1) as Hr.
  set (m2 := round_nearest_even (shr_m mrs1) (loc_of_shr_record mrs1)) in *.
  pose proof (shr_fexp_under m2 e1 loc_Exact He1 Hr (fun _ => eq_refl)) as H2.
  destruct (shr_fexp prec emax m2 e1 loc_Exact) as [mrs2 e2]. destruct H2 as [He2 [[Hlo Hhi] _]].
  destruct (shr_m mrs2) as [|p|p]; [exact I| |lia].
  destruct (Z.leb_spec e2 (emax - prec)) as [_|Hbig].
  - split; assumption.
  - unfold emax, prec in Hbig. lia.
Qed.

Lemma valid_finite s m e :
  valid_binary (S754_finite s m e) = true ->
  -1074 <= e <= 971 /\ Zpos m < 9007199254740992 /\
  (e = -1074 \/ 4503599627370496 <= Zpos m).
Proof.
  unfold SpecFloat.valid_binary, bounded, canonical_mantissa.
  intros Hv. apply andb_prop in Hv as [Hc He].
  apply Z.eqb_eq in Hc. apply Z.leb_le in He.
  unfold SpecFloat.fexp, SpecFloat.emin, prec, emax in *.
  pose proof (Zdigits2_bounds m) as [Hlo Hhi].
  assert (Hd : Zpos (digits2_pos m) <= 53) by lia.
  assert (Hp : 2 ^ Zpos (digits2_pos m) <= 2 ^ 53) by (apply Z.pow_le_mono_r; lia).
  change (2 ^ 53) with 9007199254740992 in Hp.
  split; [lia|]. split; [lia|].
  destruct (Z.eq_dec e (-1074)) as [|Hne]; [left; assumption|right].
  assert (Hd' : Zpos (digits2_pos m) = 53) by lia.
  rewrite Hd' in Hlo. change (2 ^ (53 - 1)) with 4503599627370496 in Hlo. lia.
Qed.

Lemma SFcompare_rank x y :
  valid_binary x = true -> valid_binary y = true -> notNaN x -> notNaN y ->
  SFcompare x y = Some (rank x ?= rank y).
Proof.
  intros Hx Hy Nx Ny.
  destruct x as [sx|sx| |sx mx ex]; [| |destruct Nx|];
    destruct y as [sy|sy| |sy my ey]; try destruct Ny;
    try (apply valid_finite in Hx as (Hex & Hmx & _));
    try (apply valid_finite in Hy as (Hey & Hmy & _));
    cbn [SFcompare rank];
    try (destruct sx); try (destruct sy); cbv zeta;
    try reflexivity;
    try (f_equal; symmetry;
         first [apply Z.compare_lt_iff; lia | apply Z.compare_gt_iff; lia
               | apply Z.compare_eq_iff; lia]).
  - f_equal. change (Pos.compare_cont Eq mx my) with (Pos.compare mx my).
    destruct (Z.compare_spec ex ey) as [->|Hlt|Hgt].
    + destruct (Pos.compare_spec mx my); cbn [CompOpp]; symmetry;
        [apply Z.compare_eq_iff|apply Z.compare_gt_iff|apply Z.compare_lt_iff]; lia.
    + symmetry. apply Z.compare_gt_iff. lia.
    + symmetry. apply Z.compare_lt_iff. lia.
  - f_equal. change (Pos.compare_cont Eq mx my) with (Pos.compare mx my).
    destruct (Z.compare_spec ex ey) as [->|Hlt|Hgt].
    + destruct (Pos.compare_spec mx my); symmetry;
        [apply Z.compare_eq_iff|apply Z.compare_lt_iff|apply Z.compare_gt_iff]; lia.
    + symmetry. apply Z.compare_lt_iff. lia.
    + symmetry. apply Z.compare_gt_iff. lia.
Qed.

Lemma is_nan_spec (x : float) : is_nan x = false <-> notNaN (Prim2SF x).
Proof.
  unfold is_nan. rewrite eqb_spec. unfold SFeqb.
  pose proof (Prim2SF_valid x) as Hv.
  destruct (Prim2SF x) as [s|s| |s m e] eqn:Hx; cbn [notNaN].
  - cbn. tauto.
  - destruct s; cbn; tauto.
  - cbn. split; [discriminate|tauto].
  - rewrite (SFcompare_rank _ _ Hv Hv I I), Z.compare_refl. cbn. tauto.
Qed.

Lemma SFleb_rank x y :
  valid_binary x = true -> valid_binary y = true ->
  SFleb x y = true <-> notNaN x /\ notNaN y /\ rank x <= rank y.
Proof.
  intros Hx Hy. unfold SFleb.
  destruct x as [sx|sx| |sx mx ex]; destruct y as [sy|sy| |sy my ey].
  all: try (cbn [SFcompare notNaN]; split; [discriminate|tauto]).
  all: try (destruct sx; cbn [SFcompare notNaN]; split; [discriminate|tauto]).
  all: rewrite (SFcompare_rank _ _ Hx Hy I I).
  all: match goal with
       | |- context [?a ?= ?b] => destruct (Z.compare_spec a b) as [H|H|H]
       end.
  all: split; [intros Hc|intros (_ & _ & Hr)];
       first [discriminate | reflexivity | lia | (repeat split; lia)].
Qed.

Lemma SFltb_rank x y :
  valid_binary x = true -> valid_binary y = true ->
  SFltb x y = true <-> notNaN x /\ notNaN y /\ rank x < rank y.
Proof.
  intros Hx Hy. unfold SFltb.
  destruct x as [sx|sx| |sx mx ex]; destruct y as [sy|sy| |sy my ey].
  all: try (cbn [SFcompare notNaN]; split; [discriminate|tauto]).
  all: try (destruct sx; cbn [SFcompare notNaN]; split; [discriminate|tauto]).
  all: rewrite (SFcompare_rank _ _ Hx Hy I I).
  all: match goal with
       | |- context [?a ?= ?b] => destruct (Z.compare_spec a b) as [H|H|H]
       end.
  all: split; [intros Hc|intros (_ & _ & Hr)];
       first [discriminate | reflexivity | lia | (repeat split; lia)].
Qed.

Lemma leb_rank (x y : float) :
  (x <=? y)%float = true <->
  notNaN (Prim2SF x) /\ notNaN (Prim2SF y) /\ rank (Prim2SF x) <= rank (Prim2SF y).
Proof. rewrite leb_spec. apply SFleb_rank; apply Prim2SF_valid. Qed.

Lemma ltb_rank (x y : float) :
  (x <? y)%float = true <->
  notNaN (Prim2SF x) /\ notNaN (Prim2SF y) /\ rank (Prim2SF x) < rank (Prim2SF y).
Proof. rewrite ltb_spec. apply SFltb_rank; apply Prim2SF_valid. Qed.

Lemma iter_pos_invariant {A : Type} (I : A -> Prop) (f : A -> A) (p : positive) :
  (forall x, I x -> I (f x)) -> forall x, I x -> I (SpecFloat.iter_pos f p x).
Proof.
  intros Hf. induction p as [p IH|p IH|]; intros x Hx; cbn [SpecFloat.iter_pos]; auto.
Qed.

Lemma shr_1_nonneg mrs : 0 <= shr_m mrs -> 0 <= shr_m (shr_1 mrs).
Proof.
  destruct mrs as [m r s]. cbn [shr_m]. unfold shr_1.
  destruct m as [|[p|p|]|p]; cbn [shr_m]; lia.
Qed.

Lemma shr_fexp_nonneg m e l :
  0 <= m -> 0 <= shr_m (fst (shr_fexp prec emax m e l)).
Proof.
  intros Hm. unfold shr_fexp, shr.
  assert (H0 : 0 <= shr_m (shr_record_of_loc m l)) by (destruct l as [|[]]; exact Hm).
  destruct (fexp64 (Zdigits2 m + e) - e); cbn [fst]; try exact H0.
  apply (iter_pos_invariant (fun mrs => 0 <= shr_m mrs)); [apply shr_1_nonneg|exact H0].
Qed.

Lemma round_nearest_even_nonneg m l : 0 <= m -> 0 <= round_nearest_even m l.
Proof.
  intros Hm. destruct l as [|[]]; cbn; try lia. destruct (Z.even m); lia.
Qed.

Lemma binary_round_aux_nonneg m e l :
  0 <= m -> nonNegative (binary_round_aux prec emax false m e l).
Proof.
  intros Hm. unfold binary_round_aux.
  pose proof (shr_fexp_nonneg m e l Hm) as H1.
  destruct (shr_fexp prec emax m e l) as [mrs1 e1]. cbn [fst] in H1.
  pose proof (round_nearest_even_nonneg _ (loc_of_shr_record mrs1) H1) as Hr.
  pose proof (shr_fexp_nonneg _ e1 loc_Exact Hr) as H2.
  destruct (shr_fexp prec emax _ e1 loc_Exact) as [mrs2 e2]. cbn [fst] in H2.
  destruct (shr_m mrs2) as [|p|p]; [exact I| |lia].
  destruct (e2 <=? emax - prec); exact I.
Qed.

Lemma SFdiv_core_quotient mx ex my ey :
  let '(q, e', l) := SFdiv_core_binary prec emax (Zpos mx) ex (Zpos my) ey in
  exists s r,
    0 <= s /\ s = ex - ey - e' /\ e' <= ex - ey /\
    Zpos mx * 2 ^ s = Zpos my * q + r /\ 0 <= r < Zpos my /\
    l = new_location (Zpos my) r.
Proof.
  unfold SFdiv_core_binary. cbv zeta.
  set (e' := Z.min _ (ex - ey)).
  assert (He' : e' <= ex - ey) by (unfold e'; lia).
  set (m' := match ex - ey - e' with Z0 => Zpos mx | Zpos _ => Z.shiftl (Zpos mx) (ex - ey - e') | Zneg _ => 0 end).
  assert (Hm' : m' = Zpos mx * 2 ^ (ex - ey - e')).
  { unfold m'. destruct (ex - ey - e') as [|s|s] eqn:Hs; [ |apply Z.shiftl_mul_pow2; lia|lia].
    rewrite Z.pow_0_r. lia. }
  pose proof (Z_div_mod m' (Zpos my) eq_refl) as Hdiv.
  destruct (Z.div_eucl m' (Zpos my)) as [q r]. destruct Hdiv as [Heq Hr].
  exists (ex - ey - e'), r. repeat split; try lia.
Qed.

Lemma new_location_zero n : new_location n 0 = loc_Exact.
Proof.
  unfold new_location, new_location_even, new_location_odd.
  destruct (Z.even n); reflexivity.
Qed.

(** The quotient of two positive doubles, the first not above the second,
    is a double between 0 and 1. *)
Lemma SFdiv_under mx ex my ey :
  valid_binary (S754_finite false mx ex) = true ->
  valid_binary (S754_finite false my ey) = true ->
  rank (S754_finite false mx ex) <= rank (S754_finite false my ey) ->
  match SFdiv prec emax (S754_finite false mx ex) (S754_finite false my ey) with
  | S754_zero false => True
  | S754_finite false m e => e <= 0 /\ Zpos m <= 2 ^ (- e)
  | _ => False
  end.
Proof.
  intros Hx Hy Hr. cbn [rank] in Hr. cbv zeta in Hr.
  apply valid_finite in Hx as (Hex & Hmx & _).
  apply valid_finite in Hy as (Hey & Hmy & Hny).
  assert (Hle : ex <= ey) by lia.
  assert (Hm : Zpos mx <= Zpos my * 2 ^ (ey - ex)).
  { destruct (Z.eq_dec ex ey) as [->|Hne].
    - rewrite Z.sub_diag, Z.pow_0_r. lia.
    - assert (2 ^ 1 <= 2 ^ (ey - ex)) by (apply Z.pow_le_mono_r; lia).
      change (2 ^ 1) with 2 in *. nia. }
  cbn [SFdiv xorb].
  pose proof (SFdiv_core_quotient mx ex my ey) as Hq.
  destruct (SFdiv_core_binary prec emax (Zpos mx) ex (Zpos my) ey) as [[q e'] l].
  destruct Hq as (s & r & Hs0 & Hs & He' & Heq & Hrr & ->).
  assert (Hpow : 2 ^ (- e') = 2 ^ s * 2 ^ (ey - ex)).
  { rewrite <- Z.pow_add_r by lia. f_equal. lia. }
  assert (Hs2 : 0 < 2 ^ s) by (apply Z.pow_pos_nonneg; lia).
  assert (Hbound : Zpos my * q + r <= Zpos my * 2 ^ (- e')).
  { rewrite <- Heq, Hpow. nia. }
  assert (Hq0 : 0 <= q) by nia.
  assert (Hq1 : q <= 2 ^ (- e')) by nia.
  apply binary_round_aux_under; [lia|lia|].
  intros Hqe. assert (r = 0) by nia. subst r. apply new_location_zero.
Qed.

Lemma under_le_one m e :
  valid_binary (S754_finite false m e) = true ->
  e <= 0 -> Zpos m <= 2 ^ (- e) ->
  rank (S754_finite false m e) <= rank (S754_finite false 4503599627370496 (-52)).
Proof.
  intros Hv He Hm. apply valid_finite in Hv as (Hev & Hmv & Hnv).
  cbn [rank]. cbv zeta.
  destruct (Z_le_gt_dec e (-53)) as [|Hgt]; [lia|].
  destruct (Z.eq_dec e (-52)) as [->|Hne].
  - change (2 ^ (- -52)) with 4503599627370496 in Hm. lia.
  - exfalso. assert (2 ^ (- e) <= 2 ^ 51) by (apply Z.pow_le_mono_r; lia).
    change (2 ^ 51) with 2251799813685248 in *. lia.
Qed.

(** *** On primitive floats *)

Lemma Prim2SF_zero : Prim2SF 0%float = S754_zero false.
Proof. reflexivity. Qed.

Lemma Prim2SF_one : Prim2SF 1%float = S754_finite false 4503599627370496 (-52).
Proof. reflexivity. Qed.

Lemma Prim2SF_infinity : Prim2SF infinity = S754_infinity false.
Proof. reflexivity. Qed.

Lemma is_finite_spec (x : float) :
  is_finite x = true ->
  match Prim2SF x with
  | S754_zero _ | S754_finite _ _ _ => True
  | _ => False
  end.
Proof.
  unfold is_finite. intros Hf. apply negb_true_iff, orb_false_iff in Hf as [Hn Hi].
  apply is_nan_spec in Hn. unfold is_infinity in Hi.
  rewrite eqb_spec, abs_spec, Prim2SF_infinity in Hi.
  destruct (Prim2SF x) as [s|s| |s m e]; try exact I; try destruct Hn.
  cbn in Hi. discriminate.
Qed.

Lemma amountOk_spec (x : float) :
  amountOk x = true ->
  match Prim2SF x with
  | S754_zero _ | S754_finite false _ _ => True
  | _ => False
  end.
Proof.
  unfold amountOk. intros H. apply andb_prop in H as [Hf Hp].
  apply is_finite_spec in Hf. apply leb_rank in Hp as (_ & _ & Hr).
  rewrite Prim2SF_zero in Hr. cbn [rank] in Hr.
  pose proof (Prim2SF_valid x) as Hv.
  destruct (Prim2SF x) as [s|s| |[] m e]; try exact I; try destruct Hf.
  apply valid_finite in Hv as (He & _). cbn [rank] in Hr. cbv zeta in Hr. lia.
Qed.

(** A non-negative finite double over a larger positive finite double is
    between 0 and 1. *)
Lemma div_unit (x y : float) :
  amountOk x = true -> amountOk y = true ->
  (x <=? y)%float = true -> (0 <? y)%float = true ->
  (0 <=? x / y)%float = true /\ (x / y <=? 1)%float = true.
Proof.
  intros Hx Hy Hle Hpos.
  apply amountOk_spec in Hx, Hy.
  apply leb_rank in Hle as (_ & _ & Hle).
  apply ltb_rank in Hpos as (_ & _ & Hpos). rewrite Prim2SF_zero in Hpos.
  pose proof (Prim2SF_valid x) as Vx. pose proof (Prim2SF_valid y) as Vy.
  pose proof (Prim2SF_valid (x / y)) as Vq.
  rewrite !leb_rank, Prim2SF_zero, Prim2SF_one.
  rewrite div_spec in *. unfold SF64div in *.
  destruct (Prim2SF y) as [sy|sy| |[] my ey]; try (exfalso; exact Hy);
    [cbn [rank] in Hpos; lia|].
  destruct (Prim2SF x) as [sx|sx| |[] mx ex]; try (exfalso; exact Hx).
  - cbn [SFdiv xorb rank notNaN]. cbv zeta. repeat split; lia.
  - pose proof (SFdiv_under mx ex my ey Vx Vy Hle) as Hu.
    destruct (SFdiv prec emax (S754_finite false mx ex) (S754_finite false my ey))
      as [[]|[]| |[] m e]; try (exfalso; exact Hu).
    + cbn [rank notNaN]. cbv zeta. repeat split; lia.
    + destruct Hu as [He Hm].
      pose proof (under_le_one m e Vq He Hm) as H1.
      pose proof (valid_finite _ _ _ Vq) as (Hev & _).
      cbn [rank notNaN] in *. cbv zeta in *. repeat split; lia.
Qed.

Lemma nonNegative_leb (x : float) :
  (0 <=? x)%float = true <-> nonNegative (Prim2SF x).
Proof.
  rewrite leb_rank, Prim2SF_zero. cbn [rank notNaN].
  pose proof (Prim2SF_valid x) as Hv.
  destruct (Prim2SF x) as [s|[]| |[] m e]; cbn [rank nonNegative notNaN]; cbv zeta;
    try (apply valid_finite in Hv as (He & Hm & _)); try tauto;
    split; try tauto; try (intros (_ & _ & Hr); lia); intros _; repeat split; lia.
Qed.

Lemma amountOk_intro (x : float) :
  match Prim2SF x with
  | S754_zero _ | S754_finite false _ _ => True
  | _ => False
  end -> amountOk x = true.
Proof.
  intros Hx. unfold amountOk. apply andb_true_intro. split.
  - unfold is_finite. apply negb_true_iff, orb_false_iff. split.
    + apply is_nan_spec. destruct (Prim2SF x); try exact I. destruct Hx.
    + unfold is_infinity. rewrite eqb_spec, abs_spec, Prim2SF_infinity.
      destruct (Prim2SF x) as [s|s| |s m e]; try reflexivity; destruct Hx.
  - apply nonNegative_leb. destruct (Prim2SF x) as [s|s| |[] m e]; try exact I; destruct Hx.
Qed.

(** Sums and quotients of non-negative doubles are non-negative doubles
    (possibly infinite, never NaN). *)
Lemma add_nonneg (x y : float) :
  (0 <=? x)%float = true -> (0 <=? y)%float = true -> (0 <=? x + y)%float = true.
Proof.
  rewrite !nonNegative_leb, add_spec. unfold SF64add. intros Hx Hy.
  destruct (Prim2SF x) as [sx|[]| |[] mx ex]; try (exfalso; exact Hx);
    destruct (Prim2SF y) as [sy|[]| |[] my ey]; try (exfalso; exact Hy);
    try exact I; try (destruct sx, sy; exact I).
  cbn [SFadd cond_Zopp]. unfold binary_normalize.
  destruct (shl_align mx ex (Z.min ex ey)) as [a ea].
  destruct (shl_align my ey (Z.min ex ey)) as [b eb]. cbn [fst Z.add].
  unfold binary_round.
  match goal with
  | |- context [match ?u + ?v with _ => _ end] =>
      change (u + v) with (Zpos (a + b))
  end.
  cbv iota beta.
  match goal with
  | |- context [shl_align ?m ?e ?e'] => destruct (shl_align m e e') as [mz ez]
  end.
  apply binary_round_aux_nonneg. lia.
Qed.

Lemma div_nonneg (x y : float) :
  (0 <=? x)%float = true -> amountOk y = true -> (0 <? y)%float = true ->
  (0 <=? x / y)%float = true.
Proof.
  intros Hx Hy Hpos. apply amountOk_spec in Hy.
  apply ltb_rank in Hpos as (_ & _ & Hpos). rewrite Prim2SF_zero in Hpos.
  revert Hx. rewrite !nonNegative_leb, div_spec. unfold SF64div.
  destruct (Prim2SF y) as [sy|sy| |[] my ey]; try (exfalso; exact Hy);
    [cbn [rank] in Hpos; lia|].
  intros Hx.
  destruct (Prim2SF x) as [sx|[]| |[] mx ex]; try (exfalso; exact Hx);
    try exact I.
  cbn [SFdiv xorb].
  pose proof (SFdiv_core_quotient mx ex my ey) as Hq.
  destruct (SFdiv_core_binary prec emax (Zpos mx) ex (Zpos my) ey) as [[q e'] l].
  destruct Hq as (s & r & Hs0 & Hs & He' & Heq & Hrr & ->).
  apply binary_round_aux_nonneg.
  assert (0 < 2 ^ s) by (apply Z.pow_pos_nonneg; lia). nia.
Qed.

(** *** Integers as doubles *)

Lemma iter_xO p n :
  Zpos (Pos.iter xO p n) = Zpos p * 2 ^ Zpos n /\
  digits2_pos (Pos.iter xO p n) = (digits2_pos p + n)%positive.
Proof.
  induction n as [|n [IHv IHd]] using Pos.peano_ind.
  - cbn. split; [lia|]. lia.
  - rewrite Pos.iter_succ. cbn [digits2_pos]. rewrite IHd. split; [|lia].
    rewrite Pos2Z.inj_xO, IHv, Pos2Z.inj_succ, Z.pow_succ_r by lia. lia.
Qed.

Lemma binary_round_aux_exact mz ez :
  Zpos (digits2_pos mz) = 53 -> -1074 <= ez <= 971 ->
  binary_round_aux prec emax false (Zpos mz) ez loc_Exact = S754_finite false mz ez.
Proof.
  intros Hd He. unfold binary_round_aux, shr_fexp. cbn [Zdigits2 shr_record_of_loc].
  rewrite Hd.
  assert (Hf : fexp64 (53 + ez) - ez = 0).
  { unfold SpecFloat.fexp, SpecFloat.emin, prec, emax. lia. }
  rewrite Hf. cbn [shr shr_m loc_of_shr_record round_nearest_even Zdigits2].
  rewrite Hd, Hf. cbn [shr shr_m].
  destruct (Z.leb_spec ez (emax - prec)) as [|Hgt]; [reflexivity|].
  unfold emax, prec in Hgt. lia.
Qed.

(** An integer from 1 to 2^53 - 1 is a double, exactly. *)
Lemma fromZ_pos (p : positive) :
  Zpos p < 2 ^ 53 ->
  exists mz,
    Prim2SF (F64.fromZ (Zpos p)) = S754_finite false mz (Zpos (digits2_pos p) - 53) /\
    Zpos mz = Zpos p * 2 ^ (53 - Zpos (digits2_pos p)).
Proof.
  intros Hp. pose proof (digits_lt_pow p 53 ltac:(lia) Hp) as Hd.
  unfold F64.fromZ, binary_normalize, binary_round, shl_align.
  assert (Hf : fexp64 (Zpos (digits2_pos p) + 0) = Zpos (digits2_pos p) - 53).
  { unfold SpecFloat.fexp, SpecFloat.emin, prec, emax. lia. }
  rewrite Hf, Z.sub_0_r.
  destruct (Zpos (digits2_pos p) - 53) as [|n|n] eqn:Hn; [ |lia| ].
  - exists p. rewrite binary_round_aux_exact by lia.
    rewrite Prim2SF_SF2Prim.
    + split; [reflexivity|]. replace (53 - Zpos (digits2_pos p)) with 0 by lia.
      rewrite Z.pow_0_r. lia.
    + unfold SpecFloat.valid_binary, bounded, canonical_mantissa.
      replace (Zpos (digits2_pos p)) with 53 by lia. reflexivity.
  - destruct (iter_xO p n) as [Hv Hdg].
    exists (Pos.iter xO p n).
    assert (Hd53 : Zpos (digits2_pos (Pos.iter xO p n)) = 53) by (rewrite Hdg; lia).
    rewrite binary_round_aux_exact by lia.
    rewrite Prim2SF_SF2Prim.
    + split; [reflexivity|]. rewrite Hv. f_equal. f_equal. lia.
    + unfold SpecFloat.valid_binary, bounded, canonical_mantissa.
      rewrite Hd53. unfold SpecFloat.fexp, SpecFloat.emin, prec, emax.
      apply andb_true_intro. split; [apply Z.eqb_eq|apply Z.leb_le]; lia.
Qed.

Lemma fromZ_zero : F64.fromZ 0 = 0%float.
Proof. reflexivity. Qed.

Lemma fromZ_amountOk (z : Z) : 0 <= z < 2 ^ 53 -> amountOk (F64.fromZ z) = true.
Proof.
  intros Hz. destruct z as [|p|p]; [reflexivity| |lia].
  destruct (fromZ_pos p) as (mz & Hs & _); [lia|].
  apply amountOk_intro. rewrite Hs. exact I.
Qed.

Lemma fromZ_positive (z : Z) : 0 < z < 2 ^ 53 -> (0 <? F64.fromZ z)%float = true.
Proof.
  intros Hz. destruct z as [|p|p]; try lia.
  destruct (fromZ_pos p) as (mz & Hs & _); [lia|].
  pose proof (Prim2SF_valid (F64.fromZ (Zpos p))) as Hv.
  apply ltb_rank. rewrite Prim2SF_zero, Hs in *. cbn [rank notNaN]. cbv zeta.
  apply valid_finite in Hv as (He & _). repeat split; lia.
Qed.

Lemma fromZ_monotone (a b : Z) :
  0 <= a <= b -> b < 2 ^ 53 -> (F64.fromZ a <=? F64.fromZ b)%float = true.
Proof.
  intros Hab Hb. apply leb_rank.
  destruct b as [|q|q]; [| |lia].
  { assert (a = 0) by lia. subst a. cbn. repeat split; lia. }
  destruct (fromZ_pos q Hb) as (mq & Hsq & Hvq).
  pose proof (Prim2SF_valid (F64.fromZ (Zpos q))) as Vq.
  rewrite Hsq in *. apply valid_finite in Vq as (Heq & Hmq & _).
  destruct a as [|p|p]; [| |lia].
  { rewrite fromZ_zero, Prim2SF_zero. cbn [rank notNaN]. cbv zeta. repeat split; lia. }
  destruct (fromZ_pos p ltac:(lia)) as (mp & Hsp & Hvp).
  pose proof (Prim2SF_valid (F64.fromZ (Zpos p))) as Vp.
  rewrite Hsp in *. apply valid_finite in Vp as (Hep & Hmp & _).
  cbn [rank notNaN]. cbv zeta. split; [exact I|]. split; [exact I|].
  pose proof (Zdigits2_bounds q) as [_ Hq2].
  pose proof (digits_lt_pow q 53 ltac:(lia) Hb) as Hdq.
  assert (Hdd : Zpos (digits2_pos p) <= Zpos (digits2_pos q)).
  { apply digits_lt_pow; lia. }
  destruct (Z.eq_dec (Zpos (digits2_pos p)) (Zpos (digits2_pos q))) as [Heq'|Hne].
  - rewrite Heq' in *.
    assert (0 < 2 ^ (53 - Zpos (digits2_pos q))) by (apply Z.pow_pos_nonneg; lia).
    nia.
  - lia.
Qed.

Lemma amountOk_nonneg (x : float) : amountOk x = true -> (0 <=? x)%float = true.
Proof. unfold amountOk. intros H. apply andb_prop in H as [_ H]. exact H. Qed.

Lemma amountOk_notNaN (x : float) : amountOk x = true -> is_nan x = false.
Proof.
  intros H. apply amountOk_nonneg, leb_rank in H as (_ & H & _).
  apply is_nan_spec, H.
Qed.

Lemma float_leb_trans (x y z : float) :
  (x <=? y)%float = true -> (y <=? z)%float = true -> (x <=? z)%float = true.
Proof. rewrite !leb_rank. intros (? & ? & ?) (? & ? & ?). repeat split; try assumption. lia. Qed.

Lemma float_leb_refl (x : float) : is_nan x = false -> (x <=? x)%float = true.
Proof. intros H. apply is_nan_spec in H. apply leb_rank. repeat split; try assumption. lia. Qed.

(** [Math.max] of two numbers that are not NaN is one of them, and is
    not below either. *)
Lemma maximum_spec (a b : float) :
  is_nan a = false -> is_nan b = false ->
  (F64.maximum a b = a \/ F64.maximum a b = b) /\
  (a <=? F64.maximum a b)%float = true /\ (b <=? F64.maximum a b)%float = true.
Proof.
  intros Ha Hb. unfold F64.maximum. rewrite Ha, Hb. cbn [orb].
  pose proof (proj1 (is_nan_spec a) Ha) as Na.
  pose proof (proj1 (is_nan_spec b) Hb) as Nb.
  destruct (a <? b)%float eqn:Hab.
  { apply ltb_rank in Hab as (_ & _ & Hr). split; [right; reflexivity|].
    split; [apply leb_rank; repeat split; try assumption; lia|apply float_leb_refl, Hb]. }
  destruct (b <? a)%float eqn:Hba.
  { apply ltb_rank in Hba as (_ & _ & Hr). split; [left; reflexivity|].
    split; [apply float_leb_refl, Ha|apply leb_rank; repeat split; try assumption; lia]. }
  assert (Hr : rank (Prim2SF a) = rank (Prim2SF b)).
  { destruct (Z.lt_total (rank (Prim2SF a)) (rank (Prim2SF b))) as [Hlt|[Heq|Hgt]];
      [|exact Heq|].
    - assert (Hc : (a <? b)%float = true) by (apply ltb_rank; auto). congruence.
    - assert (Hc : (b <? a)%float = true) by (apply ltb_rank; auto). congruence. }
  destruct (get_sign a).
  - split; [right; reflexivity|].
    split; [apply leb_rank; repeat split; try assumption; lia|apply float_leb_refl, Hb].
  - split; [left; reflexivity|].
    split; [apply float_leb_refl, Ha|apply leb_rank; repeat split; try assumption; lia].
Qed.

Lemma Math_max_spec (first : float) (others : list float) :
  Forall (fun x => amountOk x = true) (first :: others) ->
  In (Math_max first others) (first :: others) /\
  Forall (fun x => (x <=? Math_max first others)%float = true) (first :: others).
Proof.
  unfold Math_max. revert first.
  induction others as [|o os IH]; intros first Hall.
  - cbn [fold_left]. split; [left; reflexivity|].
    constructor; [|constructor]. apply float_leb_refl, amountOk_notNaN.
    exact (Forall_inv Hall).
  - cbn [fold_left]. change (max2 first o) with (F64.maximum first o).
    pose proof (Forall_inv Hall) as Hf.
    pose proof (Forall_inv (Forall_inv_tail Hall)) as Ho.
    pose proof (Forall_inv_tail (Forall_inv_tail Hall)) as Hos.
    destruct (maximum_spec first o (amountOk_notNaN _ Hf) (amountOk_notNaN _ Ho))
      as (Hc & H1 & H2).
    destruct (IH (F64.maximum first o)) as [Hin Hle].
    { constructor; [destruct Hc as [-> | ->]; assumption|exact Hos]. }
    split.
    + destruct Hin as [Heq|Hin].
      * rewrite <- Heq. destruct Hc as [-> | ->]; [left|right; left]; reflexivity.
      * right; right; exact Hin.
    + pose proof (Forall_inv Hle) as Hm.
      constructor; [exact (float_leb_trans _ _ _ H1 Hm)|].
      constructor; [exact (float_leb_trans _ _ _ H2 Hm)|exact (Forall_inv_tail Hle)].
Qed.

Lemma fold_add_nonneg (xs : list float) (acc : float) :
  (0 <=? acc)%float = true ->
  Forall (fun x => (0 <=? x)%float = true) xs ->
  (0 <=? fold_left PrimFloat.add xs acc)%float = true.
Proof.
  revert acc. induction xs as [|x xs IH]; intros acc Hacc Hall; [exact Hacc|].
  cbn [fold_left]. apply IH; [|exact (Forall_inv_tail Hall)].
  apply add_nonneg; [exact Hacc|exact (Forall_inv Hall)].
Qed.

Lemma sum_nonneg (xs : list float) :
  Forall (fun x => (0 <=? x)%float = true) xs -> (0 <=? sum xs)%float = true.
Proof. intros Hall. apply (fold_add_nonneg xs 0%float); [reflexivity|exact Hall]. Qed.

Lemma zero_not_positive (x : float) : is_zero x = true -> (0 <? x)%float = false.
Proof.
  unfold is_zero. rewrite FloatAxioms.eqb_spec, FloatAxioms.ltb_spec. unfold SFeqb, SFltb.
  change (Prim2SF zero) with (S754_zero false).
  change (Prim2SF 0) with (S754_zero false).
  destruct (Prim2SF x) as [s|s| |s m e]; cbn; try reflexivity; try discriminate;
    destruct s; discriminate.
Qed.

Lemma inUnit_zero : inUnit 0 = true.
Proof. reflexivity. Qed.

Lemma normalizedLabel_inUnit (value maxValue : float) :
  amountOk value = true -> amountOk maxValue = true ->
  (value <=? maxValue)%float = true ->
  inUnit (normalizedLabel value maxValue) = true.
Proof.
  intros Hv Hm Hle. unfold normalizedLabel.
  change (gtb maxValue (ofZ 0)) with (0 <? maxValue)%float.
  destruct (0 <? maxValue)%float eqn:Hpos; [|reflexivity].
  destruct (div_unit value maxValue Hv Hm Hle Hpos) as [H0 H1].
  unfold inUnit. change (div value maxValue) with (value / maxValue)%float.
  rewrite H0, H1. reflexivity.
Qed.

Lemma normalizedMovingAvg_nonneg (window : list float) (lookback : nat) (maxValue : float) :
  Forall (fun x => amountOk x = true) window -> (lookback <= 3)%nat ->
  amountOk maxValue = true ->
  (0 <=? normalizedMovingAvg window lookback maxValue)%float = true.
Proof.
  intros Hw Hl Hm. unfold normalizedMovingAvg.
  change (gtb maxValue (ofZ 0)) with (0 <? maxValue)%float.
  destruct (0 <? maxValue)%float eqn:Hpos; [|reflexivity].
  apply div_nonneg; [|exact Hm|exact Hpos].
  destruct (Z.ltb_spec 0 (Z.of_nat lookback)) as [Hlb|]; [|reflexivity].
  apply div_nonneg.
  - apply sum_nonneg. eapply Forall_impl; [exact Hw|]. intros x. apply amountOk_nonneg.
  - apply fromZ_amountOk. change (2 ^ 53) with 9007199254740992. lia.
  - apply fromZ_positive. change (2 ^ 53) with 9007199254740992. lia.
Qed.

Lemma ratio_inUnit (a b : Z) :
  0 <= a <= b -> 0 < b < 2 ^ 53 -> inUnit (div (ofZ a) (ofZ b)) = true.
Proof.
  intros Ha Hb.
  destruct (div_unit (F64.fromZ a) (F64.fromZ b)) as [H0 H1].
  - apply fromZ_amountOk. lia.
  - apply fromZ_amountOk. lia.
  - apply fromZ_monotone; lia.
  - apply fromZ_positive. lia.
  - unfold inUnit. change (div (ofZ a) (ofZ b)) with (F64.fromZ a / F64.fromZ b)%float.
    rewrite H0, H1. reflexivity.
Qed.

Lemma fold_min_bound (xs : list Z) (a c : Z) :
  c <= a -> Forall (fun x => c <= x) xs -> c <= fold_left Z.min xs a.
Proof.
  revert a. induction xs as [|x xs IH]; intros a Ha Hall; [exact Ha|].
  cbn [fold_left]. apply IH; [|exact (Forall_inv_tail Hall)].
  pose proof (Forall_inv Hall) as Hx. cbv beta in Hx. lia.
Qed.

Lemma fold_max_bound (xs : list Z) (a c : Z) :
  a <= c -> Forall (fun x => x <= c) xs -> fold_left Z.max xs a <= c.
Proof.
  revert a. induction xs as [|x xs IH]; intros a Ha Hall; [exact Ha|].
  cbn [fold_left]. apply IH; [|exact (Forall_inv_tail Hall)].
  pose proof (Forall_inv Hall) as Hx. cbv beta in Hx. lia.
Qed.
End DoubleFacts.

(** C5, as the code has it, in the doubles the program computes with. For
    aggregates with finite non-negative totals, months from 1 to 12 and
    years that are non-negative safe integers, the Feature Builder
    returns; every label, and the month and year component of every
    feature vector, is a double between 0 and 1; the two moving-average
    components are doubles not below 0 (they can exceed 1). The constant
    of a target is its largest total. When it is zero, the target's
    moving-average component and its label are the literal 0: no division
    takes place. *)
Theorem createFeatures_bounds_in_doubles (monthlyData : list (MonthlyData float)) :
  monthlyData <> [] ->
  Forall F64Reading.plausible monthlyData ->
  exists fs,
    createFeatures monthlyData = Returns fs /\
    Forall (fun row =>
              exists a b c d,
                row = [a; b; c; d] /\ F64Reading.inUnit a = true /\ F64Reading.inUnit b = true /\
                PrimFloat.leb 0 c = true /\ PrimFloat.leb 0 d = true)
      (features fs) /\
    Forall (fun label => F64Reading.inUnit label = true) (incomeLabels fs) /\
    Forall (fun label => F64Reading.inUnit label = true) (expenseLabels fs) /\
    (In (maxIncome fs) (map totalIncome monthlyData) /\
     Forall (fun d => PrimFloat.leb (totalIncome d) (maxIncome fs) = true) monthlyData) /\
    (In (maxExpense fs) (map totalExpenses monthlyData) /\
     Forall (fun d => PrimFloat.leb (totalExpenses d) (maxExpense fs) = true) monthlyData) /\
    (is_zero (maxIncome fs) = true ->
     Forall (fun row => row !! 2%nat = Some 0%float) (features fs) /\
     Forall (fun label => label = 0%float) (incomeLabels fs)) /\
    (is_zero (maxExpense fs) = true ->
     Forall (fun row => row !! 3%nat = Some 0%float) (features fs) /\
     Forall (fun label => label = 0%float) (expenseLabels fs)).
Proof.
  intros Hne Hpl. destruct monthlyData as [|first others]; [congruence|].
  set (md := first :: others) in *.
  eexists. split; [reflexivity|].
  cbn [features incomeLabels expenseLabels maxIncome maxExpense].
  destruct (DoubleFacts.Math_max_spec (totalIncome first) (map totalIncome others)) as [Hini Hlei].
  { change (Forall (fun x => F64Reading.amountOk x = true) (map totalIncome md)).
    apply Forall_map. eapply Forall_impl; [exact Hpl|]. intros d Hd. apply Hd. }
  destruct (DoubleFacts.Math_max_spec (totalExpenses first) (map totalExpenses others)) as [Hine Hlee].
  { change (Forall (fun x => F64Reading.amountOk x = true) (map totalExpenses md)).
    apply Forall_map. eapply Forall_impl; [exact Hpl|]. intros d Hd. apply Hd. }
  change (totalIncome first :: map totalIncome others) with (map totalIncome md) in *.
  change (totalExpenses first :: map totalExpenses others)
    with (map totalExpenses md) in *.
  set (maxI := Math_max (totalIncome first) (map totalIncome others)) in *.
  set (maxE := Math_max (totalExpenses first) (map totalExpenses others)) in *.
  apply (proj1 (List.Forall_map _ _ _)) in Hlei.
  apply (proj1 (List.Forall_map _ _ _)) in Hlee.
  assert (HokI : F64Reading.amountOk maxI = true).
  { apply in_map_iff in Hini as (d & <- & Hd).
    apply (proj1 (List.Forall_forall _ _) Hpl d Hd). }
  assert (HokE : F64Reading.amountOk maxE = true).
  { apply in_map_iff in Hine as (d & <- & Hd).
    apply (proj1 (List.Forall_forall _ _) Hpl d Hd). }
  destruct (fold_min_le (map year others) (year first)) as [Hlo Hlos].
  destruct (fold_max_ge (map year others) (year first)) as [Hhi Hhis].
  assert (Hlo0 : 0 <= fold_left Z.min (map year others) (year first)).
  { apply DoubleFacts.fold_min_bound; [apply (Forall_inv Hpl)|].
    apply Forall_map. eapply Forall_impl; [exact (Forall_inv_tail Hpl)|].
    intros d Hd. apply Hd. }
  assert (Hhi0 : fold_left Z.max (map year others) (year first) <= MAX_SAFE_INTEGER).
  { apply DoubleFacts.fold_max_bound; [apply (Forall_inv Hpl)|].
    apply Forall_map. eapply Forall_impl; [exact (Forall_inv_tail Hpl)|].
    intros d Hd. apply Hd. }
  set (lo := fold_left Z.min (map year others) (year first)) in *.
  set (hi := fold_left Z.max (map year others) (year first)) in *.
  assert (Hyears : Forall (fun d => lo <= year d <= hi) md).
  { apply (proj1 (List.Forall_map _ _ _)) in Hlos.
    apply (proj1 (List.Forall_map _ _ _)) in Hhis. unfold md.
    constructor; [lia|].
    apply List.Forall_forall. intros d Hd.
    pose proof (proj1 (List.Forall_forall _ _) Hlos d Hd) as H1.
    pose proof (proj1 (List.Forall_forall _ _) Hhis d Hd) as H2.
    cbv beta in H1, H2. lia. }
  unfold MAX_SAFE_INTEGER in Hhi0.
  split.
  { apply Forall_lookup_2. intros i row Hrow.
    rewrite list_lookup_imap in Hrow.
    destruct (md !! i) as [data|] eqn:Hdata; [|discriminate].
    injection Hrow as <-.
    pose proof (Forall_lookup_1 _ _ _ _ Hpl Hdata) as (_ & _ & Hmonth & _).
    pose proof (Forall_lookup_1 _ _ _ _ Hyears Hdata) as Hyear. cbv beta in Hyear.
    unfold featureRow. eexists _, _, _, _. split; [reflexivity|].
    split; [apply DoubleFacts.ratio_inUnit; change (2 ^ 53) with 9007199254740992; lia|].
    split.
    { apply DoubleFacts.ratio_inUnit; unfold yearRangeOf;
        destruct (Z.gtb_spec (hi - lo) 0); change (2 ^ 53) with 9007199254740992; lia. }
    split.
    - apply DoubleFacts.normalizedMovingAvg_nonneg; [|lia|exact HokI].
      apply Forall_map. unfold lookbackWindow.
      apply Forall_take, Forall_drop.
      eapply Forall_impl; [exact Hpl|]. intros d Hd. apply Hd.
    - apply DoubleFacts.normalizedMovingAvg_nonneg; [|lia|exact HokE].
      apply Forall_map. unfold lookbackWindow.
      apply Forall_take, Forall_drop.
      eapply Forall_impl; [exact Hpl|]. intros d Hd. apply Hd. }
  split.
  { apply Forall_map, List.Forall_forall. intros d Hd.
    apply DoubleFacts.normalizedLabel_inUnit; [|exact HokI|].
    - apply (proj1 (List.Forall_forall _ _) Hpl d Hd).
    - apply (proj1 (List.Forall_forall _ _) Hlei d Hd). }
  split.
  { apply Forall_map, List.Forall_forall. intros d Hd.
    apply DoubleFacts.normalizedLabel_inUnit; [|exact HokE|].
    - apply (proj1 (List.Forall_forall _ _) Hpl d Hd).
    - apply (proj1 (List.Forall_forall _ _) Hlee d Hd). }
  split; [split; assumption|]. split; [split; assumption|].
  split.
  - intros Hz. apply DoubleFacts.zero_not_positive in Hz. split.
    + apply Forall_lookup_2. intros i row Hrow.
      rewrite list_lookup_imap in Hrow.
      destruct (md !! i) as [data|]; [|discriminate].
      injection Hrow as <-.
      unfold featureRow, normalizedMovingAvg.
      change (gtb maxI (ofZ 0)) with (0 <? maxI)%float. rewrite Hz. reflexivity.
    + apply Forall_map, List.Forall_forall. intros d _.
      unfold normalizedLabel.
      change (gtb maxI (ofZ 0)) with (0 <? maxI)%float. rewrite Hz. reflexivity.
  - intros Hz. apply DoubleFacts.zero_not_positive in Hz. split.
    + apply Forall_lookup_2. intros i row Hrow.
      rewrite list_lookup_imap in Hrow.
      destruct (md !! i) as [data|]; [|discriminate].
      injection Hrow as <-.
      unfold featureRow, normalizedMovingAvg.
      change (gtb maxE (ofZ 0)) with (0 <? maxE)%float. rewrite Hz. reflexivity.
    + apply Forall_map, List.Forall_forall. intros d _.
      unfold normalizedLabel.
      change (gtb maxE (ofZ 0)) with (0 <? maxE)%float. rewrite Hz. reflexivity.
Qed.

Lemma createFeatures_bounds_in_doubles_witness :
  exists fs,
    createFeatures steadySalary = Returns fs /\
    Forall (fun row =>
              exists a b c d,
                row = [a; b; c; d] /\ F64Reading.inUnit a = true /\ F64Reading.inUnit b = true /\
                PrimFloat.leb 0 c = true /\ PrimFloat.leb 0 d = true)
      (features fs) /\
    Forall (fun label => F64Reading.inUnit label = true) (incomeLabels fs) /\
    Forall (fun label => F64Reading.inUnit label = true) (expenseLabels fs) /\
    (In (maxIncome fs) (map totalIncome steadySalary) /\
     Forall (fun d => PrimFloat.leb (totalIncome d) (maxIncome fs) = true) steadySalary) /\
    (In (maxExpense fs) (map totalExpenses steadySalary) /\
     Forall (fun d => PrimFloat.leb (totalExpenses d) (maxExpense fs) = true)
       steadySalary) /\
    (is_zero (maxIncome fs) = true ->
     Forall (fun row => row !! 2%nat = Some 0%float) (features fs) /\
     Forall (fun label => label = 0%float) (incomeLabels fs)) /\
    (is_zero (maxExpense fs) = true ->
     Forall (fun row => row !! 3%nat = Some 0%float) (features fs) /\
     Forall (fun label => label = 0%float) (expenseLabels fs)).
Proof.
  apply (createFeatures_bounds_in_doubles steadySalary).
  - discriminate.
  - repeat constructor; try (vm_compute; reflexivity); unfold MAX_SAFE_INTEGER;
      simpl; lia.
Defined.

(** Without finite totals the bound on the labels is lost: a month whose
    income is infinite (an amount field [Infinity] is read as such by
    [parseFloat]) has the label [Infinity / Infinity], which is [NaN]. *)
Lemma createFeatures_infinite_total_label_is_NaN :
  exists fs label,
    createFeatures [sampleMonth 2024 1 infinity 800%float 3] = Returns fs /\
    incomeLabels fs !! 0%nat = Some label /\
    is_nan label = true.
Proof.
  eexists _, _. split; [reflexivity|]. split; vm_compute; reflexivity.
Qed.

(** C5 fails in the arithmetic of the program: with three months at the
    same income of 1000.20, the fourth month's income moving average is
    [(1000.2 + 1000.2 + 1000.2) / 3 / 1000.2], which rounds to
    1.0000000000000002 in doubles; with three months at 1e308 the sum is
    beyond the largest double and the component is infinite. Both
    histories have finite non-negative totals and calendar months. *)
Lemma createFeatures_double_exceeds_one :
  Forall (fun d => PrimFloat.leb 0 (totalIncome d) = true /\
                   PrimFloat.leb 0 (totalExpenses d) = true /\
                   1 <= month d <= 12) steadySalary /\
  (exists fs row x,
    createFeatures steadySalary = Returns fs /\
    features fs !! 3%nat = Some row /\
    row !! 2%nat = Some x /\
    x = 1.0000000000000002%float /\
    PrimFloat.ltb 1 x = true) /\
  Forall F64Reading.plausible steadySalary /\
  Forall F64Reading.plausible hugeSalary /\
  (exists fs row x,
    createFeatures hugeSalary = Returns fs /\
    features fs !! 3%nat = Some row /\
    row !! 2%nat = Some x /\
    x = infinity).
Proof.
  split; [repeat constructor; simpl; lia|].
  split.
  { eexists _, _, _. split; [reflexivity|].
    split; [vm_compute; reflexivity|].
    split; [reflexivity|]. split; reflexivity. }
  split.
  { repeat constructor; try (vm_compute; reflexivity); unfold MAX_SAFE_INTEGER;
      simpl; lia. }
  split.
  { repeat constructor; try (vm_compute; reflexivity); unfold MAX_SAFE_INTEGER;
      simpl; lia. }
  eexists _, _, _. split; [reflexivity|].
  split; [vm_compute; reflexivity|].
  split; [reflexivity|]. reflexivity.
Qed.

(** ** Autoregressive Projector *)

Lemma monthOfIndex_monthIndex y m :
  1 <= m <= 12 -> monthOfIndex (monthIndex y m) = (y, m).
Proof.
  intros Hm. unfold monthOfIndex, monthIndex.
  assert (Hq : (12 * y + (m - 1)) / 12 = y)
    by (symmetry; apply (Z.div_unique _ 12 y (m - 1)); lia).
  assert (Hr : (12 * y + (m - 1)) mod 12 = m - 1)
    by (symmetry; apply (Z.mod_unique _ 12 y (m - 1)); lia).
  rewrite Hq, Hr. f_equal. lia.
Qed.

Lemma monthOfIndex_range n : 1 <= snd (monthOfIndex n) <= 12.
Proof.
  unfold monthOfIndex. simpl.
  pose proof (Z.mod_pos_bound n 12). lia.
Qed.

Lemma monthIndex_monthOfIndex n :
  monthIndex (fst (monthOfIndex n)) (snd (monthOfIndex n)) = n.
Proof.
  unfold monthOfIndex, monthIndex. simpl.
  pose proof (Z.div_mod n 12). lia.
Qed.

(** The wrap at December is the successor on month indices. *)
Lemma advance_index {num : Type} `{Arith num} y m :
  1 <= m <= 12 -> advance y m = monthOfIndex (monthIndex y m + 1).
Proof.
  intros Hm. unfold advance.
  destruct (Z.gtb_spec (m + 1) 12) as [Hgt|Hle].
  - assert (m = 12) by lia. subst m.
    rewrite <- (monthOfIndex_monthIndex (y + 1) 1) by lia.
    f_equal. unfold monthIndex. lia.
  - rewrite <- (monthOfIndex_monthIndex y (m + 1)) by lia.
    f_equal. unfold monthIndex. lia.
Qed.

Lemma keyIndex_keyOfIndex n : 0 <= n -> keyIndex (keyOfIndex n) = Some n.
Proof.
  intros Hn. unfold keyIndex, keyOfIndex.
  rewrite parseMonthKey_monthKeyOf.
  - rewrite monthIndex_monthOfIndex. reflexivity.
  - unfold monthOfIndex. simpl. apply Z.div_pos; lia.
  - pose proof (monthOfIndex_range n). lia.
Qed.

Section ProjectorFacts.
Context {num : Type} `{Arith num}.
Variables (incomeModel expenseModel : @Model num).
Variables (maxIncome maxExpense : num) (minYear maxYear : Z).

Local Abbreviation step :=
  (projectStep incomeModel expenseModel maxIncome maxExpense minYear maxYear).
Local Abbreviation loop :=
  (projectLoop incomeModel expenseModel maxIncome maxExpense minYear maxYear).

Lemma projectStep_spec st :
  1 <= currentMonth st <= 12 ->
  1 <= currentMonth (step st) <= 12 /\
  stateIndex (step st) = stateIndex st + 1 /\
  map p_monthKey (projected (step st))
  = map p_monthKey (projected st) ++ [keyOfIndex (stateIndex st + 1)].
Proof.
  intros Hm. unfold projectStep, stateIndex, keyOfIndex.
  rewrite (advance_index _ _ Hm).
  pose proof (monthOfIndex_range (monthIndex (currentYear st) (currentMonth st) + 1)) as Hr.
  pose proof (monthIndex_monthOfIndex (monthIndex (currentYear st) (currentMonth st) + 1)) as Hi.
  destruct (monthOfIndex (monthIndex (currentYear st) (currentMonth st) + 1)) as [y m].
  cbn [currentYear currentMonth projected fst snd] in *.
  split; [exact Hr|]. split; [exact Hi|].
  rewrite map_app. reflexivity.
Qed.

Lemma projectLoop_keys n st :
  1 <= currentMonth st <= 12 ->
  map p_monthKey (projected (loop n st))
  = map p_monthKey (projected st)
    ++ map (fun i : nat => keyOfIndex (stateIndex st + 1 + Z.of_nat i)) (seq 0 n).
Proof.
  revert st. induction n as [|n IH]; intros st Hm.
  - simpl. rewrite app_nil_r. reflexivity.
  - destruct (projectStep_spec st Hm) as (Hm' & Hidx & Hkeys).
    cbn [projectLoop]. rewrite (IH _ Hm'), Hkeys, Hidx, <- app_assoc.
    f_equal. cbn [seq map app]. rewrite Z.add_0_r. f_equal.
    rewrite <- seq_shift, map_map. apply map_ext. intros i.
    f_equal. lia.
Qed.

Lemma projectLoop_length n st :
  length (projected (loop n st)) = (length (projected st) + n)%nat.
Proof.
  revert st. induction n as [|n IH]; intros st; simpl; [lia|].
  rewrite IH. unfold projectStep.
  destruct (advance (currentYear st) (currentMonth st)).
  cbn [projected]. rewrite length_app. simpl. lia.
Qed.
End ProjectorFacts.

(** C1. For every non-empty history whose last month is a calendar month
    (year not negative, month from 1 to 12) and every horizon, the projector
    returns exactly [numMonths] projected months; their keys are the keys of
    the months that follow the last historical month one by one, December
    being followed by January of the next year; read back as month counts
    they are [last + 1, last + 2, ...]: strictly increasing, without gap. *)
Theorem generateProjections_contiguous {num : Type} `{Arith num}
  (incomeModel expenseModel : Model) (maxIncome maxExpense : num)
  (minYear maxYear : Z) (monthlyData : list (MonthlyData num))
  (lastMonth : MonthlyData num) (numMonths : nat) :
  last monthlyData = Some lastMonth ->
  0 <= year lastMonth ->
  1 <= month lastMonth <= 12 ->
  exists out,
    generateProjections incomeModel expenseModel maxIncome maxExpense
      minYear maxYear monthlyData numMonths = Returns out /\
    length out = numMonths /\
    map p_monthKey out
    = map (fun i : nat =>
             keyOfIndex (monthIndex (year lastMonth) (month lastMonth) + 1 + Z.of_nat i))
        (seq 0 numMonths) /\
    map keyIndex (map p_monthKey out)
    = map (fun i : nat =>
             Some (monthIndex (year lastMonth) (month lastMonth) + 1 + Z.of_nat i))
        (seq 0 numMonths).
Proof.
  intros Hlast Hy Hm. unfold generateProjections. rewrite Hlast.
  eexists. split; [reflexivity|].
  split; [rewrite projectLoop_length; reflexivity|].
  assert (Hkeys := projectLoop_keys incomeModel expenseModel maxIncome maxExpense
                     minYear maxYear numMonths
                     {| currentYear := year lastMonth;
                        currentMonth := month lastMonth;
                        recentIncomes := map totalIncome (lastThree monthlyData);
                        recentExpenses := map totalExpenses (lastThree monthlyData);
                        projected := [] |} Hm).
  cbn [projected map app] in Hkeys. unfold stateIndex in Hkeys.
  cbn [currentYear currentMonth] in Hkeys.
  split; [exact Hkeys|].
  rewrite Hkeys, map_map. apply map_ext. intros i.
  apply keyIndex_keyOfIndex. unfold monthIndex. lia.
Qed.

Lemma generateProjections_contiguous_witness :
  exists out,
    generateProjections sampleModel sampleModel 1200%float 900%float
      2024 2024 autumnHistory 12 = Returns out /\
    length out = 12%nat /\
    map p_monthKey out
    = map (fun i : nat => keyOfIndex (monthIndex 2024 11 + 1 + Z.of_nat i))
        (seq 0 12) /\
    map keyIndex (map p_monthKey out)
    = map (fun i : nat => Some (monthIndex 2024 11 + 1 + Z.of_nat i)) (seq 0 12).
Proof.
  apply (generateProjections_contiguous sampleModel sampleModel
           1200%float 900%float 2024 2024 autumnHistory
           (sampleMonth 2024 11 1200%float 800%float 3) 12).
  - reflexivity.
  - simpl. lia.
  - simpl. lia.
Defined.

(** The spec's example: a history ending in 2024-11 projected over twelve
    months gives 2024-12 to 2025-11. *)
Example generateProjections_autumn_keys :
  (map p_monthKey <$>
     generateProjections sampleModel sampleModel 1200%float 900%float
       2024 2024 autumnHistory 12)
  = Returns ["2024-12"; "2025-01"; "2025-02"; "2025-03"; "2025-04"; "2025-05";
             "2025-06"; "2025-07"; "2025-08"; "2025-09"; "2025-10"; "2025-11"].
Proof. vm_compute. reflexivity. Qed.

(** ** Record Parser *)

Section RecordParserFacts.
Context {num : Type} `{ParseFloat num}.

(** The loop keeps the lines with as many fields as the header, in order,
    and drops the others. *)
Lemma parseLines_filter (headers lines : list string) :
  parseLines headers lines
  = map (fun line => typedTxn (rowObject headers (split "," line)))
      (List.filter
         (fun line => (length (split "," line) =? length headers)%nat) lines).
Proof.
  induction lines as [|line rest IH]; simpl; [reflexivity|].
  destruct (length (split "," line) =? length headers)%nat; simpl;
    rewrite IH; reflexivity.
Qed.

Lemma type_typedTxn (transaction : gmap string string) :
  type (typedTxn transaction)
  = match transaction !! "type" with
    | Some EmptyString => Some "expense"
    | other => other
    end.
Proof. reflexivity. Qed.

Lemma amount_typedTxn (transaction : gmap string string) :
  amount (typedTxn transaction)
  = match transaction !! "amount" with
    | Some EmptyString => parseFloat "0"
    | Some s => parseFloat s
    | None => parseFloat "undefined"
    end.
Proof.
  unfold typedTxn, fieldOr, parseFloatValue. cbn [amount].
  destruct (transaction !! "amount") as [[|c s]|]; reflexivity.
Qed.
End RecordParserFacts.

Section LoadingFacts.
Context {num : Type} `{Arith num} `{ParseFloat num}.

(** A file that was fetched and read never makes the loader throw,
    whatever its rows. *)
Lemma loadCSVFile_served (env : Env num) (fileName : string) (w : World)
  (response : Response) (body : string) :
  fetch env ("/data/" +:+ fileName) = Resolved response ->
  ok response = true ->
  text response = Resolved body ->
  loadCSVFile env fileName w = (Returns (parseCSV body), w).
Proof.
  intros Hf Hok Ht. unfold loadCSVFile, tryCatch, mbind, M_bind, await.
  rewrite Hf, Hok, Ht. reflexivity.
Qed.

Lemma loadCSVFile_settles (env : Env num) (fileName : string) (w : World) :
  (exists ts, loadCSVFile env fileName w = (Returns ts, w))
  \/ (exists e w', loadCSVFile env fileName w = (Throws e, w')).
Proof.
  unfold loadCSVFile, tryCatch, mbind, M_bind, await, throw, consoleError.
  destruct (fetch env ("/data/" +:+ fileName)) as [response|e]; simpl.
  - destruct (ok response); simpl.
    + destruct (text response) as [body|e]; simpl; eauto.
    + eauto.
  - eauto.
Qed.

Lemma yearlyStep_cases (t : CSVTransaction num)
  (yearMap : list (string * (num * num))) :
  (exists m', yearlyStep yearMap t = Returns m')
  \/ (exists e, yearlyStep yearMap t = Throws e).
Proof.
  unfold yearlyStep, yearOf. destruct (date t) as [d|]; simpl; eauto.
Qed.

Lemma yearlyStep_settles (ts : list (CSVTransaction num))
  (yearMap : list (string * (num * num))) :
  forOf yearlyStep ts yearMap <> Beyond.
Proof.
  revert yearMap. induction ts as [|t ts IH]; intros yearMap; [discriminate|].
  change (forOf yearlyStep (t :: ts) yearMap)
    with (yearlyStep yearMap t ≫= forOf yearlyStep ts).
  destruct (yearlyStep_cases t yearMap) as [(m' & ->)|(e & ->)]; simpl;
    [apply IH|discriminate].
Qed.
End LoadingFacts.

Lemma loadHistoricalYearlyData_run {num : Type}
  `{Arith num} `{ParseFloat num} (env : Env num) (cur : string) (w : World) :
  fst (loadHistoricalYearlyData env cur w)
  = match loadCSVFile env seedFile w with
    | (Returns ts, _) =>
        match forOf yearlyStep (filterByCurrency ts cur) [] with
        | Returns yearMap =>
            Returns
              (sortBy (fun a b => localeCompare env (y_year a) (y_year b))
                 (map (fun '(y, data) =>
                         {| y_year := y; income := fst data; expenses := snd data |})
                    yearMap))
        | Throws _ => Returns []
        | Beyond => Beyond
        end
    | (Throws _, _) => Returns []
    | (Beyond, _) => Beyond
    end.
Proof.
  unfold loadHistoricalYearlyData, tryCatch, mbind, M_bind, lift, consoleError.
  destruct (loadCSVFile env seedFile w) as [[ts|e|] w']; try reflexivity.
  destruct (forOf yearlyStep (filterByCurrency ts cur) []); reflexivity.
Qed.

(** C9. [loadHistoricalYearlyData] always returns, in every environment and
    world; when loading the file throws (network failure, status not ok,
    unreadable body) or when the grouping loop throws (a record without a
    date), it returns the empty list. *)
Theorem loadHistoricalYearlyData_never_throws {num : Type}
  `{Arith num} `{ParseFloat num} (env : Env num) (cur : string) (w : World) :
  (exists l, fst (loadHistoricalYearlyData env cur w) = Returns l) /\
  (forall e w', loadCSVFile env seedFile w = (Throws e, w') ->
                fst (loadHistoricalYearlyData env cur w) = Returns []) /\
  (forall ts w' e,
      loadCSVFile env seedFile w = (Returns ts, w') ->
      forOf yearlyStep (filterByCurrency ts cur) [] = Throws e ->
      fst (loadHistoricalYearlyData env cur w) = Returns []).
Proof.
  rewrite loadHistoricalYearlyData_run.
  destruct (loadCSVFile_settles env seedFile w) as [(ts & Hl)|(e & w' & Hl)];
    rewrite Hl.
  - pose proof (yearlyStep_settles (filterByCurrency ts cur) []) as Hs.
    destruct (forOf yearlyStep (filterByCurrency ts cur) []) as [m|e|] eqn:Hloop;
      [| |congruence].
    + split; [eauto|]. split; [discriminate|].
      intros ts' w' e [= <- <-]. rewrite Hloop. discriminate.
    + split; [eauto|]. split; [discriminate|]. reflexivity.
  - split; [eauto|]. split; [reflexivity|]. discriminate.
Qed.

Lemma loadHistoricalYearlyData_never_throws_witness :
  (exists l, fst (loadHistoricalYearlyData offlineEnv "GBP" freshWorld) = Returns l) /\
  fst (loadHistoricalYearlyData offlineEnv "GBP" freshWorld) = Returns [] /\
  fst (loadHistoricalYearlyData missingFileEnv "GBP" freshWorld) = Returns [] /\
  fst (loadHistoricalYearlyData (servingEnv undatedCsv) "GBP" freshWorld)
  = Returns [].
Proof.
  destruct (loadHistoricalYearlyData_never_throws offlineEnv "GBP" freshWorld)
    as (H1 & H2 & _).
  destruct (loadHistoricalYearlyData_never_throws missingFileEnv "GBP" freshWorld)
    as (_ & H3 & _).
  destruct (loadHistoricalYearlyData_never_throws (servingEnv undatedCsv) "GBP"
              freshWorld) as (_ & _ & H4).
  split; [exact H1|]. split; [eapply H2; vm_compute; reflexivity|].
  split; [eapply H3; vm_compute; reflexivity|].
  eapply H4; vm_compute; reflexivity.
Defined.

Lemma split_nonempty (sep : ascii) (s : string) :
  exists first rest, split sep s = first :: rest.
Proof.
  induction s as [|c s (first & rest & IH)]; simpl; [eauto|].
  destruct (Ascii.eqb c sep); [eauto|]. rewrite IH. eauto.
Qed.

(** The loop over the indices reads inside the array only: from index
    [i], with [n] lines left, it returns the records pushed so far followed
    by those of the remaining lines. *)
Lemma parseFrom_returns {num : Type} `{ParseFloat num}
  (lines headers : list string) (n i : nat) (transactions : list (CSVTransaction num)) :
  (i + n = length lines)%nat ->
  parseFrom lines headers i n transactions
  = Returns (transactions ++ parseLines headers (drop i lines)).
Proof.
  revert i transactions.
  induction n as [|n IH]; intros i transactions Hlen.
  - cbn [parseFrom]. rewrite drop_ge by lia. cbn [parseLines].
    rewrite app_nil_r. reflexivity.
  - assert (Hi : (i < length lines)%nat) by lia.
    destruct (lookup_lt_is_Some_2 lines i Hi) as [line Hline].
    cbn [parseFrom]. rewrite Hline. cbn [splitFields].
    rewrite (drop_S lines line i Hline). cbn [parseLines].
    change (Returns (split "," line) ≫= ?k) with (k (split "," line)).
    cbv beta.
    destruct (negb (length (split "," line) =? length headers)%nat).
    + apply IH. lia.
    + rewrite IH by lia. rewrite <- app_assoc. reflexivity.
Qed.

Lemma parseCSVStatements_returns {num : Type} `{ParseFloat num} (csvText : string) :
  parseCSVStatements (num := num) csvText = Returns (parseCSV csvText).
Proof.
  unfold parseCSVStatements, parseCSV.
  destruct (split_nonempty "010" (trim csvText)) as (first & rest & ->).
  cbn [lookup list_lookup splitFields].
  change (Returns (split "," first) ≫= ?k) with (k (split "," first)).
  cbv beta. rewrite parseFrom_returns.
  - reflexivity.
  - cbn [length]. lia.
Qed.

(** White space is the language's, not ASCII's: [parseFloat] skips a
    no-break space in front of the digits, and [trim] removes a byte order
    mark at the start of the file and a line separator at its end. *)
Lemma parseFloat_skips_no_break_space :
  parseFloat (noBreakSpace +:+ "5") = 5%float /\
  parseFloat (byteOrderMark +:+ " 12.5kg") = 12.5%float.
Proof. split; vm_compute; reflexivity. Qed.

Lemma trim_strips_unicode_white_space :
  trim (byteOrderMark +:+ "id,amount" +:+ lineSeparator +:+ noBreakSpace) = "id,amount".
Proof. vm_compute. reflexivity. Qed.

(** C3, as the code has it. On a line whose field count matches the
    header, an empty amount field gives the amount 0; a non-empty one gives
    whatever [parseFloat] makes of it, which is [NaN] (not 0) when the text
    has no numeric prefix. The parser keeps the matching lines in order.
    It never raises: run statement by statement, with the reads of
    [lines[0]] and [lines[i]] that would throw on [undefined], it returns
    on every text; and a file that was fetched and read never makes the
    loader throw, whatever its rows. *)
Theorem parseCSV_lenient_on_rows :
  (forall (headers values : list string) (s : string),
      length values = length headers ->
      rowObject headers values !! "amount" = Some s ->
      (s = "" -> amount (typedTxn (num := float) (rowObject headers values)) = 0%float) /\
      (s <> "" -> amount (typedTxn (num := float) (rowObject headers values))
                  = parseFloat s) /\
      (s <> "" -> scanDecimalLiteral s = None ->
       is_nan (amount (typedTxn (num := float) (rowObject headers values))) = true)) /\
  (forall csvText : string,
      exists headerLine dataLines,
        split "010" (trim csvText) = headerLine :: dataLines /\
        parseCSV (num := float) csvText
        = map (fun line => typedTxn (rowObject (split "," headerLine) (split "," line)))
            (matchingLines (split "," headerLine) dataLines)) /\
  (forall csvText : string,
      parseCSVStatements (num := float) csvText = Returns (parseCSV csvText)) /\
  (forall (env : Env float) (fileName : string) (w : World)
          (response : Response) (body : string),
      fetch env ("/data/" +:+ fileName) = Resolved response ->
      ok response = true ->
      text response = Resolved body ->
      loadCSVFile env fileName w = (Returns (parseCSV body), w)).
Proof.
  split; [|split; [|split]].
  - intros headers values s _ Hs.
    rewrite amount_typedTxn, Hs. split; [|split].
    + intros ->. vm_compute. reflexivity.
    + intros Hne. destruct s; [congruence|reflexivity].
    + intros Hne Hscan. destruct s; [congruence|].
      unfold parseFloat, f64_parseFloat. rewrite Hscan. reflexivity.
  - intros csvText. unfold parseCSV.
    destruct (split_nonempty "010" (trim csvText)) as (first & rest & ->).
    exists first, rest. split; [reflexivity|]. apply parseLines_filter.
  - intros csvText. apply parseCSVStatements_returns.
  - intros. eapply loadCSVFile_served; eassumption.
Qed.

Lemma parseCSV_lenient_on_rows_witness :
  amount (typedTxn (num := float) (rowObject sampleHeaders blankRow)) = 0%float /\
  is_nan (amount (typedTxn (num := float) (rowObject sampleHeaders unparsableRow)))
  = true /\
  parseCSVStatements (num := float) sampleCsv = Returns (parseCSV sampleCsv) /\
  loadCSVFile (servingEnv sampleCsv) seedFile freshWorld
  = (Returns (parseCSV sampleCsv), freshWorld).
Proof.
  destruct parseCSV_lenient_on_rows as (Hrow & _ & Hsteps & Hload).
  split; [|split; [|split]].
  - apply (Hrow sampleHeaders blankRow ""); reflexivity.
  - apply (Hrow sampleHeaders unparsableRow "n/a");
      [reflexivity|reflexivity|discriminate|reflexivity].
  - apply Hsteps.
  - eapply Hload; reflexivity.
Defined.

(** C3 fails as stated: the second data line of the sample file has the
    header's field count and the amount field [n/a], which has no numeric
    prefix; its record holds [NaN], which is not 0. *)
Lemma parseCSV_unparsable_amount_is_NaN :
  length unparsableRow = length sampleHeaders /\
  rowObject sampleHeaders unparsableRow !! "amount" = Some "n/a" /\
  scanDecimalLiteral "n/a" = None /\
  In (typedTxn (rowObject sampleHeaders unparsableRow)) (parseCSV (num := float) sampleCsv) /\
  is_nan (amount (typedTxn (num := float) (rowObject sampleHeaders unparsableRow)))
  = true /\
  PrimFloat.eqb (amount (typedTxn (num := float) (rowObject sampleHeaders unparsableRow))) 0
  = false.
Proof.
  split; [reflexivity|]. split; [reflexivity|]. split; [reflexivity|].
  split; [|split; reflexivity].
  vm_compute. right. left. reflexivity.
Qed.

(** C10. On a line whose field count matches the header, an empty type
    field becomes the literal "expense"; the Monthly Aggregator adds the
    amount of every record whose type is not "income", be it "expense" or any
    other text, to the [totalExpenses] of the record's month and leaves it out
    of [totalIncome]. *)
Theorem empty_type_counts_as_expense {num : Type} `{Arith num} `{ParseFloat num} :
  (forall headers values : list string,
      length values = length headers ->
      rowObject headers values !! "type" = Some "" ->
      type (typedTxn (num := num) (rowObject headers values)) = Some "expense") /\
  (forall (transactions : list (CSVTransaction num)) (t : CSVTransaction num)
          (y m : Z),
      Forall wellDated transactions ->
      In t transactions ->
      monthOf t = Some (y, m) ->
      type t <> Some "income" ->
      exists out d,
        aggregateByMonth transactions = Returns out /\
        In d out /\ calendarMonth d = (y, m) /\
        In t (List.filter isExpense (List.filter (inMonth y m) transactions)) /\
        ~ In t (List.filter isIncome (List.filter (inMonth y m) transactions)) /\
        totalExpenses d
        = sum (map amount (List.filter isExpense (List.filter (inMonth y m) transactions))) /\
        totalIncome d
        = sum (map amount (List.filter isIncome (List.filter (inMonth y m) transactions)))).
Proof.
  split.
  - intros headers values _ Hty. rewrite type_typedTxn, Hty. reflexivity.
  - intros transactions t y m Hw Hin Ht Hty.
    destruct (summary_present transactions t y m Hin Ht) as (d & Hd & Hy & Hm).
    exists (sortBy compareMonths (map snd (fold_left enterTxn transactions []))), d.
    split; [apply aggregateByMonth_wellDated, Hw|].
    split; [apply In_aggregates; eauto|].
    split; [unfold calendarMonth; congruence|].
    assert (Hexp : isIncome t = false).
    { unfold isIncome. apply bool_decide_eq_false. exact Hty. }
    assert (Hmonth : inMonth y m t = true).
    { unfold inMonth. apply bool_decide_eq_true. exact Ht. }
    split.
    { apply List.filter_In. split.
      - apply List.filter_In. split; assumption.
      - unfold isExpense. rewrite Hexp. reflexivity. }
    split.
    { intros Hc. apply List.filter_In in Hc as [_ Hc]. congruence. }
    apply summary_Some in Hd. destruct Hd as (_ & _ & _ & Hi & He & _).
    rewrite Hy, Hm in Hi, He. split; assumption.
Qed.

Lemma wellDated_forallb {num : Type} `{Arith num} (ts : list (CSVTransaction num)) :
  forallb (fun t => match monthOf t with Some _ => true | None => false end) ts = true ->
  Forall wellDated ts.
Proof.
  induction ts as [|t ts IH]; simpl; [constructor|].
  intros Hb. apply andb_prop in Hb as [Ht Hts].
  constructor; [|apply IH, Hts].
  unfold wellDated. destruct (monthOf t); [eauto|discriminate].
Qed.

Lemma empty_type_counts_as_expense_witness :
  type (typedTxn (num := float) (rowObject sampleHeaders blankRow)) = Some "expense" /\
  exists out d,
    aggregateByMonth (parseCSV (num := float) sampleCsv) = Returns out /\
    In d out /\ calendarMonth d = (2024, 1) /\
    In (typedTxn (rowObject sampleHeaders blankRow))
      (List.filter isExpense (List.filter (inMonth 2024 1) (parseCSV sampleCsv))) /\
    ~ In (typedTxn (rowObject sampleHeaders blankRow))
        (List.filter isIncome (List.filter (inMonth 2024 1) (parseCSV sampleCsv))) /\
    totalExpenses d
    = sum (map amount
             (List.filter isExpense (List.filter (inMonth 2024 1) (parseCSV sampleCsv)))) /\
    totalIncome d
    = sum (map amount
             (List.filter isIncome (List.filter (inMonth 2024 1) (parseCSV sampleCsv)))).
Proof.
  destruct (empty_type_counts_as_expense (num := float)) as [Hparse Hagg].
  split.
  - apply Hparse; reflexivity.
  - apply (Hagg (parseCSV sampleCsv) (typedTxn (rowObject sampleHeaders blankRow))).
    + apply wellDated_forallb. vm_compute. reflexivity.
    + vm_compute. right. right. left. reflexivity.
    + vm_compute. reflexivity.
    + intros Hc. vm_compute in Hc. discriminate.
Defined.

(** ** JSON *)

Lemma sapp_cons (x : ascii) (a b : string) : String x a +:+ b = String x (a +:+ b).
Proof. reflexivity. Qed.

Lemma sapp_assoc (a b c : string) : (a +:+ b) +:+ c = a +:+ (b +:+ c).
Proof.
  induction a as [|x a IH]; [reflexivity|].
  rewrite !sapp_cons, IH. reflexivity.
Qed.

Lemma sapp_nil_r (a : string) : a +:+ "" = a.
Proof.
  induction a as [|x a IH]; [reflexivity|].
  rewrite sapp_cons, IH. reflexivity.
Qed.

Lemma slength_app (a b : string) :
  String.length (a +:+ b) = (String.length a + String.length b)%nat.
Proof.
  induction a as [|x a IH]; [reflexivity|].
  rewrite sapp_cons. cbn [String.length]. rewrite IH. reflexivity.
Qed.

Section JsonFacts.
Context {num : Type} `{NumberText num}.

(** Reading the text of one character gives the character back. *)
Lemma parseStringBody_escapeChar (c : ascii) (tail : string) :
  parseStringBody (escapeChar c +:+ tail)
  = match parseStringBody tail with
    | Some (body, rest) => Some (String c body, rest)
    | None => None
    end.
Proof.
  destruct c as [[] [] [] [] [] [] [] []]; reflexivity.
Qed.

Lemma parseStringBody_escapeString (s rest : string) :
  parseStringBody (escapeString s +:+ String dquote rest) = Some (s, rest).
Proof.
  induction s as [|c s IH]; [reflexivity|].
  change (escapeString (String c s)) with (escapeChar c +:+ escapeString s).
  rewrite sapp_assoc, parseStringBody_escapeChar, IH. reflexivity.
Qed.

Lemma numberStep_numberChar (st st' : numberState) (c : ascii) :
  numberStep st c = Some st' -> isNumberChar c = true.
Proof.
  destruct c as [[] [] [] [] [] [] [] []]; destruct st; vm_compute;
    intros Hs; try discriminate Hs; reflexivity.
Qed.

Lemma spanNumber_token (tok : string) :
  forall st rest,
    numberRun st tok = true -> boundary rest ->
    spanNumber (tok +:+ rest) = (tok, rest).
Proof.
  induction tok as [|c tok IH]; intros st rest Hrun Hb.
  - simpl. destruct rest as [|c r]; [reflexivity|].
    simpl in Hb. simpl. rewrite Hb. reflexivity.
  - simpl in Hrun. destruct (numberStep st c) as [st'|] eqn:Hstep; [|discriminate].
    simpl. rewrite (numberStep_numberChar _ _ _ Hstep), (IH st' rest Hrun Hb).
    reflexivity.
Qed.

Lemma validJsonNumber_start (tok : string) :
  validJsonNumber tok = true ->
  exists c r, tok = String c r /\ (isDigit c || Ascii.eqb c "-")%bool = true.
Proof.
  unfold validJsonNumber. destruct tok as [|c r]; [discriminate|].
  intros Hrun. exists c, r. split; [reflexivity|].
  change (numberRun NStart (String c r))
    with (match numberStep NStart c with
          | Some st' => numberRun st' r
          | None => false
          end) in Hrun.
  destruct (numberStep NStart c) eqn:Hstep; [|discriminate].
  clear Hrun. revert Hstep.
  destruct c as [[] [] [] [] [] [] [] []]; vm_compute;
    intros Hs; try discriminate Hs; reflexivity.
Qed.

Lemma numberStart_dispatch (c : ascii) :
  (isDigit c || Ascii.eqb c "-")%bool = true ->
  isJsonSpace c = false /\ Ascii.eqb c "{" = false /\ Ascii.eqb c "[" = false /\
  Ascii.eqb c dquote = false /\ Ascii.eqb c "]" = false.
Proof.
  destruct c as [[] [] [] [] [] [] [] []]; vm_compute;
    intros Hs; try discriminate Hs; repeat split.
Qed.
(** *** The parser, one case at a time *)

Lemma parseItems_unfold (fuel : nat) (s : string) :
  parseItems (S fuel) s
  = match parseValue fuel s with
    | Some (v, r1) =>
        match skipSpace r1 with
        | String c r2 =>
            if Ascii.eqb c "," then
              match parseItems fuel r2 with
              | Some (vs, r3) => Some (v :: vs, r3)
              | None => None
              end
            else if Ascii.eqb c "]" then Some ([v], r2)
            else None
        | EmptyString => None
        end
    | None => None
    end.
Proof. reflexivity. Qed.

Lemma parseMembers_unfold (fuel : nat) (key rest : string) :
  parseMembers (S fuel) (quoteString key +:+ String ":" rest)
  = match parseValue fuel rest with
    | Some (v, r3) =>
        match skipSpace r3 with
        | String c r4 =>
            if Ascii.eqb c "," then
              match parseMembers fuel r4 with
              | Some (ms, r5) => Some ((key, v) :: ms, r5)
              | None => None
              end
            else if Ascii.eqb c "}" then Some ([(key, v)], r4)
            else None
        | EmptyString => None
        end
    | None => None
    end.
Proof.
  unfold quoteString. rewrite sapp_cons, sapp_assoc.
  change (String dquote EmptyString +:+ String ":" rest)
    with (String dquote (String ":" rest)).
  change (parseMembers (S fuel)
            (String dquote (escapeString key +:+ String dquote (String ":" rest))))
    with (match parseStringBody (escapeString key +:+ String dquote (String ":" rest)) with
          | Some (k, r1) =>
              match stripPrefix ":" (skipSpace r1) with
              | Some r2 =>
                  match parseValue fuel r2 with
                  | Some (v, r3) =>
                      match skipSpace r3 with
                      | String c r4 =>
                          if Ascii.eqb c "," then
                            match parseMembers fuel r4 with
                            | Some (ms, r5) => Some ((k, v) :: ms, r5)
                            | None => None
                            end
                          else if Ascii.eqb c "}" then Some ([(k, v)], r4)
                          else None
                      | EmptyString => None
                      end
                  | None => None
                  end
              | None => None
              end
          | None => None
          end).
  rewrite parseStringBody_escapeString. reflexivity.
Qed.

Lemma parseValue_number (fuel : nat) (tok rest : string) :
  validJsonNumber tok = true -> boundary rest ->
  parseValue (S fuel) (tok +:+ rest) = Some (JNumber (stringToNumber tok), rest).
Proof.
  intros Hv Hb.
  destruct (validJsonNumber_start tok Hv) as (c & r & -> & Hc).
  destruct (numberStart_dispatch c Hc) as (Hsp & Hbrace & Hbracket & Hq & _).
  rewrite sapp_cons.
  change (parseValue (S fuel) (String c (r +:+ rest)))
    with (match skipSpace (String c (r +:+ rest)) with
          | EmptyString => None
          | String c0 r0 =>
              if Ascii.eqb c0 "{" then
                match stripPrefix "}" (skipSpace r0) with
                | Some r' => Some (JObject [], r')
                | None =>
                    match parseMembers fuel r0 with
                    | Some (members, rest') =>
                        Some (JObject (foldl setMember [] members), rest')
                    | None => None
                    end
                end
              else if Ascii.eqb c0 "[" then
                match stripPrefix "]" (skipSpace r0) with
                | Some r' => Some (JArray [], r')
                | None =>
                    match parseItems fuel r0 with
                    | Some (items, rest') => Some (JArray items, rest')
                    | None => None
                    end
                end
              else if Ascii.eqb c0 dquote then
                match parseStringBody r0 with
                | Some (body, rest') => Some (JString body, rest')
                | None => None
                end
              else if (isDigit c0 || Ascii.eqb c0 "-")%bool then
                let '(tok', rest') := spanNumber (String c0 r0) in
                if validJsonNumber tok' then Some (JNumber (stringToNumber tok'), rest')
                else None
              else
                match stripPrefix "true" (String c0 r0) with
                | Some rest' => Some (JBool true, rest')
                | None =>
                    match stripPrefix "false" (String c0 r0) with
                    | Some rest' => Some (JBool false, rest')
                    | None =>
                        match stripPrefix "null" (String c0 r0) with
                        | Some rest' => Some (JNull, rest')
                        | None => None
                        end
                    end
                end
          end).
  cbn [skipSpace]. rewrite Hsp, Hbrace, Hbracket, Hq, Hc.
  rewrite <- sapp_cons, (spanNumber_token _ NStart rest Hv Hb), Hv. reflexivity.
Qed.

Lemma parseValue_array (fuel : nat) (c : ascii) (r : string) :
  isJsonSpace c = false -> Ascii.eqb c "]" = false ->
  parseValue (S fuel) (String "[" (String c r))
  = match parseItems fuel (String c r) with
    | Some (items, rest) => Some (JArray items, rest)
    | None => None
    end.
Proof.
  intros Hsp Hb.
  change (parseValue (S fuel) (String "[" (String c r)))
    with (match stripPrefix "]" (skipSpace (String c r)) with
          | Some r' => Some (JArray [], r')
          | None =>
              match parseItems fuel (String c r) with
              | Some (items, rest) => Some (JArray items, rest)
              | None => None
              end
          end).
  cbn [skipSpace]. rewrite Hsp. cbn [stripPrefix].
  rewrite Ascii.eqb_sym, Hb. reflexivity.
Qed.

Lemma parseValue_string (fuel : nat) (r : string) :
  parseValue (S fuel) (String dquote r)
  = match parseStringBody r with
    | Some (body, rest) => Some (JString body, rest)
    | None => None
    end.
Proof. reflexivity. Qed.

Lemma parseValue_object (fuel : nat) (r : string) :
  parseValue (S fuel) (String "{" (String dquote r))
  = match parseMembers fuel (String dquote r) with
    | Some (members, rest) => Some (JObject (foldl setMember [] members), rest)
    | None => None
    end.
Proof. reflexivity. Qed.
(** *** Values read back *)

Lemma serializable_array (items : list (json num)) :
  serializable (JArray items) <-> Forall serializable items.
Proof.
  cbn [serializable]. induction items as [|x items IH].
  - split; [constructor|trivial].
  - rewrite Forall_cons, <- IH. reflexivity.
Qed.

Lemma serializable_object (members : list (string * json num)) :
  serializable (JObject members)
  <-> NoDup (map fst members) /\ Forall (fun kv => serializable (snd kv)) members.
Proof.
  cbn [serializable]. apply and_iff_compat_l.
  induction members as [|kv members IH].
  - split; [constructor|trivial].
  - rewrite Forall_cons, <- IH. reflexivity.
Qed.

(** The text of a value starts with a character that is no white space and
    no closing bracket. *)
Lemma JSON_stringify_start (value : json num) :
  serializable value ->
  exists c r, JSON_stringify value = String c r /\
              isJsonSpace c = false /\ Ascii.eqb c "]" = false.
Proof.
  destruct value as [|[]|n|s|items|members]; intros Hs;
    try (eexists _, _; split; [reflexivity|split; reflexivity]).
  destruct Hs as (Hfin & Hvalid & _). cbn [JSON_stringify]. rewrite Hfin.
  destruct (validJsonNumber_start _ Hvalid) as (c & r & Heq & Hc).
  destruct (numberStart_dispatch c Hc) as (Hsp & _ & _ & _ & Hb).
  exists c, r. auto.
Qed.

Lemma parseItems_readsBack (x : json num) (items : list (json num)) :
  Forall readsBack (x :: items) -> Forall serializable (x :: items) ->
  forall fuel rest,
    (list_sum (map (fun v => S (cost v)) (x :: items)) <= fuel)%nat ->
    parseItems fuel (commaSep (map JSON_stringify (x :: items)) +:+ String "]" rest)
    = Some (x :: items, rest).
Proof.
  revert x. induction items as [|y items IH]; intros x Hr Hs fuel rest Hfuel.
  - apply Forall_cons in Hr as [Hx _]. apply Forall_cons in Hs as [Hsx _].
    cbn -[cost] in Hfuel. destruct fuel as [|fuel]; [lia|].
    rewrite parseItems_unfold. cbn [map commaSep].
    rewrite (Hx Hsx fuel (String "]" rest)) by (try reflexivity; lia).
    reflexivity.
  - apply Forall_cons in Hr as [Hx Hr]. apply Forall_cons in Hs as [Hsx Hs].
    cbn -[cost] in Hfuel. destruct fuel as [|fuel]; [lia|].
    rewrite parseItems_unfold.
    change (commaSep (map JSON_stringify (x :: y :: items)))
      with (JSON_stringify x +:+ "," +:+ commaSep (map JSON_stringify (y :: items))).
    rewrite !sapp_assoc.
    change ("," +:+ commaSep (map JSON_stringify (y :: items)) +:+ String "]" rest)
      with (String "," (commaSep (map JSON_stringify (y :: items)) +:+ String "]" rest)).
    rewrite (Hx Hsx fuel) by (try reflexivity; lia).
    change (skipSpace (String "," (commaSep (map JSON_stringify (y :: items))
                                   +:+ String "]" rest)))
      with (String "," (commaSep (map JSON_stringify (y :: items)) +:+ String "]" rest)).
    change (Ascii.eqb "," ",") with true. cbv iota.
    rewrite (IH y Hr Hs fuel rest) by (cbn -[cost]; lia).
    reflexivity.
Qed.

Lemma parseMembers_readsBack (kv : string * json num)
  (members : list (string * json num)) :
  Forall (fun m => readsBack (snd m)) (kv :: members) ->
  Forall (fun m => serializable (snd m)) (kv :: members) ->
  forall fuel rest,
    (list_sum (map (fun m => S (cost (snd m))) (kv :: members)) <= fuel)%nat ->
    parseMembers fuel (commaSep (map memberText (kv :: members)) +:+ String "}" rest)
    = Some (kv :: members, rest).
Proof.
  revert kv. induction members as [|kv' members IH]; intros [k v] Hr Hs fuel rest Hfuel.
  - apply Forall_cons in Hr as [Hx _]. apply Forall_cons in Hs as [Hsx _].
    cbn [fst snd] in Hx, Hsx.
    cbn -[cost] in Hfuel. destruct fuel as [|fuel]; [lia|].
    cbn [map commaSep]. unfold memberText. cbn [fst snd].
    rewrite !sapp_assoc.
    change (":" +:+ JSON_stringify v +:+ String "}" rest)
      with (String ":" (JSON_stringify v +:+ String "}" rest)).
    rewrite parseMembers_unfold.
    rewrite (Hx Hsx fuel (String "}" rest)) by (try reflexivity; lia).
    reflexivity.
  - apply Forall_cons in Hr as [Hx Hr]. apply Forall_cons in Hs as [Hsx Hs].
    cbn [fst snd] in Hx, Hsx.
    cbn -[cost] in Hfuel. destruct fuel as [|fuel]; [lia|].
    change (commaSep (map memberText ((k, v) :: kv' :: members)))
      with (memberText (k, v) +:+ "," +:+ commaSep (map memberText (kv' :: members))).
    unfold memberText at 1. cbn [fst snd].
    rewrite !sapp_assoc.
    change (":" +:+ JSON_stringify v +:+ "," +:+
            commaSep (map memberText (kv' :: members)) +:+ String "}" rest)
      with (String ":" (JSON_stringify v +:+
                        String "," (commaSep (map memberText (kv' :: members))
                                    +:+ String "}" rest))).
    rewrite parseMembers_unfold.
    rewrite (Hx Hsx fuel) by (try reflexivity; lia).
    change (skipSpace (String "," (commaSep (map memberText (kv' :: members))
                                   +:+ String "}" rest)))
      with (String "," (commaSep (map memberText (kv' :: members)) +:+ String "}" rest)).
    change (Ascii.eqb "," ",") with true. cbv iota.
    rewrite (IH kv' Hr Hs fuel rest) by (cbn -[cost]; lia).
    reflexivity.
Qed.

Lemma mapHas_absent {V : Type} (k : string) (m : list (string * V)) :
  k ∉ map fst m -> mapHas k m = false.
Proof.
  induction m as [|[k' v] m IH]; simpl; [reflexivity|].
  intros Hn. destruct (String.eqb_spec k k') as [->|Hne].
  - exfalso. apply Hn. left.
  - apply IH. intros Hi. apply Hn. right. exact Hi.
Qed.

Lemma foldl_setMember_distinct (members acc : list (string * json num)) :
  NoDup (map fst (acc ++ members)) ->
  foldl setMember acc members = acc ++ members.
Proof.
  revert acc. induction members as [|kv members IH]; intros acc Hnd; simpl.
  - rewrite app_nil_r. reflexivity.
  - assert (Hfresh : mapHas (fst kv) acc = false).
    { apply mapHas_absent. rewrite map_app in Hnd. apply NoDup_app in Hnd.
      destruct Hnd as (_ & Hdis & _). intros Hin.
      apply (Hdis _ Hin). left. }
    unfold setMember at 2. rewrite Hfresh.
    rewrite IH; rewrite <- app_assoc; [reflexivity|exact Hnd].
Qed.

(** Every serializable value is read back from its text, whatever
    follows. *)
Lemma parseValue_readsBack (value : json num) : readsBack value.
Proof.
  induction value as [|b|n|s|items IH|members IH] using json_nested_ind;
    intros Hs fuel rest Hfuel Hb; (destruct fuel as [|fuel]; [cbn [cost] in Hfuel; lia|]).
  - reflexivity.
  - destruct b; reflexivity.
  - destruct Hs as (Hfin & Hvalid & Hback). cbn [JSON_stringify]. rewrite Hfin.
    rewrite (parseValue_number fuel _ rest Hvalid Hb), Hback. reflexivity.
  - cbn [JSON_stringify]. unfold quoteString. rewrite sapp_cons, sapp_assoc.
    change (String dquote EmptyString +:+ rest) with (String dquote rest).
    rewrite parseValue_string, parseStringBody_escapeString. reflexivity.
  - apply serializable_array in Hs. cbn [cost] in Hfuel.
    destruct items as [|x items]; [reflexivity|].
    change (JSON_stringify (JArray (x :: items)))
      with (String "[" (commaSep (map JSON_stringify (x :: items)) +:+ "]")).
    rewrite sapp_cons, sapp_assoc.
    change ("]" +:+ rest) with (String "]" rest).
    assert (Hstart := JSON_stringify_start x (Forall_inv Hs)).
    destruct Hstart as (c & r & Heq & Hsp & Hbr).
    assert (Htext : exists r', commaSep (map JSON_stringify (x :: items))
                               +:+ String "]" rest = String c r').
    { destruct items as [|y items].
      - cbn [map commaSep]. rewrite Heq, sapp_cons. eauto.
      - change (commaSep (map JSON_stringify (x :: y :: items)))
          with (JSON_stringify x +:+ "," +:+ commaSep (map JSON_stringify (y :: items))).
        rewrite Heq, !sapp_cons. eauto. }
    destruct Htext as (r' & Htext).
    pose proof (parseItems_readsBack x items IH Hs fuel rest ltac:(lia)) as Hitems.
    rewrite Htext in Hitems |- *.
    rewrite (parseValue_array fuel c r' Hsp Hbr), Hitems. reflexivity.
  - apply serializable_object in Hs as [Hnd Hs]. cbn [cost] in Hfuel.
    destruct members as [|kv members]; [reflexivity|].
    change (JSON_stringify (JObject (kv :: members)))
      with (String "{" (commaSep (map memberText (kv :: members)) +:+ "}")).
    rewrite sapp_cons, sapp_assoc.
    change ("}" +:+ rest) with (String "}" rest).
    assert (Htext : exists r', commaSep (map memberText (kv :: members))
                               +:+ String "}" rest = String dquote r').
    { destruct members as [|kv' members].
      - cbn [map commaSep]. unfold memberText, quoteString.
        rewrite !sapp_cons. eauto.
      - change (commaSep (map memberText (kv :: kv' :: members)))
          with (memberText kv +:+ "," +:+ commaSep (map memberText (kv' :: members))).
        unfold memberText at 1, quoteString. rewrite !sapp_cons. eauto. }
    destruct Htext as (r' & Htext).
    pose proof (parseMembers_readsBack kv members IH Hs fuel rest ltac:(lia)) as Hm.
    rewrite Htext in Hm |- *.
    rewrite parseValue_object, Hm.
    rewrite (foldl_setMember_distinct (kv :: members) []) by exact Hnd.
    reflexivity.
Qed.
Lemma commaSep_cost {A : Type} (text : A -> string) (weight : A -> nat) (l : list A) :
  Forall (fun x => (weight x <= String.length (text x))%nat) l ->
  (list_sum (map (fun x => S (weight x)) l) <= S (String.length (commaSep (map text l))))%nat.
Proof.
  induction 1 as [|x l Hx Hl IH]; [cbn; lia|].
  destruct l as [|y l].
  - cbn -[String.length]. lia.
  - change (commaSep (map text (x :: y :: l)))
      with (text x +:+ "," +:+ commaSep (map text (y :: l))).
    rewrite !slength_app.
    change (list_sum (map (fun x0 => S (weight x0)) (x :: y :: l)))
      with (S (weight x) + list_sum (map (fun x0 => S (weight x0)) (y :: l)))%nat.
    change (String.length ",") with 1%nat. lia.
Qed.

Lemma cost_length (value : json num) :
  serializable value -> (cost value <= String.length (JSON_stringify value))%nat.
Proof.
  induction value as [|b|n|s|items IH|members IH] using json_nested_ind; intros Hs.
  - cbn. lia.
  - destruct b; cbn; lia.
  - destruct Hs as (Hfin & Hvalid & _). cbn [JSON_stringify cost]. rewrite Hfin.
    destruct (validJsonNumber_start _ Hvalid) as (c & r & -> & _). cbn. lia.
  - cbn [JSON_stringify cost]. unfold quoteString. cbn [String.length]. lia.
  - apply serializable_array in Hs.
    change (JSON_stringify (JArray items))
      with (String "[" (commaSep (map JSON_stringify items) +:+ "]")).
    cbn [cost String.length]. rewrite slength_app.
    change (String.length "]") with 1%nat.
    assert (Hall : Forall (fun x => (cost x <= String.length (JSON_stringify x))%nat) items).
    { apply Forall_forall. intros x Hx.
      apply (proj1 (Forall_forall _ _) IH x Hx), (proj1 (Forall_forall _ _) Hs x Hx). }
    pose proof (commaSep_cost JSON_stringify cost items Hall). lia.
  - apply serializable_object in Hs as [_ Hs].
    change (JSON_stringify (JObject members))
      with (String "{" (commaSep (map memberText members) +:+ "}")).
    cbn [cost String.length]. rewrite slength_app.
    change (String.length "}") with 1%nat.
    assert (Hall : Forall (fun kv => (cost (snd kv) <= String.length (memberText kv))%nat)
                     members).
    { apply Forall_forall. intros kv Hkv.
      pose proof (proj1 (Forall_forall _ _) IH kv Hkv
                    (proj1 (Forall_forall _ _) Hs kv Hkv)) as Hc.
      unfold memberText. rewrite !slength_app. lia. }
    pose proof (commaSep_cost memberText (fun kv => cost (snd kv)) members Hall). lia.
Qed.

(** [JSON.parse(JSON.stringify(value))] is [value] for every serializable
    value. *)
Lemma JSON_round_trip (value : json num) :
  serializable value -> JSON_parse (JSON_stringify value) = Returns value.
Proof.
  intros Hs. unfold JSON_parse.
  pose proof (parseValue_readsBack value Hs
                (S (String.length (JSON_stringify value))) EmptyString) as Hp.
  rewrite sapp_nil_r in Hp. rewrite Hp; [reflexivity| |exact I].
  pose proof (cost_length value Hs). lia.
Qed.

Lemma JSON_parse_settles (text : string) :
  (exists v : json num, JSON_parse text = Returns v)
  \/ (exists e, JSON_parse (num := num) text = Throws e).
Proof.
  unfold JSON_parse.
  destruct (parseValue (S (String.length text)) text) as [[v rest]|]; [|eauto].
  destruct (skipSpace rest); eauto.
Qed.
End JsonFacts.

(** ** Result Store *)

Lemma setItem_settles (key value : string) (w : World) :
  (exists items,
      storage w = Some items /\
      storageSize (<[key := value]> items) <= quota w /\
      setItem key value w = (Returns tt, stored w items key value))
  \/ (exists e, setItem key value w = (Throws e, w)).
Proof.
  unfold setItem. destruct (storage w) as [items|] eqn:Hs; [|eauto].
  destruct (Z.leb_spec (storageSize (<[key := value]> items)) (quota w)); [|eauto].
  left. exists items. auto.
Qed.

Section ResultStoreFacts.
Context {num : Type} `{Arith num} `{NumberText num}.

Lemma saveProjectionsToStorage_run (result : ProjectionResult num) (w : World) :
  saveProjectionsToStorage result w
  = match setItem storageKey (JSON_stringify (valueOfResult result)) w with
    | (Throws e, w') => consoleError "[Projections] Failed to save:" e w'
    | done => done
    end.
Proof. reflexivity. Qed.

Lemma loadProjectionsFromStorage_run (w : World) :
  loadProjectionsFromStorage (num := num) w
  = match storage w with
    | None =>
        (Returns JNull,
         logged w "[Projections] Failed to load:"
           (JsError "SecurityError" "The operation is insecure."))
    | Some items =>
        match items !! storageKey with
        | None => (Returns JNull, w)
        | Some text =>
            match JSON_parse text with
            | Returns v => (Returns v, w)
            | Throws e => (Returns JNull, logged w "[Projections] Failed to load:" e)
            | Beyond => (Beyond, w)
            end
        end
    end.
Proof.
  unfold loadProjectionsFromStorage, tryCatch, mbind, M_bind, getItem, lift,
    consoleError.
  destruct (storage w) as [items|]; [|reflexivity].
  destruct (items !! storageKey) as [text|]; [|reflexivity].
  destruct (JSON_parse text); reflexivity.
Qed.

Lemma valueOfResult_serializable (result : ProjectionResult num) :
  serializableResult result -> serializable (valueOfResult result).
Proof.
  intros (Hps & Hacc & Hmonths). unfold valueOfResult.
  assert (Hproj : serializable (JArray (map valueOfProjection (projections result)))).
  { apply serializable_array. apply (proj2 (Forall_map_iff _ _ _)).
    eapply Forall_impl; [exact Hps|]. intros p [Hi He].
    unfold valueOfProjection. apply serializable_object. split.
    - apply NoDup_ListNoDup.
      repeat (constructor; [cbn; intuition discriminate|]); constructor.
    - constructor; [exact I|]. constructor; [exact Hi|].
      constructor; [exact He|]. constructor. }
  apply serializable_object. split.
  - destruct (modelAccuracy result); apply NoDup_ListNoDup;
      repeat (constructor; [cbn; intuition discriminate|]); constructor.
  - destruct (modelAccuracy result) as [a|] eqn:Ha; cbn [app].
    + constructor; [exact Hproj|]. constructor; [exact (Hacc a eq_refl)|].
      constructor; [exact I|]. constructor; [exact Hmonths|]. constructor.
    + constructor; [exact Hproj|].
      constructor; [exact I|]. constructor; [exact Hmonths|]. constructor.
Qed.
End ResultStoreFacts.

(** X1. Saving never throws. Whatever the world, the call returns; when
    the write is refused (storage full or denied) the stored items are left
    as they were and one line is written to the error console; when the
    write succeeds the world is the one [setItem] leaves. *)
Theorem saveProjectionsToStorage_swallows_write_errors {num : Type}
  `{Arith num} `{NumberText num} (result : ProjectionResult num) (w : World) :
  fst (saveProjectionsToStorage result w) = Returns tt /\
  (forall e w',
      setItem storageKey (JSON_stringify (valueOfResult result)) w = (Throws e, w') ->
      snd (saveProjectionsToStorage result w)
      = logged w "[Projections] Failed to save:" e) /\
  (forall w',
      setItem storageKey (JSON_stringify (valueOfResult result)) w = (Returns tt, w') ->
      snd (saveProjectionsToStorage result w) = w').
Proof.
  rewrite saveProjectionsToStorage_run.
  destruct (setItem_settles storageKey (JSON_stringify (valueOfResult result)) w)
    as [(items & Hs & Hq & ->)|(e & ->)].
  - split; [reflexivity|]. split; [discriminate|]. intros w' [= <-]. reflexivity.
  - split; [reflexivity|]. split; [|discriminate]. intros e' w' [= <- <-]. reflexivity.
Qed.

(** X2. Loading never throws. It gives [null] when the storage is denied,
    when nothing is stored under the key, and when the stored text is no
    JSON (in which case a line goes to the error console); otherwise it
    gives whatever [JSON.parse] reads, unvalidated. *)
Theorem loadProjectionsFromStorage_absent_or_damaged {num : Type}
  `{Arith num} `{NumberText num} (w : World) :
  (exists v : json num, fst (loadProjectionsFromStorage w) = Returns v) /\
  (storage w = None ->
   fst (loadProjectionsFromStorage (num := num) w) = Returns JNull) /\
  (forall items,
      storage w = Some items -> items !! storageKey = None ->
      loadProjectionsFromStorage (num := num) w = (Returns JNull, w)) /\
  (forall items text e,
      storage w = Some items -> items !! storageKey = Some text ->
      JSON_parse (num := num) text = Throws e ->
      loadProjectionsFromStorage (num := num) w
      = (Returns JNull, logged w "[Projections] Failed to load:" e)) /\
  (forall items text v,
      storage w = Some items -> items !! storageKey = Some text ->
      JSON_parse text = Returns v ->
      loadProjectionsFromStorage w = (Returns v, w)).
Proof.
  rewrite loadProjectionsFromStorage_run.
  destruct (storage w) as [items|] eqn:Hs.
  - destruct (items !! storageKey) as [text|] eqn:Hk.
    + destruct (JSON_parse_settles (num := num) text) as [(v & Hp)|(e & Hp)]; rewrite Hp.
      * split; [eauto|]. split; [discriminate|].
        split; [intros items' [= <-]; congruence|].
        split; intros items' text' x [= <-] Hk' Hp'; congruence.
      * split; [eauto|]. split; [discriminate|].
        split; [intros items' [= <-]; congruence|].
        split; intros items' text' x [= <-] Hk' Hp'; congruence.
    + split; [eauto|]. split; [discriminate|].
      split; [reflexivity|].
      split; intros items' text' x [= <-] Hk' Hp'; congruence.
  - split; [eauto|]. split; [reflexivity|].
    split; [discriminate|]. split; discriminate.
Qed.

Lemma loadProjectionsFromStorage_absent_or_damaged_witness :
  loadProjectionsFromStorage (num := float) freshWorld = (Returns JNull, freshWorld) /\
  loadProjectionsFromStorage (num := float) damagedWorld
  = (Returns JNull,
     logged damagedWorld "[Projections] Failed to load:"
       (JsError "SyntaxError" "Unexpected token in JSON")).
Proof.
  destruct (loadProjectionsFromStorage_absent_or_damaged (num := float) freshWorld)
    as (_ & _ & Hfresh & _).
  destruct (loadProjectionsFromStorage_absent_or_damaged (num := float) damagedWorld)
    as (_ & _ & _ & Hdamaged & _).
  split.
  - apply (Hfresh ∅); reflexivity.
  - apply (Hdamaged {[ storageKey := "{projections:" ]} "{projections:");
      vm_compute; reflexivity.
Defined.



(** ** The pipeline *)

(** X4. The Feature Builder throws on the empty sequence and on nothing
    else: for one month or more it returns one feature vector of four
    components and one label per target for every month. *)
Theorem createFeatures_fails_only_on_empty {num : Type} `{Arith num}
  (monthlyData : list (MonthlyData num)) :
  (monthlyData = [] ->
   createFeatures monthlyData
   = Throws (JsError "Error" "No monthly data available for feature creation")) /\
  (monthlyData <> [] ->
   exists fs,
     createFeatures monthlyData = Returns fs /\
     length (features fs) = length monthlyData /\
     length (incomeLabels fs) = length monthlyData /\
     length (expenseLabels fs) = length monthlyData /\
     Forall (fun row => length row = 4%nat) (features fs)).
Proof.
  split; [intros ->; reflexivity|].
  destruct monthlyData as [|first others]; [congruence|]. intros _.
  eexists. split; [reflexivity|].
  cbn [features incomeLabels expenseLabels].
  rewrite length_imap, !length_map. repeat split.
  apply Forall_lookup_2. intros i row Hrow. rewrite list_lookup_imap in Hrow.
  destruct ((first :: others) !! i); [|discriminate].
  injection Hrow as <-. reflexivity.
Qed.

Lemma saveProjectionsToStorage_returns {num : Type} `{Arith num} `{NumberText num}
  (result : ProjectionResult num) (w : World) :
  saveProjectionsToStorage result w
  = (Returns tt, snd (saveProjectionsToStorage result w)).
Proof.
  rewrite saveProjectionsToStorage_run.
  destruct (setItem_settles storageKey (JSON_stringify (valueOfResult result)) w)
    as [(items & _ & _ & ->)|(e & ->)]; reflexivity.
Qed.

Section PipelineFacts.
Context {num : Type} `{Arith num} `{ParseFloat num} `{NumberText num}.

(** The result the pipeline builds from the aggregates and the features. *)
Lemma generateAndSaveProjections_run (env : Env num) (cur : string) (w : World) :
  generateAndSaveProjections env cur w
  = match loadCSVFile env seedFile w with
    | (Returns transactions, w1) =>
        if (length (filterByCurrency transactions cur) =? 0)%nat
        then (Throws (JsError "Error" ("No transactions found for currency: " +:+ cur)), w1)
        else
          match aggregateByMonth (filterByCurrency transactions cur) with
          | Returns monthlyData =>
              if (length monthlyData <? 3)%nat
              then (Throws (JsError "Error"
                              "Need at least 3 months of data for meaningful predictions"),
                    w1)
              else
                match createFeatures monthlyData with
                | Returns fs =>
                    match generateProjections
                            (fitted env 0 (features fs) (incomeLabels fs))
                            (fitted env 1 (features fs) (expenseLabels fs))
                            (maxIncome fs) (maxExpense fs) (minYear fs) (maxYear fs)
                            monthlyData 12 with
                    | Returns ps =>
                        (Returns {| projections := ps; modelAccuracy := None;
                                    trainingDate := now env;
                                    historicalMonths := Z.of_nat (length monthlyData) |},
                         snd (saveProjectionsToStorage
                                {| projections := ps; modelAccuracy := None;
                                   trainingDate := now env;
                                   historicalMonths := Z.of_nat (length monthlyData) |}
                                w1))
                    | Throws e => (Throws e, w1)
                    | Beyond => (Beyond, w1)
                    end
                | Throws e => (Throws e, w1)
                | Beyond => (Beyond, w1)
                end
          | Throws e => (Throws e, w1)
          | Beyond => (Beyond, w1)
          end
    | (Throws e, w1) => (Throws e, w1)
    | (Beyond, w1) => (Beyond, w1)
    end.
Proof.
  unfold generateAndSaveProjections.
  unfold mbind at 1. unfold M_bind at 1.
  destruct (loadCSVFile env seedFile w) as [[transactions|e|] w1]; try reflexivity.
  unfold mbind at 1. unfold M_bind at 1.
  destruct (length (filterByCurrency transactions cur) =? 0)%nat; [reflexivity|].
  cbn [mret M_ret].
  unfold mbind at 1. unfold M_bind at 1. unfold lift at 1.
  destruct (aggregateByMonth (filterByCurrency transactions cur))
    as [monthlyData|e|]; try reflexivity.
  unfold mbind at 1. unfold M_bind at 1.
  destruct (length monthlyData <? 3)%nat; [reflexivity|].
  cbn [mret M_ret].
  unfold mbind at 1. unfold M_bind at 1. unfold lift at 1.
  destruct (createFeatures monthlyData) as [fs|e|]; try reflexivity.
  unfold mbind at 1. unfold M_bind at 1. unfold lift at 1.
  destruct (generateProjections _ _ _ _ _ _ monthlyData 12) as [ps|e|];
    try reflexivity.
  unfold mbind at 1. unfold M_bind at 1.
  rewrite saveProjectionsToStorage_returns. reflexivity.
Qed.
End PipelineFacts.


Section PipelineGuards.
Context {num : Type} `{Arith num} `{ParseFloat num} `{NumberText num}.

Lemma loadCSVFile_world (env : Env num) (fileName : string) (w w1 : World)
  (ts : list (CSVTransaction num)) :
  loadCSVFile env fileName w = (Returns ts, w1) -> w1 = w.
Proof.
  intros Hl.
  destruct (loadCSVFile_settles env fileName w) as [(ts' & Hl')|(e & w' & Hl')];
    rewrite Hl' in Hl; congruence.
Qed.

(** X5. The two guards of the pipeline. When the file loads and the records
    of the currency fill fewer than three months, the pipeline throws an
    [Error]: "No transactions found for currency: <cur>" when no record has
    the currency, "Need at least 3 months of data for meaningful predictions"
    otherwise. No model is fitted, nothing is logged and nothing is written
    to storage: the world is the one the pipeline started in. *)
Theorem generateAndSaveProjections_needs_three_months
  (env : Env num) (cur : string) (w w1 : World)
  (transactions : list (CSVTransaction num)) (monthlyData : list (MonthlyData num)) :
  loadCSVFile env seedFile w = (Returns transactions, w1) ->
  aggregateByMonth (filterByCurrency transactions cur) = Returns monthlyData ->
  (length monthlyData < 3)%nat ->
  generateAndSaveProjections env cur w
  = (Throws (JsError "Error"
               (if (length (filterByCurrency transactions cur) =? 0)%nat
                then "No transactions found for currency: " +:+ cur
                else "Need at least 3 months of data for meaningful predictions")),
     w).
Proof.
  intros Hl Ha Hn. pose proof (loadCSVFile_world _ _ _ _ _ Hl) as ->.
  rewrite generateAndSaveProjections_run, Hl.
  destruct (length (filterByCurrency transactions cur) =? 0)%nat; [reflexivity|].
  rewrite Ha. apply Nat.ltb_lt in Hn. rewrite Hn. reflexivity.
Qed.

(** X6. With three months or more of aggregates the pipeline returns: a
    result of twelve projections, without an accuracy, stamped with the
    current time and the number of historical months; the same result is
    what it hands to the store, whose failures it does not see (a full or
    unavailable storage changes the log only). *)
Theorem generateAndSaveProjections_returns_twelve_months
  (env : Env num) (cur : string) (w w1 : World)
  (transactions : list (CSVTransaction num)) (monthlyData : list (MonthlyData num)) :
  loadCSVFile env seedFile w = (Returns transactions, w1) ->
  aggregateByMonth (filterByCurrency transactions cur) = Returns monthlyData ->
  (3 <= length monthlyData)%nat ->
  exists result,
    generateAndSaveProjections env cur w
    = (Returns result, snd (saveProjectionsToStorage result w)) /\
    length (projections result) = 12%nat /\
    modelAccuracy result = None /\
    trainingDate result = now env /\
    historicalMonths result = Z.of_nat (length monthlyData).
Proof.
  intros Hl Ha Hn. pose proof (loadCSVFile_world _ _ _ _ _ Hl) as ->.
  rewrite generateAndSaveProjections_run, Hl.
  destruct (filterByCurrency transactions cur) as [|t ts] eqn:Hf.
  { cbv in Ha. injection Ha as <-. simpl in Hn. lia. }
  cbn [length Nat.eqb]. rewrite Ha.
  destruct (Nat.ltb_spec (length monthlyData) 3) as [Hlt|_]; [lia|].
  destruct monthlyData as [|first others]; [simpl in Hn; lia|].
  destruct (createFeatures_nonempty (first :: others)) as [fs ->]; [discriminate|].
  unfold generateProjections.
  destruct (last (first :: others)) as [lastMonth|] eqn:Hlast.
  2:{ apply last_None in Hlast. discriminate. }
  eexists. split; [reflexivity|].
  cbn [projections modelAccuracy trainingDate historicalMonths].
  rewrite projectLoop_length. repeat split.
Qed.


(** X8. The three ways the loader fails: a rejected request, a response
    whose status is not ok (an [Error] "Failed to load <file>: <status
    text>") and a body that cannot be read. Each is logged once, under
    "Error loading CSV file <file>:", and thrown again; the pipeline passes
    the error on to its caller without logging or storing anything more. *)
Theorem loadCSVFile_logs_and_rethrows (env : Env num) (fileName : string) (w : World) :
  (forall e,
      fetch env ("/data/" +:+ fileName) = Rejected e ->
      loadCSVFile env fileName w
      = (Throws e, logged w ("Error loading CSV file " +:+ fileName +:+ ":") e)) /\
  (forall response,
      fetch env ("/data/" +:+ fileName) = Resolved response ->
      ok response = false ->
      loadCSVFile env fileName w
      = (Throws (JsError "Error"
                   ("Failed to load " +:+ fileName +:+ ": " +:+ statusText response)),
         logged w ("Error loading CSV file " +:+ fileName +:+ ":")
           (JsError "Error"
              ("Failed to load " +:+ fileName +:+ ": " +:+ statusText response)))) /\
  (forall response e,
      fetch env ("/data/" +:+ fileName) = Resolved response ->
      ok response = true ->
      text response = Rejected e ->
      loadCSVFile env fileName w
      = (Throws e, logged w ("Error loading CSV file " +:+ fileName +:+ ":") e)) /\
  (forall cur e w1,
      loadCSVFile env seedFile w = (Throws e, w1) ->
      generateAndSaveProjections env cur w = (Throws e, w1)).
Proof.
  repeat split.
  - intros e Hf. unfold loadCSVFile, tryCatch, mbind, M_bind, await.
    rewrite Hf. reflexivity.
  - intros response Hf Hok. unfold loadCSVFile, tryCatch, mbind, M_bind, await.
    rewrite Hf, Hok. reflexivity.
  - intros response e Hf Hok Ht. unfold loadCSVFile, tryCatch, mbind, M_bind, await.
    rewrite Hf, Hok, Ht. reflexivity.
  - intros cur e w1 Hl. rewrite generateAndSaveProjections_run, Hl. reflexivity.
Qed.
End PipelineGuards.

Lemma generateAndSaveProjections_needs_three_months_witness :
  generateAndSaveProjections (servingEnv oneMonthCsv) "GBP" freshWorld
  = (Throws (JsError "Error" "Need at least 3 months of data for meaningful predictions"),
     freshWorld)
  /\ generateAndSaveProjections (servingEnv oneMonthCsv) "USD" freshWorld
  = (Throws (JsError "Error" "No transactions found for currency: USD"), freshWorld).
Proof.
  split.
  - eapply (generateAndSaveProjections_needs_three_months
              (servingEnv oneMonthCsv) "GBP" freshWorld freshWorld
              (parseCSV oneMonthCsv)).
    + reflexivity.
    + vm_compute. reflexivity.
    + simpl. lia.
  - eapply (generateAndSaveProjections_needs_three_months
              (servingEnv oneMonthCsv) "USD" freshWorld freshWorld
              (parseCSV oneMonthCsv)).
    + reflexivity.
    + vm_compute. reflexivity.
    + simpl. lia.
Defined.

Lemma generateAndSaveProjections_returns_twelve_months_witness :
  exists result,
    generateAndSaveProjections (servingEnv fourMonthsCsv) "GBP" fullWorld
    = (Returns result, snd (saveProjectionsToStorage result fullWorld)) /\
    length (projections result) = 12%nat /\
    modelAccuracy result = None /\
    trainingDate result = now (servingEnv fourMonthsCsv) /\
    historicalMonths result = 4.
Proof.
  eapply (generateAndSaveProjections_returns_twelve_months
            (servingEnv fourMonthsCsv) "GBP" fullWorld fullWorld
            (parseCSV fourMonthsCsv)
            [ {| year := 2024; month := 1; monthKey := "2024-01";
                 totalIncome := 1000%float; totalExpenses := 800%float;
                 transactionCount := 2 |};
              {| year := 2024; month := 2; monthKey := "2024-02";
                 totalIncome := 1000%float; totalExpenses := 900%float;
                 transactionCount := 2 |};
              {| year := 2024; month := 3; monthKey := "2024-03";
                 totalIncome := 1200%float; totalExpenses := 800%float;
                 transactionCount := 2 |};
              {| year := 2024; month := 4; monthKey := "2024-04";
                 totalIncome := 1200%float; totalExpenses := 900%float;
                 transactionCount := 2 |} ]).
  - reflexivity.
  - vm_compute. reflexivity.
  - simpl. lia.
Defined.



(** ** Grouping by key *)

Section GroupingFacts.
Context {A V : Type} (key : A -> string) (init : V) (upd : A -> V -> V).
Implicit Types (m : list (string * V)) (k : string) (xs : list A).

Lemma mapHas_get k m :
  mapHas k m = match mapGet k m with Some _ => true | None => false end.
Proof.
  induction m as [|[k' v] m IH]; simpl; [reflexivity|].
  destruct (String.eqb k k'); [reflexivity|exact IH].
Qed.

Lemma keys_modify k (f : V -> V) m : map fst (mapModify k f m) = map fst m.
Proof.
  induction m as [|[k' v] m IH]; simpl; [reflexivity|].
  destruct (String.eqb k k'); simpl; [reflexivity|]. rewrite IH. reflexivity.
Qed.

Lemma mapGet_modify k k' (f : V -> V) m :
  mapGet k' (mapModify k f m)
  = if String.eqb k' k then f <$> mapGet k m else mapGet k' m.
Proof.
  induction m as [|[k0 v] m IH]; simpl.
  - destruct (String.eqb k' k); reflexivity.
  - destruct (String.eqb_spec k k0) as [->|Hk]; simpl.
    + destruct (String.eqb_spec k' k0); reflexivity.
    + destruct (String.eqb_spec k' k0) as [->|Hk'].
      * destruct (String.eqb_spec k0 k); [congruence|reflexivity].
      * exact IH.
Qed.

Lemma mapGet_append k k0 (v0 : V) m :
  mapGet k (m ++ [(k0, v0)])
  = match mapGet k m with
    | Some v => Some v
    | None => if String.eqb k k0 then Some v0 else None
    end.
Proof.
  induction m as [|[k' v] m IH]; simpl; [reflexivity|].
  destruct (String.eqb k k'); [reflexivity|exact IH].
Qed.

Lemma mapGet_absent k m : mapGet k m = None <-> ~ In k (map fst m).
Proof.
  induction m as [|[k' v] m IH]; simpl; [tauto|].
  destruct (String.eqb_spec k k') as [->|Hk].
  - split; [discriminate|]. intros Hn. exfalso. apply Hn. left. reflexivity.
  - rewrite IH. split; [intros Hn [Hc|Hc]; [congruence|exact (Hn Hc)]|tauto].
Qed.

Lemma mapGet_member k (v : V) m :
  List.NoDup (map fst m) -> (In (k, v) m <-> mapGet k m = Some v).
Proof.
  induction m as [|[k' v'] m IH]; simpl; intros Hnd.
  - split; [tauto|discriminate].
  - inversion Hnd as [|? ? Hnotin Hnd']; subst.
    destruct (String.eqb_spec k k') as [->|Hk].
    + split.
      * intros [Heq|Hin]; [congruence|].
        exfalso. apply Hnotin. apply (in_map fst) in Hin. exact Hin.
      * intros [= ->]. left. reflexivity.
    + rewrite <- (IH Hnd'). split; [intros [Heq|Hin]; [congruence|exact Hin]|tauto].
Qed.

Lemma keys_groupInto m a :
  List.NoDup (map fst m) -> List.NoDup (map fst (groupInto key init upd m a)).
Proof.
  intros Hnd. unfold groupInto. rewrite keys_modify.
  rewrite mapHas_get. destruct (mapGet (key a) m) eqn:Hg; [exact Hnd|].
  rewrite map_app. simpl. apply mapGet_absent in Hg.
  apply NoDup_ListNoDup. apply NoDup_app. repeat split.
  - apply NoDup_ListNoDup, Hnd.
  - intros x Hx Hx'. apply list_elem_of_In in Hx, Hx'.
    destruct Hx' as [<-|[]]. exact (Hg Hx).
  - apply NoDup_singleton.
Qed.

Lemma keys_groupFold xs m :
  List.NoDup (map fst m) ->
  List.NoDup (map fst (fold_left (groupInto key init upd) xs m)).
Proof.
  revert m. induction xs as [|a xs IH]; intros m Hnd; simpl; [exact Hnd|].
  apply IH, keys_groupInto, Hnd.
Qed.

Lemma mapGet_groupInto k m a :
  mapGet k (groupInto key init upd m a)
  = if String.eqb k (key a)
    then Some (upd a (default init (mapGet (key a) m)))
    else mapGet k m.
Proof.
  unfold groupInto. rewrite mapGet_modify, mapHas_get.
  destruct (mapGet (key a) m) as [v|] eqn:Hg.
  - rewrite Hg. reflexivity.
  - rewrite !mapGet_append, Hg, String.eqb_refl.
    destruct (String.eqb_spec k (key a)) as [->|Hk]; [reflexivity|].
    destruct (mapGet k m); reflexivity.
Qed.

(** What the map holds under [k] once [xs] are in: nothing when no member
    has the key, else the updates of the members that have it, in order,
    from the initial entry. *)
Lemma mapGet_groupFold k xs :
  mapGet k (fold_left (groupInto key init upd) xs [])
  = match groupOf key k xs with
    | [] => None
    | a :: rest => Some (fold_left (fun v b => upd b v) (a :: rest) init)
    end.
Proof.
  induction xs as [|a xs IH] using rev_ind; [reflexivity|].
  rewrite fold_left_app. cbn [fold_left]. rewrite mapGet_groupInto.
  unfold groupOf in *. rewrite filter_snoc.
  destruct (String.eqb_spec (key a) k) as [<-|Hne].
  - rewrite String.eqb_refl. rewrite IH.
    destruct (List.filter (fun b => String.eqb (key b) (key a)) xs) as [|b rest].
    + reflexivity.
    + cbn [default from_option id app].
      change (fold_left (fun v b0 => upd b0 v) (b :: rest ++ [a]) init)
        with (fold_left (fun v b0 => upd b0 v) ((b :: rest) ++ [a]) init).
      rewrite fold_left_app. reflexivity.
  - destruct (String.eqb_spec k (key a)) as [->|_]; [congruence|].
    rewrite app_nil_r. exact IH.
Qed.
End GroupingFacts.

(** ** More on the Monthly Aggregator *)

Section AggregatorCounts.
Context {num : Type} `{Arith num}.
Implicit Types (M : @MonthMap num) (t : CSVTransaction num).
Implicit Types (ts : list (CSVTransaction num)).

Lemma totalCount_app (a b : list (MonthlyData num)) :
  totalCount (a ++ b) = totalCount a + totalCount b.
Proof.
  unfold totalCount. induction a as [|d a IH]; simpl; [reflexivity|].
  rewrite IH. lia.
Qed.

Lemma totalCount_perm (a b : list (MonthlyData num)) :
  Permutation a b -> totalCount a = totalCount b.
Proof.
  unfold totalCount. induction 1; simpl; lia.
Qed.

Lemma totalCount_modify k t M :
  mapHas k M = true ->
  totalCount (map snd (mapModify k (account t) M)) = totalCount (map snd M) + 1.
Proof.
  unfold totalCount. induction M as [|[k' d] M IH]; simpl; [discriminate|].
  destruct (String.eqb k k'); simpl; intros Hh.
  - lia.
  - rewrite (IH Hh). lia.
Qed.

Lemma totalCount_enter M y m t :
  totalCount (map snd (enter M y m t)) = totalCount (map snd M) + 1.
Proof.
  unfold enter. destruct (mapHas (monthKeyOf y m) M) eqn:Hh.
  - apply totalCount_modify, Hh.
  - rewrite totalCount_modify.
    + rewrite map_app, totalCount_app. unfold totalCount at 2. simpl. lia.
    + rewrite mapHas_get, mapGet_append, String.eqb_refl.
      destruct (mapGet (monthKeyOf y m) M); reflexivity.
Qed.

Lemma length_enter M y m t : (length (enter M y m t) <= length M + 1)%nat.
Proof.
  unfold enter.
  rewrite <- (length_map fst (mapModify _ _ _)), keys_modify, length_map.
  destruct (mapHas (monthKeyOf y m) M); [lia|].
  rewrite length_app. simpl. lia.
Qed.

Lemma fold_enterTxn_counts ts M :
  Forall wellDated ts ->
  totalCount (map snd (fold_left enterTxn ts M))
  = totalCount (map snd M) + Z.of_nat (length ts)
  /\ (length (fold_left enterTxn ts M) <= length M + length ts)%nat.
Proof.
  intros Hw. revert M. induction Hw as [|t ts [[y m] Ht] _ IH]; intros M.
  - simpl. split; lia.
  - assert (Heq : enterTxn M t = enter M y m t).
    { unfold enterTxn. rewrite Ht. reflexivity. }
    cbn [fold_left length]. destruct (IH (enterTxn M t)) as [Hc Hl].
    rewrite Hc. rewrite Heq in Hl |- *.
    rewrite totalCount_enter. pose proof (length_enter M y m t).
    split; lia.
Qed.

Lemma forOf_app {A S : Type} (body : S -> A -> outcome S) (xs ys : list A) (acc : S) :
  forOf body (xs ++ ys) acc = forOf body xs acc ≫= forOf body ys.
Proof.
  revert acc. induction xs as [|x xs IH]; intros acc; [reflexivity|].
  change (forOf body ((x :: xs) ++ ys) acc)
    with (body acc x ≫= forOf body (xs ++ ys)).
  change (forOf body (x :: xs) acc) with (body acc x ≫= forOf body xs).
  destruct (body acc x) as [acc'| |]; simpl; [apply IH|reflexivity|reflexivity].
Qed.
End AggregatorCounts.

(** X9. The aggregator loses and invents no record: for dated records the
    transaction counts of the months add up to the number of records,
    every month it returns counts one record at least, and there are no
    more months than records. *)
Theorem aggregateByMonth_counts_every_record {num : Type} `{Arith num}
  (transactions : list (CSVTransaction num)) :
  Forall wellDated transactions ->
  exists out,
    aggregateByMonth transactions = Returns out /\
    totalCount out = Z.of_nat (length transactions) /\
    (forall d, In d out -> 1 <= transactionCount d) /\
    (length out <= length transactions)%nat.
Proof.
  intros Hw. eexists. split; [apply aggregateByMonth_wellDated, Hw|].
  destruct (fold_enterTxn_counts transactions [] Hw) as [Hc Hl].
  split; [|split].
  - rewrite (totalCount_perm _ _ (sortBy_perm _ _)). rewrite Hc. reflexivity.
  - intros d Hd. apply In_aggregates in Hd as [k Hk].
    apply summary_Some in Hk.
    destruct Hk as (_ & _ & (t0 & Hin & Hm) & _ & _ & ->).
    assert (Hf : In t0 (List.filter (inMonth (year d) (month d)) transactions)).
    { apply List.filter_In. split; [exact Hin|].
      unfold inMonth. apply bool_decide_eq_true. exact Hm. }
    destruct (List.filter (inMonth (year d) (month d)) transactions);
      [destruct Hf|simpl length; lia].
  - rewrite (Permutation_length (sortBy_perm _ _)), length_map. simpl in Hl. lia.
Qed.

Lemma aggregateByMonth_counts_every_record_witness :
  exists out,
    aggregateByMonth sampleLedger = Returns out /\
    totalCount out = 5 /\
    (forall d, In d out -> 1 <= transactionCount d) /\
    (length out <= 5)%nat.
Proof.
  apply (aggregateByMonth_counts_every_record sampleLedger).
  repeat constructor; eexists; vm_compute; reflexivity.
Defined.

(** X10. A record without a usable date stops the aggregator: when the
    records before it are dated and its own date is undefined, or has no
    dash (the empty date of a blank field is one), the aggregator throws a
    [TypeError] and returns no month at all, whatever follows. *)
Theorem aggregateByMonth_stops_at_undated {num : Type} `{Arith num}
  (before_ after_ : list (CSVTransaction num)) (t : CSVTransaction num) :
  Forall wellDated before_ ->
  (date t = None \/ exists s, date t = Some s /\ occurs "-" s = false) ->
  exists message,
    aggregateByMonth (before_ ++ t :: after_) = Throws (JsError "TypeError" message).
Proof.
  intros Hw Hd. unfold aggregateByMonth.
  rewrite forOf_app, (forOf_aggregateStep _ _ Hw).
  assert (Hstep : forall M, exists message,
             aggregateStep M t = Throws (JsError "TypeError" message)).
  { intros M. unfold aggregateStep, yearMonth.
    destruct Hd as [->|(s & -> & Hs)].
    - eexists. reflexivity.
    - rewrite (split_absent _ _ Hs). eexists. reflexivity. }
  destruct (Hstep (fold_left enterTxn before_ [])) as [message Hm].
  exists message.
  change (Returns (fold_left enterTxn before_ []) ≫= forOf aggregateStep (t :: after_))
    with (aggregateStep (fold_left enterTxn before_ []) t
            ≫= forOf aggregateStep after_).
  rewrite Hm. reflexivity.
Qed.

Lemma aggregateByMonth_stops_at_undated_witness :
  exists message,
    aggregateByMonth
      ([sampleTxn "2024-03-01" "income" 1200.5%float "GBP"]
       ++ sampleTxn "" "expense" 12.5%float "GBP"
          :: [sampleTxn "2024-03-02" "expense" 3%float "GBP"])
    = Throws (JsError "TypeError" message).
Proof.
  apply (aggregateByMonth_stops_at_undated
           [sampleTxn "2024-03-01" "income" 1200.5%float "GBP"]
           [sampleTxn "2024-03-02" "expense" 3%float "GBP"]
           (sampleTxn "" "expense" 12.5%float "GBP")).
  - repeat constructor; eexists; vm_compute; reflexivity.
  - right. exists "". split; reflexivity.
Defined.

(** ** The yearly views *)

Section YearlyFacts.
Context {num : Type} `{Arith num}.

Lemma yearlyStep_dated (yearMap : list (string * (num * num)))
  (t : CSVTransaction num) :
  date t <> None ->
  yearlyStep yearMap t
  = Returns (groupInto yearLabel (ofZ 0, ofZ 0) yearlyAccount yearMap t).
Proof.
  unfold yearlyStep, yearOf, groupInto, yearLabel.
  destruct (date t); [reflexivity|congruence].
Qed.

Lemma forOf_yearlyStep (ts : list (CSVTransaction num))
  (yearMap : list (string * (num * num))) :
  Forall (fun t => date t <> None) ts ->
  forOf yearlyStep ts yearMap
  = Returns (fold_left (groupInto yearLabel (ofZ 0, ofZ 0) yearlyAccount) ts yearMap).
Proof.
  intros Hd. revert yearMap. induction Hd as [|t ts Ht _ IH]; intros yearMap.
  - reflexivity.
  - change (forOf yearlyStep (t :: ts) yearMap)
      with (yearlyStep yearMap t ≫= forOf yearlyStep ts).
    rewrite (yearlyStep_dated _ _ Ht). apply IH.
Qed.

Lemma yearlyAccount_fold (l : list (CSVTransaction num)) :
  fold_left (fun data t => yearlyAccount t data) l (ofZ 0, ofZ 0)
  = (sum (map amount (List.filter isIncome l)),
     sum (map amount (List.filter isExpense l))).
Proof.
  induction l as [|t l IH] using rev_ind; [reflexivity|].
  rewrite fold_left_app, IH. cbn [fold_left].
  rewrite !filter_snoc. unfold yearlyAccount, isExpense.
  destruct (isIncome t); cbn [negb fst snd];
    rewrite ?app_nil_r, ?map_app; cbn [map]; rewrite ?sum_snoc; reflexivity.
Qed.

Lemma projectedAccount_fold (l : list (ProjectedMonthlyData num)) :
  fold_left (fun data p => projectedAccount p data) l (ofZ 0, ofZ 0)
  = (sum (map projectedIncome l), sum (map projectedExpenses l)).
Proof.
  induction l as [|p l IH] using rev_ind; [reflexivity|].
  rewrite fold_left_app, IH. cbn [fold_left]. unfold projectedAccount.
  cbn [fst snd]. rewrite !map_app. cbn [map]. rewrite !sum_snoc. reflexivity.
Qed.

Lemma groupOf_nonempty {A : Type} (key : A -> string) (k : string) (xs : list A) :
  groupOf key k xs <> [] <-> exists a, In a xs /\ key a = k.
Proof.
  unfold groupOf. split.
  - destruct (List.filter _ xs) as [|a rest] eqn:Hf; [congruence|]. intros _.
    assert (Hin : In a (List.filter (fun a => String.eqb (key a) k) xs))
      by (rewrite Hf; left; reflexivity).
    apply List.filter_In in Hin as [Hin Hk]. apply String.eqb_eq in Hk. eauto.
  - intros (a & Hin & Hk) Hnil.
    assert (Hf : In a (List.filter (fun a => String.eqb (key a) k) xs)).
    { apply List.filter_In. split; [exact Hin|]. apply String.eqb_eq, Hk. }
    rewrite Hnil in Hf. destruct Hf.
Qed.

(** The entries of a grouped map, read as totals. *)
Lemma In_groupFold {A : Type} (key : A -> string) (upd : A -> num * num -> num * num)
  (xs : list A) (k : string) (v : num * num) :
  In (k, v) (fold_left (groupInto key (ofZ 0, ofZ 0) upd) xs [])
  <-> groupOf key k xs <> []
      /\ v = fold_left (fun data a => upd a data) (groupOf key k xs) (ofZ 0, ofZ 0).
Proof.
  rewrite mapGet_member by (apply keys_groupFold; constructor).
  rewrite mapGet_groupFold.
  destruct (groupOf key k xs) as [|a rest].
  - split; [discriminate|intros [Hc _]; congruence].
  - split; [intros [= <-]; split; [discriminate|reflexivity]|intros [_ ->]; reflexivity].
Qed.
End YearlyFacts.



Lemma projectedYearOf_monthKeyOf {num : Type} (p : ProjectedMonthlyData num) (y m : Z) :
  0 <= y -> p_monthKey p = monthKeyOf y m -> projectedYearOf p = showZ y.
Proof.
  intros Hy Hk. unfold projectedYearOf. rewrite Hk. unfold monthKeyOf.
  destruct (showZ_digits y Hy) as (d & Hd & _).
  change ("-" +:+ padStart 2 "0" (showZ m))
    with (String "-" (padStart 2 "0" (showZ m))).
  rewrite (split_at_sep _ _ _ (digits_no_dash _ _ Hd)). reflexivity.
Qed.

(** X12. The projected yearly view of the dashboard: one point per year
    label of the projections' month keys, without repetition, whose income
    and expenses are the sums, from 0 and in order, of the projected income
    and expenses of that year's months; the year label of a key built for
    year [y] is the decimal text of [y]. Without projections the view is
    empty. *)
Theorem getProjectedYearlyData_yearly_totals {num : Type} `{Arith num}
  (localeCompare : string -> string -> Z) (result : ProjectionResult num) :
  getProjectedYearlyData localeCompare None = [] /\
  List.NoDup (map yp_year (getProjectedYearlyData localeCompare (Some result))) /\
  (forall e,
      In e (getProjectedYearlyData localeCompare (Some result)) <->
      let months := groupOf projectedYearOf (yp_year e) (projections result) in
      months <> [] /\
      yp_income e = sum (map projectedIncome months) /\
      yp_expenses e = sum (map projectedExpenses months)) /\
  (forall p y m,
      In p (projections result) -> 0 <= y -> p_monthKey p = monthKeyOf y m ->
      In (showZ y) (map yp_year (getProjectedYearlyData localeCompare (Some result)))).
Proof.
  split; [reflexivity|].
  unfold getProjectedYearlyData.
  change (fold_left projectedYearlyStep (projections result) [])
    with (fold_left (groupInto projectedYearOf (ofZ 0, ofZ 0) projectedAccount)
            (projections result) []).
  set (M := fold_left (groupInto projectedYearOf (ofZ 0, ofZ 0) projectedAccount)
              (projections result) []).
  set (point := fun '(y, data) =>
                  {| yp_year := y; yp_income := fst data; yp_expenses := snd data |}).
  assert (Hkeys : map yp_year (map point M) = map fst M).
  { rewrite map_map. apply map_ext. intros [y data]. reflexivity. }
  assert (Hmem : forall e,
             In e (sortBy (fun a b => localeCompare (yp_year a) (yp_year b)) (map point M))
             <-> groupOf projectedYearOf (yp_year e) (projections result) <> [] /\
                 yp_income e
                 = sum (map projectedIncome
                          (groupOf projectedYearOf (yp_year e) (projections result))) /\
                 yp_expenses e
                 = sum (map projectedExpenses
                          (groupOf projectedYearOf (yp_year e) (projections result)))).
  { intros e. split.
    - intros He. apply (Permutation_in _ (sortBy_perm _ _)) in He.
      apply in_map_iff in He as ([y data] & <- & Hin).
      apply In_groupFold in Hin as [Hne ->]. cbn [yp_year yp_income yp_expenses].
      rewrite projectedAccount_fold. split; [exact Hne|]. split; reflexivity.
    - intros (Hne & Hi & He).
      apply (Permutation_in _ (Permutation_sym (sortBy_perm _ _))).
      apply in_map_iff.
      exists (yp_year e, (yp_income e, yp_expenses e)).
      split; [destruct e; reflexivity|].
      apply In_groupFold. split; [exact Hne|].
      rewrite projectedAccount_fold, Hi, He. reflexivity. }
  split; [|split].
  - apply (Permutation_NoDup (l := map yp_year (map point M))).
    + apply Permutation_map. symmetry. apply sortBy_perm.
    + rewrite Hkeys. apply keys_groupFold. constructor.
  - exact Hmem.
  - intros p y m Hin Hy Hk.
    pose proof (projectedYearOf_monthKeyOf p y m Hy Hk) as Hyear.
    apply in_map_iff.
    exists {| yp_year := showZ y;
              yp_income := sum (map projectedIncome
                                  (groupOf projectedYearOf (showZ y) (projections result)));
              yp_expenses := sum (map projectedExpenses
                                    (groupOf projectedYearOf (showZ y)
                                       (projections result))) |}.
    split; [reflexivity|]. apply Hmem. cbn [yp_year yp_income yp_expenses].
    split; [|split; reflexivity].
    apply groupOf_nonempty. exists p. split; assumption.
Qed.

(** ** The projector's windows *)

Lemma lastThree_short {A : Type} (l : list A) : (length l <= 3)%nat -> lastThree l = l.
Proof.
  intros Hl. unfold lastThree.
  replace (length l - 3)%nat with 0%nat by lia. reflexivity.
Qed.

Lemma lastThree_length {A : Type} (l : list A) : (length (lastThree l) <= 3)%nat.
Proof. unfold lastThree. rewrite length_skipn. lia. Qed.

Lemma lastThree_map {A B : Type} (f : A -> B) (l : list A) :
  map f (lastThree l) = lastThree (map f l).
Proof. unfold lastThree. rewrite length_map. symmetry. apply skipn_map. Qed.

Section RolloutFacts.
Context {num : Type} `{Arith num}.
Variables (incomeModel expenseModel : @Model num).
Variables (maxIncome maxExpense : num) (minYear maxYear : Z).

Local Abbreviation step :=
  (projectStep incomeModel expenseModel maxIncome maxExpense minYear maxYear).
Local Abbreviation loop :=
  (projectLoop incomeModel expenseModel maxIncome maxExpense minYear maxYear).

(** [push] then [shift] when more than three: the last three of what was
    there and the new value. *)
Lemma pushRecent_lastThree (l : list num) (x : num) :
  pushRecent (lastThree l) x = lastThree (l ++ [x]).
Proof.
  unfold pushRecent, lastThree. rewrite !length_app, length_skipn. cbn [length].
  destruct (Nat.le_gt_cases (length l) 2) as [Hs|Hg].
  - replace (length l - 3)%nat with 0%nat by lia.
    replace (length l + 1 - 3)%nat with 0%nat by lia.
    cbn [skipn]. destruct (Z.ltb_spec 3 (Z.of_nat (length l - 0 + 1))); [lia|].
    reflexivity.
  - destruct (Z.ltb_spec 3 (Z.of_nat (length l - (length l - 3) + 1))); [|lia].
    rewrite skipn_app.
    replace (length l + 1 - 3 - length l)%nat with 0%nat by lia.
    cbn [skipn].
    replace (length l + 1 - 3)%nat with (S (length l - 3)) by lia.
    destruct (skipn (length l - 3) l) as [|a rest] eqn:Hsk.
    + apply (f_equal (@length num)) in Hsk. rewrite length_skipn in Hsk.
      simpl in Hsk. lia.
    + cbn [app tail].
      rewrite <- (Nat.add_1_l (length l - 3)), <- skipn_skipn, Hsk. reflexivity.
Qed.

Lemma projectLoop_snoc (n : nat) (st : ProjectorState) :
  loop (S n) st = step (loop n st).
Proof.
  revert st. induction n as [|n IH]; intros st; [reflexivity|].
  change (loop (S (S n)) st) with (loop (S n) (step st)).
  rewrite IH. reflexivity.
Qed.

(** Each window holds the last three values of the history followed by
    the projections made so far. *)
Lemma projectLoop_windows (monthlyData : list (MonthlyData num)) (y m : Z) (n : nat) :
  let st := loop n {| currentYear := y; currentMonth := m;
                      recentIncomes := map totalIncome (lastThree monthlyData);
                      recentExpenses := map totalExpenses (lastThree monthlyData);
                      projected := [] |} in
  recentIncomes st
  = lastThree (map totalIncome monthlyData ++ map projectedIncome (projected st)) /\
  recentExpenses st
  = lastThree (map totalExpenses monthlyData ++ map projectedExpenses (projected st)).
Proof.
  cbv zeta. induction n as [|n [IHi IHe]].
  - cbn [projectLoop recentIncomes recentExpenses projected map].
    rewrite !app_nil_r, !lastThree_map. split; reflexivity.
  - rewrite projectLoop_snoc.
    set (st := loop n _) in *.
    unfold projectStep. destruct (advance (currentYear st) (currentMonth st)) as [y' m'].
    cbn [recentIncomes recentExpenses projected].
    rewrite IHi, IHe, !pushRecent_lastThree, !map_app, !app_assoc.
    split; reflexivity.
Qed.

(** The loop stays on calendar months and moves one month index a step. *)
Lemma projectLoop_index (n : nat) (st : ProjectorState) :
  1 <= currentMonth st <= 12 ->
  1 <= currentMonth (loop n st) <= 12 /\
  stateIndex (loop n st) = stateIndex st + Z.of_nat n.
Proof.
  intros Hm. induction n as [|n [IHm IHi]].
  - cbn [projectLoop]. split; [exact Hm|lia].
  - rewrite projectLoop_snoc.
    destruct (projectStep_spec incomeModel expenseModel maxIncome maxExpense
                minYear maxYear (loop n st) IHm) as (Hm' & Hi' & _).
    split; [exact Hm'|]. rewrite Hi', IHi. lia.
Qed.

(** X13. The projector rolls forward one month at a time. Asking for one
    month more leaves the months already projected as they are and appends
    one projection, for the calendar month that comes [n + 1] months after
    the last historical month (January after December, in the next year):
    each model's output for the feature vector of that month, scaled by
    the target's maximum, where a moving-average feature is over the last
    three values of the history followed by the projections made before
    (so from the fourth projected month on, over projections only). *)
Theorem generateProjections_rolls_forward
  (monthlyData : list (MonthlyData num)) (lastMonth : MonthlyData num) (n : nat)
  (ps : list (ProjectedMonthlyData num)) :
  last monthlyData = Some lastMonth ->
  1 <= month lastMonth <= 12 ->
  generateProjections incomeModel expenseModel maxIncome maxExpense
    minYear maxYear monthlyData n = Returns ps ->
  let next :=
    monthOfIndex (monthIndex (year lastMonth) (month lastMonth) + Z.of_nat n + 1) in
  let featureVector :=
    [div (ofZ (snd next)) (ofZ 12);
     div (ofZ (fst next - minYear)) (ofZ (yearRangeOf minYear maxYear));
     normalizedRecentAvg
       (lastThree (map totalIncome monthlyData ++ map projectedIncome ps)) maxIncome;
     normalizedRecentAvg
       (lastThree (map totalExpenses monthlyData ++ map projectedExpenses ps))
       maxExpense] in
  generateProjections incomeModel expenseModel maxIncome maxExpense
    minYear maxYear monthlyData (S n)
  = Returns (ps ++ [{| p_monthKey := monthKeyOf (fst next) (snd next);
                       projectedIncome := mul (incomeModel featureVector) maxIncome;
                       projectedExpenses :=
                         mul (expenseModel featureVector) maxExpense |}]).
Proof.
  unfold generateProjections. intros -> Hm [= <-]. cbv zeta.
  rewrite projectLoop_snoc.
  destruct (projectLoop_windows monthlyData (year lastMonth) (month lastMonth) n)
    as [Hi He].
  cbv zeta in Hi, He.
  match type of Hi with
  | recentIncomes (loop n ?st0) = _ =>
      destruct (projectLoop_index n st0 Hm) as [Hrange Hidx]
  end.
  set (st := loop n _) in *.
  unfold projectStep. rewrite (advance_index _ _ Hrange).
  unfold stateIndex in Hidx. cbn [currentYear currentMonth] in Hidx.
  rewrite Hidx.
  destruct (monthOfIndex
              (monthIndex (year lastMonth) (month lastMonth) + Z.of_nat n + 1))
    as [y m].
  cbn [projected fst snd]. rewrite Hi, He. reflexivity.
Qed.
End RolloutFacts.

Lemma generateProjections_rolls_forward_witness :
  exists ps,
    generateProjections sampleModel sampleModel 1200%float 900%float
      2024 2024 autumnHistory 1 = Returns ps /\
    let featureVector :=
      [div (ofZ 1) (ofZ 12);
       div (ofZ (2025 - 2024)) (ofZ 1);
       normalizedRecentAvg
         (lastThree (map totalIncome autumnHistory ++ map projectedIncome ps))
         1200%float;
       normalizedRecentAvg
         (lastThree (map totalExpenses autumnHistory ++ map projectedExpenses ps))
         900%float] in
    generateProjections sampleModel sampleModel 1200%float 900%float
      2024 2024 autumnHistory 2
    = Returns (ps ++ [{| p_monthKey := "2025-01";
                         projectedIncome := mul (sampleModel featureVector) 1200%float;
                         projectedExpenses :=
                           mul (sampleModel featureVector) 900%float |}]).
Proof.
  eexists. split; [vm_compute; reflexivity|].
  apply (generateProjections_rolls_forward sampleModel sampleModel
           1200%float 900%float 2024 2024 autumnHistory
           (sampleMonth 2024 11 1200%float 800%float 3) 1).
  - reflexivity.
  - simpl. lia.
  - vm_compute. reflexivity.
Defined.

(** ** Reading a row by column name *)

Section RowFacts.
Implicit Types (l : list (string * string)) (transaction : gmap string string).

Local Abbreviation setColumn :=
  (fun transaction '(header, val) => <[header := val]> transaction).

Lemma foldl_setColumn_other l transaction (h : string) :
  (forall j p, l !! j = Some p -> p.1 <> h) ->
  foldl setColumn transaction l !! h = transaction !! h.
Proof.
  revert transaction. induction l as [|[h0 v0] l IH]; intros transaction Hno.
  - reflexivity.
  - cbn [foldl]. rewrite IH.
    + apply lookup_insert_ne. exact (Hno 0%nat (h0, v0) eq_refl).
    + intros j p Hj. exact (Hno (S j) p Hj).
Qed.

Lemma foldl_setColumn_last l transaction (i : nat) (h v : string) :
  l !! i = Some (h, v) ->
  (forall j p, (i < j)%nat -> l !! j = Some p -> p.1 <> h) ->
  foldl setColumn transaction l !! h = Some v.
Proof.
  revert transaction i. induction l as [|[h0 v0] l IH]; intros transaction i Hi Hlater.
  - discriminate.
  - cbn [foldl]. destruct i as [|i].
    + injection Hi as -> ->. rewrite foldl_setColumn_other.
      * apply lookup_insert_eq.
      * intros j p Hj. apply (Hlater (S j) p); [lia|exact Hj].
    + apply (IH _ i); [exact Hi|].
      intros j p Hlt Hj. apply (Hlater (S j) p); [lia|exact Hj].
Qed.
End RowFacts.

(** X14. A row is read by column name, not by position. For a line with
    as many fields as the header and for each of the fourteen properties
    the typed record reads: when no header has that name the property is
    undefined; otherwise its value is the field of the last column of that
    name. The typed record takes its text fields from the object unchanged
    (the guards against the empty string replace it by itself): only
    [type] and [amount] have a default. *)
Theorem rowObject_reads_by_name {num : Type} `{ParseFloat num}
  (headers values : list string) (h : string) :
  length values = length headers ->
  In h columnNames ->
  (~ In h headers -> rowObject headers values !! h = None) /\
  (forall (i : nat) (v : string),
      headers !! i = Some h -> values !! i = Some v ->
      (forall j : nat, (i < j)%nat -> headers !! j <> Some h) ->
      rowObject headers values !! h = Some v) /\
  (let transaction := rowObject headers values in
   let typed := typedTxn (num := num) transaction in
   id_ typed = transaction !! "id" /\
   date typed = transaction !! "date" /\
   category typed = transaction !! "category" /\
   description typed = transaction !! "description" /\
   currency typed = transaction !! "currency" /\
   merchantId typed = transaction !! "merchantId" /\
   merchantName typed = transaction !! "merchantName" /\
   mcc typed = transaction !! "mcc" /\
   isRecurring typed = transaction !! "isRecurring" /\
   essentiality typed = transaction !! "essentiality" /\
   labelRecurring typed = transaction !! "labelRecurring" /\
   labelEssential typed = transaction !! "labelEssential").
Proof.
  intros Hlen _. unfold rowObject. split; [|split].
  - intros Hno. rewrite foldl_setColumn_other; [apply lookup_empty|].
    intros j [h0 v0] Hj Heq. cbn in Heq. subst h0.
    apply lookup_zip_with_Some in Hj as (h1 & v1 & [= <- <-] & Hh & _).
    apply Hno. apply list_elem_of_In. eapply list_elem_of_lookup_2, Hh.
  - intros i v Hh Hv Hlater.
    apply (foldl_setColumn_last _ _ i).
    + apply lookup_zip_with_Some. eauto.
    + intros j [h0 v0] Hlt Hj Heq. cbn in Heq. subst h0.
      apply lookup_zip_with_Some in Hj as (h1 & v1 & [= <- <-] & Hh' & _).
      exact (Hlater j Hlt Hh').
  - cbv zeta. unfold typedTxn, fieldOr.
    cbn [id_ date category description currency merchantId merchantName mcc
         isRecurring essentiality labelRecurring labelEssential].
    repeat split;
      match goal with
      | |- match ?x with _ => _ end = _ => destruct x as [[|]|]; reflexivity
      end.
Qed.

Lemma rowObject_reads_by_name_witness :
  (~ In "date" ["id"; "amount"; "note"; "amount"] ->
   rowObject ["id"; "amount"; "note"; "amount"] ["t1"; "12.50"; ""; "7"] !! "date" = None) /\
  rowObject ["id"; "amount"; "note"; "amount"] ["t1"; "12.50"; ""; "7"] !! "amount"
  = Some "7" /\
  date (typedTxn (num := float)
          (rowObject ["id"; "amount"; "note"; "amount"] ["t1"; "12.50"; ""; "7"]))
  = None.
Proof.
  destruct (rowObject_reads_by_name (num := float)
              ["id"; "amount"; "note"; "amount"] ["t1"; "12.50"; ""; "7"] "date"
              eq_refl) as (Habsent & _ & _ & Hdate & _).
  { vm_compute. tauto. }
  destruct (rowObject_reads_by_name (num := float)
              ["id"; "amount"; "note"; "amount"] ["t1"; "12.50"; ""; "7"] "amount"
              eq_refl) as (_ & Hlast & _).
  { vm_compute. tauto. }
  split; [exact Habsent|]. split.
  - apply (Hlast 3%nat "7"); [reflexivity|reflexivity|].
    intros j Hlt Hj. apply lookup_lt_Some in Hj. simpl in Hj. lia.
  - cbv zeta in Hdate. rewrite Hdate. apply Habsent.
    intros Hin. simpl in Hin. intuition discriminate.
Defined.

(** ** The Feature Builder's windows *)

Lemma lookbackWindow_prefix {A : Type} (l : list A) (i : nat) :
  (i <= length l)%nat -> lookbackWindow l i (Nat.min i 3) = lastThree (firstn i l).
Proof.
  intros Hi. unfold lookbackWindow, lastThree.
  rewrite length_firstn, (Nat.min_l i (length l)) by exact Hi.
  replace (i - Nat.min i 3)%nat with (i - 3)%nat by lia.
  rewrite firstn_skipn_comm. f_equal. f_equal. lia.
Qed.

(** X15. No look-ahead in the features. The feature vector of month [i]
    is made of that month's calendar fields and of the moving averages of
    the totals of the three months before it (fewer at the start), scaled
    by the four constants of the whole sequence: the month's own totals
    and those of later months enter through the constants only. *)
Theorem createFeatures_no_look_ahead {num : Type} `{Arith num}
  (monthlyData : list (MonthlyData num)) (fs : FeatureSet num)
  (i : nat) (data : MonthlyData num) :
  createFeatures monthlyData = Returns fs ->
  monthlyData !! i = Some data ->
  features fs !! i
  = Some [div (ofZ (month data)) (ofZ 12);
          div (ofZ (year data - minYear fs)) (ofZ (yearRangeOf (minYear fs) (maxYear fs)));
          normalizedMovingAvg (map totalIncome (lastThree (firstn i monthlyData)))
            (Nat.min i 3) (maxIncome fs);
          normalizedMovingAvg (map totalExpenses (lastThree (firstn i monthlyData)))
            (Nat.min i 3) (maxExpense fs)].
Proof.
  intros Hc Hi. destruct monthlyData as [|first others]; [discriminate|].
  injection Hc as <-. cbn [features minYear maxYear maxIncome maxExpense].
  rewrite <- imap_cons, list_lookup_imap, Hi. cbn [fmap option_fmap option_map].
  unfold featureRow. rewrite lookbackWindow_prefix; [reflexivity|].
  apply lookup_lt_Some in Hi. lia.
Qed.

Lemma createFeatures_no_look_ahead_witness :
  exists fs,
    createFeatures autumnHistory = Returns fs /\
    features fs !! 2%nat
    = Some [div (ofZ 11) (ofZ 12);
            div (ofZ (2024 - minYear fs)) (ofZ (yearRangeOf (minYear fs) (maxYear fs)));
            normalizedMovingAvg (map totalIncome (lastThree (firstn 2 autumnHistory)))
              (Nat.min 2 3) (maxIncome fs);
            normalizedMovingAvg (map totalExpenses (lastThree (firstn 2 autumnHistory)))
              (Nat.min 2 3) (maxExpense fs)].
Proof.
  eexists. split; [reflexivity|].
  apply (createFeatures_no_look_ahead autumnHistory _ 2
           (sampleMonth 2024 11 1200%float 800%float 3)); reflexivity.
Defined.

(** ** The dashboard's handler *)

Section HandlerFacts.
Context {num : Type} `{Arith num} `{ParseFloat num} `{NumberText num}.

(** How the handler ends, by the outcomes of the two calls it makes. *)
Lemma handleGenerateProjections_run (env : Env num) (cur : string)
  (ui : DashboardState num) (w : World) :
  handleGenerateProjections env cur ui w
  = match loadHistoricalYearlyData env cur w with
    | (Returns historical, w1) =>
        match generateAndSaveProjections env cur w1 with
        | (Returns result, w2) =>
            (Returns tt,
             {| projections' := Some result; isGeneratingProjections := false;
                projectionError := None; historicalYearlyData := historical |}, w2)
        | (Throws e, w2) =>
            (Returns tt,
             {| projections' := projections' ui; isGeneratingProjections := false;
                projectionError := Some (errorMessage e);
                historicalYearlyData := historical |},
             logged w2 "Failed to generate projections:" e)
        | (Beyond, w2) =>
            (Beyond,
             {| projections' := projections' ui; isGeneratingProjections := false;
                projectionError := None; historicalYearlyData := historical |}, w2)
        end
    | (Throws e, w1) =>
        (Returns tt,
         {| projections' := projections' ui; isGeneratingProjections := false;
            projectionError := Some (errorMessage e);
            historicalYearlyData := historicalYearlyData ui |},
         logged w1 "Failed to generate projections:" e)
    | (Beyond, w1) =>
        (Beyond,
         {| projections' := projections' ui; isGeneratingProjections := false;
            projectionError := None;
            historicalYearlyData := historicalYearlyData ui |}, w1)
    end.
Proof.
  unfold handleGenerateProjections, tryCatchFinally, mbind, UI_bind, run,
    setIsGeneratingProjections, setProjectionError, setHistoricalYearlyData,
    setProjections, consoleError, logged.
  cbn [projections' isGeneratingProjections projectionError historicalYearlyData].
  destruct (loadHistoricalYearlyData env cur w) as [[historical|e|] w1];
    try reflexivity.
  cbn [projections' isGeneratingProjections projectionError historicalYearlyData].
  destruct (generateAndSaveProjections env cur w1) as [[result|e|] w2]; reflexivity.
Qed.

(** X16. The handler behind "Generate Projected Earnings" never throws
    and always clears the busy flag. Once the historical view has loaded,
    a pipeline that returns has its result shown with no error; a pipeline
    that throws has the error's message shown and the error logged under
    "Failed to generate projections:", the projections shown before stay
    as they were, and the historical view is the fresh one all the same. *)
Theorem handleGenerateProjections_settles (env : Env num) (cur : string)
  (ui : DashboardState num) (w : World) :
  (forall e, (handleGenerateProjections env cur ui w).1.1 <> Throws e) /\
  isGeneratingProjections (handleGenerateProjections env cur ui w).1.2 = false /\
  (forall historical w1 result w2,
      loadHistoricalYearlyData env cur w = (Returns historical, w1) ->
      generateAndSaveProjections env cur w1 = (Returns result, w2) ->
      handleGenerateProjections env cur ui w
      = (Returns tt,
         {| projections' := Some result; isGeneratingProjections := false;
            projectionError := None; historicalYearlyData := historical |}, w2)) /\
  (forall historical w1 e w2,
      loadHistoricalYearlyData env cur w = (Returns historical, w1) ->
      generateAndSaveProjections env cur w1 = (Throws e, w2) ->
      handleGenerateProjections env cur ui w
      = (Returns tt,
         {| projections' := projections' ui; isGeneratingProjections := false;
            projectionError := Some (errorMessage e);
            historicalYearlyData := historical |},
         logged w2 "Failed to generate projections:" e)).
Proof.
  rewrite handleGenerateProjections_run.
  repeat split.
  - intros e.
    destruct (loadHistoricalYearlyData env cur w) as [[historical|e'|] w1];
      try discriminate.
    destruct (generateAndSaveProjections env cur w1) as [[result|e'|] w2];
      discriminate.
  - destruct (loadHistoricalYearlyData env cur w) as [[historical|e'|] w1];
      try reflexivity.
    destruct (generateAndSaveProjections env cur w1) as [[result|e'|] w2];
      reflexivity.
  - intros historical w1 result w2 -> ->. reflexivity.
  - intros historical w1 e w2 -> ->. reflexivity.
Qed.
End HandlerFacts.

Lemma handleGenerateProjections_settles_witness :
  (forall e,
      (handleGenerateProjections (servingEnv oneMonthCsv) "GBP" staleDashboard
         freshWorld).1.1 <> Throws e) /\
  handleGenerateProjections (servingEnv oneMonthCsv) "GBP" staleDashboard freshWorld
  = (Returns tt,
     {| projections' := Some sampleResult; isGeneratingProjections := false;
        projectionError :=
          Some "Need at least 3 months of data for meaningful predictions";
        historicalYearlyData :=
          [{| y_year := "2024"; income := 1200.5%float; expenses := 12.5%float |}] |},
     logged freshWorld "Failed to generate projections:"
       (JsError "Error" "Need at least 3 months of data for meaningful predictions")).
Proof.
  destruct (handleGenerateProjections_settles (servingEnv oneMonthCsv) "GBP"
              staleDashboard freshWorld)
    as (Hno & _ & _ & Hthrows).
  split; [exact Hno|].
  apply (Hthrows
           [{| y_year := "2024"; income := 1200.5%float; expenses := 12.5%float |}]
           freshWorld
           (JsError "Error" "Need at least 3 months of data for meaningful predictions")
           freshWorld).
  - vm_compute. reflexivity.
  - vm_compute. reflexivity.
Defined.

(** ** From the file to the projected months *)

Section CoverageFacts.
Context {num : Type} `{Arith num} `{ParseFloat num} `{NumberText num}.

Lemma aggregateByMonth_sorted (ts : list (CSVTransaction num))
  (monthlyData : list (MonthlyData num)) :
  aggregateByMonth ts = Returns monthlyData -> StronglySorted notAfter monthlyData.
Proof.
  unfold aggregateByMonth.
  destruct (forOf aggregateStep ts []) as [monthMap| |]; try discriminate.
  intros [= <-]. apply sortBy_sorted.
Qed.

Lemma notAfter_refl (d : MonthlyData num) : notAfter d d.
Proof. right. split; [reflexivity|lia]. Qed.

Lemma last_sorted (l : list (MonthlyData num)) (x : MonthlyData num) :
  StronglySorted notAfter l -> last l = Some x -> Forall (fun d => notAfter d x) l.
Proof.
  induction 1 as [|d l Hs IH Hall]; intros Hlast; [constructor|].
  destruct l as [|d' l'].
  - injection Hlast as ->. constructor; [apply notAfter_refl|constructor].
  - change (last (d :: d' :: l')) with (last (d' :: l')) in Hlast.
    constructor; [|apply IH, Hlast].
    apply (proj1 (List.Forall_forall _ _) Hall).
    apply list_elem_of_In. eapply list_elem_of_lookup_2.
    rewrite <- last_lookup. exact Hlast.
Qed.

(** X17. What the twelve projections are about: when the file loads and
    the currency's records aggregate into three months or more, the last
    aggregate is the latest month of the data (no aggregate is after it)
    and, that month being a calendar month, the pipeline's projections
    carry the keys of the twelve months that follow it, in order, December
    being followed by January of the next year. *)
Theorem generateAndSaveProjections_covers_next_twelve_months
  (env : Env num) (cur : string) (w w1 : World)
  (transactions : list (CSVTransaction num)) (monthlyData : list (MonthlyData num))
  (lastMonth : MonthlyData num) :
  loadCSVFile env seedFile w = (Returns transactions, w1) ->
  aggregateByMonth (filterByCurrency transactions cur) = Returns monthlyData ->
  (3 <= length monthlyData)%nat ->
  last monthlyData = Some lastMonth ->
  1 <= month lastMonth <= 12 ->
  Forall (fun d => notAfter d lastMonth) monthlyData /\
  exists result w2,
    generateAndSaveProjections env cur w = (Returns result, w2) /\
    map p_monthKey (projections result)
    = map (fun i : nat =>
             keyOfIndex (monthIndex (year lastMonth) (month lastMonth) + 1 + Z.of_nat i))
        (seq 0 12).
Proof.
  intros Hl Ha Hn Hlast Hm.
  split; [exact (last_sorted _ _ (aggregateByMonth_sorted _ _ Ha) Hlast)|].
  rewrite generateAndSaveProjections_run, Hl.
  destruct (filterByCurrency transactions cur) as [|t ts] eqn:Hf.
  { cbv in Ha. injection Ha as <-. simpl in Hn. lia. }
  cbn [length Nat.eqb]. rewrite Ha.
  destruct (Nat.ltb_spec (length monthlyData) 3) as [Hlt|_]; [lia|].
  destruct (createFeatures_nonempty monthlyData) as [fs ->].
  { intros ->. discriminate. }
  unfold generateProjections. rewrite Hlast.
  eexists. eexists. split; [reflexivity|].
  cbn [projections]. rewrite projectLoop_keys by exact Hm. reflexivity.
Qed.
End CoverageFacts.

Lemma generateAndSaveProjections_covers_next_twelve_months_witness :
  exists result w2,
    generateAndSaveProjections (servingEnv fourMonthsCsv) "GBP" freshWorld
    = (Returns result, w2) /\
    map p_monthKey (projections result)
    = ["2024-05"; "2024-06"; "2024-07"; "2024-08"; "2024-09"; "2024-10";
       "2024-11"; "2024-12"; "2025-01"; "2025-02"; "2025-03"; "2025-04"].
Proof.
  apply (generateAndSaveProjections_covers_next_twelve_months
           (servingEnv fourMonthsCsv) "GBP" freshWorld freshWorld
           (parseCSV fourMonthsCsv)
           [ {| year := 2024; month := 1; monthKey := "2024-01";
                totalIncome := 1000%float; totalExpenses := 800%float;
                transactionCount := 2 |};
             {| year := 2024; month := 2; monthKey := "2024-02";
                totalIncome := 1000%float; totalExpenses := 900%float;
                transactionCount := 2 |};
             {| year := 2024; month := 3; monthKey := "2024-03";
                totalIncome := 1200%float; totalExpenses := 800%float;
                transactionCount := 2 |};
             {| year := 2024; month := 4; monthKey := "2024-04";
                totalIncome := 1200%float; totalExpenses := 900%float;
                transactionCount := 2 |} ]
           {| year := 2024; month := 4; monthKey := "2024-04";
              totalIncome := 1200%float; totalExpenses := 900%float;
              transactionCount := 2 |}).
  - reflexivity.
  - vm_compute. reflexivity.
  - simpl. lia.
  - reflexivity.
  - simpl. lia.
Defined.

(** ** Training and projection use the same window *)

(** X18. The projector's first feature vector continues the training
    features: for a non-empty history, its moving-average feature (the
    mean of the last three totals, or of all when there are fewer, over
    the maximum) is the one the Feature Builder computes at the position
    just after the history's end, whatever month comes there. *)
Theorem projector_window_continues_features {num : Type} `{Arith num}
  (monthlyData : list (MonthlyData num)) (next : MonthlyData num)
  (target : MonthlyData num -> num) (maxValue : num) :
  monthlyData <> [] ->
  normalizedRecentAvg (map target (lastThree monthlyData)) maxValue
  = normalizedMovingAvg
      (map target
         (lookbackWindow (monthlyData ++ [next]) (length monthlyData)
            (Nat.min (length monthlyData) 3)))
      (Nat.min (length monthlyData) 3) maxValue.
Proof.
  intros Hne. rewrite lookbackWindow_prefix by (rewrite length_app; lia).
  rewrite firstn_app, firstn_all, Nat.sub_diag. cbn [firstn]. rewrite app_nil_r.
  unfold normalizedRecentAvg, normalizedMovingAvg.
  assert (Hlen : length (map target (lastThree monthlyData))
                 = Nat.min (length monthlyData) 3).
  { rewrite length_map. unfold lastThree. rewrite length_skipn. lia. }
  rewrite Hlen. reflexivity.
Qed.

Lemma projector_window_continues_features_witness :
  normalizedRecentAvg (map totalIncome (lastThree autumnHistory)) 1200%float
  = normalizedMovingAvg
      (map totalIncome
         (lookbackWindow
            (autumnHistory ++ [sampleMonth 2024 12 0%float 0%float 0])
            (length autumnHistory) (Nat.min (length autumnHistory) 3)))
      (Nat.min (length autumnHistory) 3) 1200%float.
Proof.
  apply (projector_window_continues_features autumnHistory
           (sampleMonth 2024 12 0%float 0%float 0) totalIncome 1200%float).
  discriminate.
Defined.

(** ** Insufficient data and the Result Store, as specified *)

(** C2, as the code has it. The Feature Builder raises on the empty
    sequence only, with "No monthly data available for feature creation":
    for one month or more it returns features, labels and constants. The
    check for fewer than three months is made by the pipeline before it
    calls the Feature Builder: when the file loads and the records of the
    currency fill one or two months, the pipeline throws "Need at least 3
    months of data for meaningful predictions" and leaves the world as it
    was. *)
Theorem insufficient_data_is_checked_by_the_pipeline {num : Type}
  `{Arith num} `{ParseFloat num} `{NumberText num} :
  (forall monthlyData : list (MonthlyData num),
      createFeatures monthlyData
      = Throws (JsError "Error" "No monthly data available for feature creation")
      <-> monthlyData = []) /\
  (forall monthlyData : list (MonthlyData num),
      (1 <= length monthlyData)%nat ->
      exists fs,
        createFeatures monthlyData = Returns fs /\
        length (features fs) = length monthlyData /\
        length (incomeLabels fs) = length monthlyData /\
        length (expenseLabels fs) = length monthlyData) /\
  (forall (env : Env num) (cur : string) (w w1 : World)
          (transactions : list (CSVTransaction num))
          (monthlyData : list (MonthlyData num)),
      loadCSVFile env seedFile w = (Returns transactions, w1) ->
      aggregateByMonth (filterByCurrency transactions cur) = Returns monthlyData ->
      (1 <= length monthlyData < 3)%nat ->
      generateAndSaveProjections env cur w
      = (Throws (JsError "Error"
                   "Need at least 3 months of data for meaningful predictions"),
         w)).
Proof.
  split; [|split].
  - intros monthlyData. split.
    + destruct monthlyData as [|first others]; [reflexivity|discriminate].
    + intros ->. reflexivity.
  - intros monthlyData Hlen.
    destruct monthlyData as [|first others]; [simpl in Hlen; lia|].
    eexists. split; [reflexivity|].
    cbn [features incomeLabels expenseLabels].
    rewrite length_imap, !length_map. repeat split.
  - intros env cur w w1 transactions monthlyData Hl Ha [Hlo Hhi].
    pose proof (loadCSVFile_world _ _ _ _ _ Hl) as ->.
    rewrite generateAndSaveProjections_run, Hl.
    destruct (filterByCurrency transactions cur) as [|t ts] eqn:Hf.
    { cbv in Ha. injection Ha as <-. simpl in Hlo. lia. }
    cbn [length Nat.eqb]. rewrite Ha.
    apply Nat.ltb_lt in Hhi. rewrite Hhi. reflexivity.
Qed.

Lemma insufficient_data_is_checked_by_the_pipeline_witness :
  generateAndSaveProjections (servingEnv oneMonthCsv) "GBP" freshWorld
  = (Throws (JsError "Error" "Need at least 3 months of data for meaningful predictions"),
     freshWorld).
Proof.
  destruct (insufficient_data_is_checked_by_the_pipeline (num := float))
    as (_ & _ & Hpipeline).
  eapply (Hpipeline (servingEnv oneMonthCsv) "GBP" freshWorld freshWorld
            (parseCSV oneMonthCsv)).
  - reflexivity.
  - vm_compute. reflexivity.
  - simpl. lia.
Defined.

(** The Feature Builder accepts a single month, and two months: the
    sentence of C2 on 1 and 2 months does not hold of it. *)
Lemma createFeatures_accepts_one_month :
  (exists fs, createFeatures [sampleMonth 2024 1 1000%float 800%float 3] = Returns fs) /\
  (exists fs,
      createFeatures [sampleMonth 2024 1 1000%float 800%float 3;
                      sampleMonth 2024 2 1200%float 900%float 2] = Returns fs).
Proof. split; eexists; reflexivity. Qed.

(** C4, as the code has it. Saving never propagates an error: it always
    returns normally, and when the write to the store fails the error is
    logged under "[Projections] Failed to save:". Loading never throws
    either: a payload that does not parse is logged and treated as
    absence, the call returns null. *)
Theorem result_store_swallows_errors {num : Type} `{Arith num} `{NumberText num}
  (result : ProjectionResult num) (w : World) :
  fst (saveProjectionsToStorage result w) = Returns tt /\
  (forall e w',
      setItem storageKey (JSON_stringify (valueOfResult result)) w = (Throws e, w') ->
      saveProjectionsToStorage result w
      = (Returns tt, logged w "[Projections] Failed to save:" e)) /\
  (forall e, fst (loadProjectionsFromStorage (num := num) w) <> Throws e) /\
  (forall items text e,
      storage w = Some items -> items !! storageKey = Some text ->
      JSON_parse (num := num) text = Throws e ->
      loadProjectionsFromStorage (num := num) w
      = (Returns JNull, logged w "[Projections] Failed to load:" e)).
Proof.
  split; [|split; [|split]].
  - rewrite saveProjectionsToStorage_returns. reflexivity.
  - intros e w' Hs. rewrite saveProjectionsToStorage_run.
    destruct (setItem_settles storageKey (JSON_stringify (valueOfResult result)) w)
      as [(items & _ & _ & Hok)|(e' & Hfail)]; [congruence|].
    rewrite Hfail in Hs. injection Hs as <- <-. rewrite Hfail. reflexivity.
  - intros e. rewrite loadProjectionsFromStorage_run.
    destruct (storage w) as [items|]; [|discriminate].
    destruct (items !! storageKey) as [text|]; [|discriminate].
    destruct (JSON_parse text); discriminate.
  - intros items text e Hs Hk Hp.
    rewrite loadProjectionsFromStorage_run, Hs, Hk, Hp. reflexivity.
Qed.

Lemma result_store_swallows_errors_witness :
  saveProjectionsToStorage sampleResult fullWorld
  = (Returns tt,
     logged fullWorld "[Projections] Failed to save:"
       (JsError "QuotaExceededError" "The quota has been exceeded.")) /\
  loadProjectionsFromStorage (num := float) damagedWorld
  = (Returns JNull,
     logged damagedWorld "[Projections] Failed to load:"
       (JsError "SyntaxError" "Unexpected token in JSON")).
Proof.
  destruct (result_store_swallows_errors sampleResult fullWorld)
    as (_ & Hsave & _).
  destruct (result_store_swallows_errors (num := float) sampleResult damagedWorld)
    as (_ & _ & _ & Hload).
  split.
  - eapply Hsave. vm_compute. reflexivity.
  - apply (Hload {[ storageKey := "{projections:" ]} "{projections:");
      vm_compute; reflexivity.
Defined.

(** Saving into a full store returns normally: the quota error is logged,
    not propagated. *)
Lemma saveProjectionsToStorage_full_store_returns :
  saveProjectionsToStorage sampleResult fullWorld
  = (Returns tt,
     logged fullWorld "[Projections] Failed to save:"
       (JsError "QuotaExceededError" "The quota has been exceeded.")).
Proof. vm_compute. reflexivity. Qed.


